(** * Gym Management System: the membership lifecycle and notification core

    A shallow embedding of [app.js]: the relational store the handlers talk
    to, the SQL statements they issue (as functions on tables), the
    [async] functions of the scheduler (as computations over a world that
    holds the store, the mail transport and the process state), and the
    properties of the lifecycle sweep, the daily notification job, the
    daily run gate, the subscribe handler and the BMI helper. *)

From Stdlib Require Import ZArith List Bool String Ascii Lia.
From Stdlib Require Import PrimFloat FloatOps FloatAxioms SpecFloat DecimalString.
From Stdlib Require DecimalZ.

#[local] Set Warnings "-inexact-float".
Import ListNotations.
Local Open Scope Z_scope.

(** ** Dates and timestamps

    A DATE column is a day number and a DATETIME/TIMESTAMP column a number
    of seconds, both counted in the session's local time; [DATE(ts)] is the
    day a timestamp falls on. *)

Definition seconds_per_day : Z := 86400.

Definition DATE (ts : Z) : Z := ts / seconds_per_day.

(** [DATEDIFF(a, b)] on two DATE values. *)
Definition DATEDIFF (a b : Z) : Z := a - b.

(** [DATE_ADD(d, INTERVAL n DAY)] on a DATE value. *)
Definition DATE_ADD (d n : Z) : Z := d + n.

(** What the clock shows at one instant: the fields [new Date()] exposes
    to the scheduler and the value of MySQL's [NOW()]. One run of a
    handler or of a scheduled function reads the clock at one instant. *)
Record Instant := mkInstant {
  getFullYear : Z;
  getMonth : Z;          (* 0-based, as in JavaScript *)
  getDate : Z;
  getHours : Z;
  NOW : Z                (* seconds *)
}.

Definition CURDATE (i : Instant) : Z := DATE (NOW i).

(** ** The store *)

Inductive Status := pending | active | expired.
Inductive Role := member | admin.

Definition Status_eqb (a b : Status) : bool :=
  match a, b with
  | pending, pending | active, active | expired, expired => true
  | _, _ => false
  end.

Definition Role_eqb (a b : Role) : bool :=
  match a, b with
  | member, member | admin, admin => true
  | _, _ => false
  end.

(** The tables of the schema script (CREATE TABLE ...), restricted to the
    columns the modelled statements read or write. Every column below is
    NOT NULL in the schema except [check_out] and the measurements of
    [health_metrics]. *)
Record User := mkUser {
  u_id : Z;
  u_name : string;
  u_email : string;
  u_role : Role;
  u_is_active : Z        (* tinyint(1): 1 unless deactivated *)
}.

Record Plan := mkPlan {
  p_id : Z;
  p_name : string;
  p_duration_days : Z
}.

Record Membership := mkMembership {
  m_id : Z;
  m_user_id : Z;
  m_plan_id : Z;
  m_start_date : Z;
  m_end_date : Z;
  m_status : Status
}.

Record Attendance := mkAttendance {
  a_user_id : Z;
  a_check_in : Z;
  a_check_out : option Z
}.

Record Notification := mkNotification {
  n_id : Z;
  n_user_id : Z;
  n_type : string;
  n_message : string;
  n_is_read : bool;
  n_created_at : Z
}.

(** One row of [health_metrics] is declared after the JavaScript values
    below, since its measurement columns hold what the driver hands back. *)

(** ** JavaScript values and numbers

    Numbers are IEEE-754 binary64 values (Rocq's primitive floats, whose
    operations round to nearest, ties to even, as JavaScript's do). *)

Inductive JsValue :=
| JsUndefined
| JsNull
| JsNum (x : float)
| JsStr (s : string).

(** What the model takes from the JavaScript runtime without defining it. *)
Class JsRuntime := {
  (** [Number(s)] on a string: ECMAScript's StringToNumber. *)
  StringToNumber : string -> float;
  (** How a DATE value read from the store prints inside a template string. *)
  DateToString : Z -> string
}.

(** Truthiness: [!v] is [negb (ToBoolean v)]. *)
Definition ToBoolean (v : JsValue) : bool :=
  match v with
  | JsUndefined | JsNull => false
  | JsNum x => negb (is_zero x || is_nan x)
  | JsStr s => negb (String.eqb s "")
  end.

Definition Number `{JsRuntime} (v : JsValue) : float :=
  match v with
  | JsUndefined => nan
  | JsNull => zero
  | JsNum x => x
  | JsStr s => StringToNumber s
  end.

(** [a || b] on values. *)
Definition js_or (a b : JsValue) : JsValue := if ToBoolean a then a else b.

Definition round_half_even (num den : Z) : Z :=
  let q := num / den in
  let r := num mod den in
  if (den <? 2 * r) || ((den =? 2 * r) && Z.odd q) then q + 1 else q.

(** The binary64 value nearest to [p / q], ties to even, for positive [p]
    and [q] whose quotient lies in the normal range: the 53-bit significand
    is [p / (q * 2^e)] rounded, for the exponent [e] that puts it in
    [2^52, 2^53]. *)
Definition nearest_double (p q : Z) : float :=
  let e0 := Z.log2 p - Z.log2 q - 53 in
  let scaled e := (p * 2 ^ Z.max (- e) 0, q * 2 ^ Z.max e 0) in
  let e := if fst (scaled e0) <? snd (scaled e0) * 2 ^ 53 then e0 else e0 + 1 in
  let m := round_half_even (fst (scaled e)) (snd (scaled e)) in
  SF2Prim (S754_finite false (Z.to_pos m) e).

(** The integer [n] for which [n / 100] is nearest to [m * 2^e], the larger
    one when two are equally near (step 9 of Number.prototype.toFixed). *)
Definition toFixed2_digits (m : positive) (e : Z) : Z :=
  if 0 <=? e then 100 * Zpos m * 2 ^ e
  else (200 * Zpos m + 2 ^ (- e)) / 2 ^ (1 - e).

Definition ten_pow_21 : float := 1e21%float.

(** [Number(x.toFixed(2))]: the decimal string with two fractional digits
    that [toFixed] prints, read back as a number. Non-finite values print
    as their names and values from 10^21 on print as [ToString] does, so
    both read back unchanged; the sign is printed apart from the digits. *)
Definition Number_toFixed2 (x : float) : float :=
  match Prim2SF x with
  | S754_nan => nan
  | S754_infinity _ => x
  | S754_zero _ => zero
  | S754_finite s m e =>
      if (ten_pow_21 <=? abs x)%float then x
      else
        let n := toFixed2_digits m e in
        let r := if n =? 0 then zero else nearest_double n 100 in
        if s then (- r)%float else r
  end.

Definition hundred : float := 100%float.

(** [calcBMI] of app.js. *)
Definition calcBMI `{JsRuntime} (height_cm weight_kg : JsValue) : JsValue :=
  if negb (ToBoolean height_cm) || negb (ToBoolean weight_kg) then JsNull
  else
    let h := (Number height_cm / hundred)%float in
    if negb (ToBoolean (JsNum h)) then JsNull
    else JsNum (Number_toFixed2 (Number weight_kg / (h * h))%float).

Record HealthMetric := mkHealthMetric {
  h_user_id : Z;
  h_entry_date : Z;
  h_weight_kg : JsValue;
  h_height_cm : JsValue;
  h_bmi : JsValue;
  h_heart_rate_bpm : JsValue;
  h_calories_intake : JsValue
}.

Record DB := mkDB {
  users : list User;
  membership_plans : list Plan;
  memberships : list Membership;
  attendance : list Attendance;
  notifications : list Notification;
  health_metrics : list HealthMetric
}.

(** ** The process and its collaborators *)

Record Mail := mkMail {
  mail_to : string;
  mail_subject : string;
  mail_html : string
}.

(** The deployment: configuration read from [process.env] at start-up, and
    the behaviour of the two collaborators over the run. The n-th call to
    the store (counting from 0) rejects when [store_rejects n] holds, and
    likewise for the n-th call to [transporter.sendMail]. *)
Record Env := mkEnv {
  DAILY_RUN_HOUR : Z;
  transporter : bool;          (* EMAIL_ENABLED: [transporter] is not null *)
  PORT : string;
  store_rejects : nat -> bool;
  sendMail_rejects : nat -> bool
}.

Record World := mkWorld {
  db : DB;
  lastDailyRunKey : option string;   (* [None] is JavaScript's null *)
  console : list string;             (* lines written, oldest first *)
  outbox : list Mail;                (* mails the transport accepted *)
  store_calls : nat;
  sendMail_calls : nat;
  (** Instrumentation, not program state: how many times the body of
      [dailyNotificationTasks] has been entered, and how many times it
      has run to its end. *)
  daily_entered : nat;
  daily_completed : nat
}.

Definition with_db (d : DB) (w : World) : World :=
  mkWorld d (lastDailyRunKey w) (console w) (outbox w)
          (store_calls w) (sendMail_calls w) (daily_entered w) (daily_completed w).

Definition with_lastDailyRunKey (k : option string) (w : World) : World :=
  mkWorld (db w) k (console w) (outbox w)
          (store_calls w) (sendMail_calls w) (daily_entered w) (daily_completed w).

Definition with_console (c : list string) (w : World) : World :=
  mkWorld (db w) (lastDailyRunKey w) c (outbox w)
          (store_calls w) (sendMail_calls w) (daily_entered w) (daily_completed w).

Definition with_outbox (o : list Mail) (w : World) : World :=
  mkWorld (db w) (lastDailyRunKey w) (console w) o
          (store_calls w) (sendMail_calls w) (daily_entered w) (daily_completed w).

Definition count_store_call (w : World) : World :=
  mkWorld (db w) (lastDailyRunKey w) (console w) (outbox w)
          (S (store_calls w)) (sendMail_calls w) (daily_entered w) (daily_completed w).

Definition count_sendMail_call (w : World) : World :=
  mkWorld (db w) (lastDailyRunKey w) (console w) (outbox w)
          (store_calls w) (S (sendMail_calls w)) (daily_entered w) (daily_completed w).

Definition count_daily_entry (w : World) : World :=
  mkWorld (db w) (lastDailyRunKey w) (console w) (outbox w)
          (store_calls w) (sendMail_calls w) (S (daily_entered w)) (daily_completed w).

Definition count_daily_completion (w : World) : World :=
  mkWorld (db w) (lastDailyRunKey w) (console w) (outbox w)
          (store_calls w) (sendMail_calls w) (daily_entered w) (S (daily_completed w)).

(** *** Async functions

    An [async] function either completes normally with a value or throws
    (its promise rejects); either way the effects it had on the world
    stay. *)

Inductive Exn := StoreError | TransportError | TypeError.

Inductive Completion (A : Type) :=
| Normal (a : A)
| Throw (e : Exn).
Arguments Normal {A} a.
Arguments Throw {A} e.

Definition Async (A : Type) : Type := World -> Completion A * World.

Definition ret {A} (a : A) : Async A := fun w => (Normal a, w).

Definition bind {A B} (m : Async A) (k : A -> Async B) : Async B :=
  fun w =>
    match m w with
    | (Normal a, w1) => k a w1
    | (Throw e, w1) => (Throw e, w1)
    end.

(** [try { m } catch (e) { handler e }] *)
Definition try_catch {A} (m : Async A) (handler : Exn -> Async A) : Async A :=
  fun w =>
    match m w with
    | (Normal a, w1) => (Normal a, w1)
    | (Throw e, w1) => handler e w1
    end.

Declare Scope async_scope.
Delimit Scope async_scope with async.
Notation "x <- m ;; k" := (bind m (fun x => k))
  (at level 61, m at next level, right associativity) : async_scope.
Notation "m ;; k" := (bind m (fun _ => k))
  (at level 61, right associativity) : async_scope.
Local Open Scope async_scope.

(** [for (const x of xs) { await body(x) }] *)
Fixpoint for_of {A} (xs : list A) (body : A -> Async unit) : Async unit :=
  match xs with
  | [] => ret tt
  | x :: rest => body x ;; for_of rest body
  end.

Definition console_log (line : string) : Async unit :=
  fun w => (Normal tt, with_console (console w ++ [line]) w).

(** [await pool.execute(...)] for a statement that reads. *)
Definition pool_query {A} (env : Env) (stmt : DB -> A) : Async A :=
  fun w =>
    if store_rejects env (store_calls w) then (Throw StoreError, count_store_call w)
    else (Normal (stmt (db w)), count_store_call w).

(** [await pool.execute(...)] for a statement that writes. *)
Definition pool_update (env : Env) (stmt : DB -> DB) : Async unit :=
  fun w =>
    if store_rejects env (store_calls w) then (Throw StoreError, count_store_call w)
    else (Normal tt, with_db (stmt (db w)) (count_store_call w)).

(** [await pool.execute(...)] for a statement that writes values the
    server may refuse: [stmt] is [None] on a store whose server fails the
    statement for its values, and the promise rejects then as well. *)
Definition pool_insert (env : Env) (stmt : DB -> option DB) : Async unit :=
  fun w =>
    if store_rejects env (store_calls w) then (Throw StoreError, count_store_call w)
    else
      match stmt (db w) with
      | Some d => (Normal tt, with_db d (count_store_call w))
      | None => (Throw StoreError, count_store_call w)
      end.

(** [await transporter.sendMail(...)] *)
Definition transporter_sendMail (env : Env) (m : Mail) : Async unit :=
  fun w =>
    if sendMail_rejects env (sendMail_calls w)
    then (Throw TransportError, count_sendMail_call w)
    else (Normal tt, with_outbox (outbox w ++ [m]) (count_sendMail_call w)).

(** ** The statements of app.js, as functions on the store *)

Definition with_memberships (ms : list Membership) (d : DB) : DB :=
  mkDB (users d) (membership_plans d) ms (attendance d) (notifications d)
       (health_metrics d).

Definition with_notifications (ns : list Notification) (d : DB) : DB :=
  mkDB (users d) (membership_plans d) (memberships d) (attendance d) ns
       (health_metrics d).

Definition with_health_metrics (hs : list HealthMetric) (d : DB) : DB :=
  mkDB (users d) (membership_plans d) (memberships d) (attendance d)
       (notifications d) hs.

Definition set_status (s : Status) (m : Membership) : Membership :=
  mkMembership (m_id m) (m_user_id m) (m_plan_id m)
               (m_start_date m) (m_end_date m) s.

(** The AUTO_INCREMENT key of the schema, as the first id above every id
    in the table. *)
Definition next_id (ids : list Z) : Z := 1 + fold_right Z.max 0 ids.

(** [UPDATE memberships SET status=s WHERE cond] *)
Definition UPDATE_memberships_SET_status (s : Status)
    (cond : Membership -> bool) (d : DB) : DB :=
  with_memberships
    (map (fun m => if cond m then set_status s m else m) (memberships d)) d.

(** [status='pending' AND start_date <= CURDATE()] *)
Definition pending_and_started (now : Instant) (m : Membership) : bool :=
  Status_eqb (m_status m) pending && (m_start_date m <=? CURDATE now).

(** [status='active' AND end_date < CURDATE()] *)
Definition active_and_ended (now : Instant) (m : Membership) : bool :=
  Status_eqb (m_status m) active && (m_end_date m <? CURDATE now).

(** The row shape of the renewal query. *)
Record ExpiringRow := mkExpiringRow {
  er_id : Z;
  er_user_id : Z;
  er_plan_name : string;
  er_end_date : Z
}.

(** [x IN (3,1,0)] *)
Definition IN_3_1_0 (x : Z) : bool := (x =? 3) || (x =? 1) || (x =? 0).

(** [SELECT m.id, u.id AS user_id, p.name AS plan_name, m.end_date
     FROM memberships m JOIN users u ON u.id=m.user_id
     JOIN membership_plans p ON p.id=m.plan_id
     WHERE u.is_active=1 AND m.status='active'
       AND DATEDIFF(m.end_date, CURDATE()) IN (3,1,0)],
    evaluated as a nested loop in table order. *)
Definition SELECT_expiring (now : Instant) (d : DB) : list ExpiringRow :=
  flat_map (fun m =>
    flat_map (fun u =>
      flat_map (fun p =>
        if (u_id u =? m_user_id m) && (p_id p =? m_plan_id m)
           && (u_is_active u =? 1) && Status_eqb (m_status m) active
           && IN_3_1_0 (DATEDIFF (m_end_date m) (CURDATE now))
        then [mkExpiringRow (m_id m) (u_id u) (p_name p) (m_end_date m)]
        else [])
      (membership_plans d))
    (users d))
  (memberships d).

(** [SELECT id FROM notifications WHERE user_id=? AND type='renewal'
     AND DATE(created_at)=CURDATE() LIMIT 1]; the caller destructures the
    first row, [None] standing for [undefined]. *)
Definition SELECT_renewal_today (now : Instant) (userId : Z) (d : DB) : option Z :=
  option_map n_id
    (find (fun n => (n_user_id n =? userId) && String.eqb (n_type n) "renewal"
                    && (DATE (n_created_at n) =? CURDATE now))
          (notifications d)).

(** [SELECT id FROM notifications WHERE user_id=? AND type='attendance'
     AND created_at >= (NOW() - INTERVAL 7 DAY) LIMIT 1] *)
Definition SELECT_attendance_recent (now : Instant) (userId : Z) (d : DB) : option Z :=
  option_map n_id
    (find (fun n => (n_user_id n =? userId) && String.eqb (n_type n) "attendance"
                    && (NOW now - 7 * seconds_per_day <=? n_created_at n))
          (notifications d)).

(** [SELECT id FROM users WHERE role='member' AND is_active=1] *)
Definition SELECT_members (d : DB) : list Z :=
  map u_id (filter (fun u => Role_eqb (u_role u) member && (u_is_active u =? 1))
                   (users d)).

(** [SELECT COUNT( * ) AS cnt FROM attendance
     WHERE user_id=? AND DATE(check_in) >= (CURDATE() - INTERVAL 7 DAY)] *)
Definition SELECT_COUNT_attendance (now : Instant) (userId : Z) (d : DB) : Z :=
  Z.of_nat (List.length
    (filter (fun a => (a_user_id a =? userId)
                      && (CURDATE now - 7 <=? DATE (a_check_in a)))
            (attendance d))).

(** [INSERT INTO notifications (user_id, type, message) VALUES (?, ?, ?)].
    The columns the statement leaves out take the defaults of the schema:
    [is_read] 0 and [created_at] current_timestamp(). *)
Definition INSERT_notification (now : Instant) (userId : Z) (type message : string)
    (d : DB) : DB :=
  with_notifications
    (notifications d ++
       [mkNotification (next_id (map n_id (notifications d)))
                       userId type message false (NOW now)]) d.

(** [SELECT email, name FROM users WHERE id=?], first row. *)
Definition SELECT_email_name (userId : Z) (d : DB)
    : option (string * string) :=
  option_map (fun u => (u_email u, u_name u))
             (find (fun u => u_id u =? userId) (users d)).

(** [SELECT * FROM membership_plans WHERE id=?], first row. *)
Definition SELECT_plan (plan_id : Z) (d : DB) : option Plan :=
  find (fun p => p_id p =? plan_id) (membership_plans d).

(** [ORDER BY key DESC LIMIT 1], first row: a row whose key no other row
    exceeds (the first such row in table order), if there is any row. *)
Definition keep_later {A} (key : A -> Z) (best : option A) (row : A) : option A :=
  match best with
  | None => Some row
  | Some b => if key b <? key row then Some row else Some b
  end.

Definition ORDER_BY_DESC_LIMIT_1 {A} (key : A -> Z) (rows : list A) : option A :=
  fold_left (keep_later key) rows None.

(** [SELECT * FROM memberships
     WHERE user_id=? AND status='active' AND end_date >= CURDATE()
     ORDER BY end_date DESC LIMIT 1], first row. *)
Definition SELECT_current_active (now : Instant) (userId : Z) (d : DB)
    : option Membership :=
  ORDER_BY_DESC_LIMIT_1 m_end_date
    (filter (fun m => (m_user_id m =? userId) && Status_eqb (m_status m) active
                      && (CURDATE now <=? m_end_date m))
            (memberships d)).

(** [INSERT INTO memberships (user_id, plan_id, start_date, end_date, status)
     VALUES (...)] *)
Definition INSERT_membership (userId planId start_ end_ : Z) (st : Status)
    (d : DB) : DB :=
  with_memberships
    (memberships d ++
       [mkMembership (next_id (map m_id (memberships d)))
                     userId planId start_ end_ st]) d.

Definition is_not_null (v : JsValue) : bool :=
  match v with
  | JsNull | JsUndefined => false
  | _ => true
  end.

(** [SELECT height_cm FROM health_metrics
     WHERE user_id=? AND height_cm IS NOT NULL
     ORDER BY entry_date DESC LIMIT 1], first row. *)
Definition SELECT_last_height (userId : Z) (d : DB) : option JsValue :=
  option_map h_height_cm
    (ORDER_BY_DESC_LIMIT_1 h_entry_date
       (filter (fun h => (h_user_id h =? userId) && is_not_null (h_height_cm h))
               (health_metrics d))).

Definition same_health_key (a b : HealthMetric) : bool :=
  (h_user_id a =? h_user_id b) && (h_entry_date a =? h_entry_date b).

(** What the model takes from the SQL server and its driver without
    defining them: the value a column holds, as the driver hands it back,
    once the server has stored a number or a string parameter in it. The
    measurement columns of [health_metrics] are [decimal(5,2)] and
    [int(11)]: the server rounds a parameter to the column's scale, and a
    value outside the column's range is refused by a strict SQL mode,
    which fails the statement ([None]), and replaced by the nearest value
    of the range by a lenient one. *)
Class SqlServer := {
  DECIMAL_5_2 : JsValue -> option JsValue;
  INT_11 : JsValue -> option JsValue
}.

(** A parameter as a nullable column takes it: null is stored as NULL,
    and the driver refuses a parameter that is undefined. *)
Definition stored_in (column : JsValue -> option JsValue) (param : JsValue)
    : option JsValue :=
  match param with
  | JsNull => Some JsNull
  | JsUndefined => None
  | JsNum _ | JsStr _ => column param
  end.

(** The row the table holds for the parameters of the statement, if the
    server accepts them all. *)
Definition health_row `{SqlServer} (params : HealthMetric) : option HealthMetric :=
  match stored_in DECIMAL_5_2 (h_weight_kg params),
        stored_in DECIMAL_5_2 (h_height_cm params),
        stored_in DECIMAL_5_2 (h_bmi params),
        stored_in INT_11 (h_heart_rate_bpm params),
        stored_in INT_11 (h_calories_intake params) with
  | Some weight_kg, Some height_cm, Some bmi, Some heart_rate_bpm, Some calories_intake =>
      Some (mkHealthMetric (h_user_id params) (h_entry_date params)
                           weight_kg height_cm bmi heart_rate_bpm calories_intake)
  | _, _, _, _, _ => None
  end.

(** [INSERT ... ON DUPLICATE KEY UPDATE ...] of a row the server has
    accepted: the row replaces the one under its key, or is appended. The
    unique key [uq_user_entry] is (user_id, entry_date). *)
Definition ON_DUPLICATE_KEY_UPDATE (row : HealthMetric) (d : DB) : DB :=
  with_health_metrics
    (if existsb (same_health_key row) (health_metrics d)
     then map (fun h => if same_health_key row h then row else h) (health_metrics d)
     else health_metrics d ++ [row]) d.

(** [INSERT INTO health_metrics (...) VALUES (?, ?, ?, ?, ?, ?, ?)
     ON DUPLICATE KEY UPDATE weight_kg=VALUES(weight_kg), ...] with the
    parameters [params]. *)
Definition UPSERT_health_metric `{SqlServer} (params : HealthMetric) (d : DB)
    : option DB :=
  match health_row params with
  | Some row => Some (ON_DUPLICATE_KEY_UPDATE row d)
  | None => None
  end.

(** ** The functions of app.js *)

Local Open Scope string_scope.
Local Open Scope list_scope.
Local Open Scope Z_scope.

(** A string is truthy when it is not empty. *)
Definition truthy_string (s : string) : bool := negb (String.eqb s "").

(** [s || fallback] on a string. *)
Definition string_or (s fallback : string) : string :=
  if String.eqb s "" then fallback else s.

(** [sendEmail(to, subject, null, html)] *)
Definition sendEmail (env : Env) (to subject html : string)
    : Async unit :=
  if negb (transporter env) || negb (truthy_string to) then ret tt
  else
    try_catch
      (transporter_sendMail env (mkMail to subject html) ;;
       console_log (String.concat "" ["Mail sent to "; to; " - "; subject]))
      (fun e => console_log "Mail send failed").

Definition notification_subject (type : string) : string :=
  if String.eqb type "renewal" then "Membership Renewal Reminder"
  else if String.eqb type "attendance" then "We miss you at the gym"
  else if String.eqb type "health" then "Health Tip"
  else "Gym Notification".

(** The mail body of a notification (markup and layout left out). *)
Definition notification_html (env : Env) (name message : string)
    : string :=
  String.concat ""
    ["Hi "; string_or name "Member"; ", "; message;
     " http://127.0.0.1:"; PORT env; "/dashboard"].

(** The [try { ... } catch (e) { ... }] of [addNotification]: the lookup
    of the user and the send, with the handler that logs. *)
Definition mail_the_notification (env : Env) (userId : Z) (type message : string)
    : Async unit :=
  try_catch
    (u <- pool_query env (SELECT_email_name userId) ;;
     match u with
     | Some (email, name) =>
         if truthy_string email
         then sendEmail env email (notification_subject type)
                        (notification_html env name message)
         else ret tt
     | None => ret tt
     end)
    (fun e => console_log "Email-on-notification failed").

(** [addNotification(userId, type, message)] *)
Definition addNotification (env : Env) (now : Instant) (userId : Z)
    (type message : string) : Async unit :=
  pool_update env (INSERT_notification now userId type message) ;;
  mail_the_notification env userId type message.

Definition String_of_Z (z : Z) : string := NilZero.string_of_int (Z.to_int z).

Fixpoint repeat_char (c : ascii) (n : nat) : string :=
  match n with
  | O => ""
  | S k => String c (repeat_char c k)
  end.

(** [s.padStart(target, c)] for a one-character pad. *)
Definition padStart (target : nat) (c : ascii) (s : string) : string :=
  String.append (repeat_char c (target - String.length s)) s.

(** [todayKey(d)]: the local calendar day as YYYY-MM-DD. *)
Definition todayKey (d : Instant) : string :=
  let y := getFullYear d in
  let m := padStart 2 "0" (String_of_Z (getMonth d + 1)) in
  let day := padStart 2 "0" (String_of_Z (getDate d)) in
  String.concat "" [String_of_Z y; "-"; m; "-"; day].

(** [activateExpireTasks()] *)
Definition activateExpireTasks (env : Env) (now : Instant) : Async unit :=
  pool_update env (UPDATE_memberships_SET_status active (pending_and_started now)) ;;
  pool_update env (UPDATE_memberships_SET_status expired (active_and_ended now)).

Definition renewal_message `{JsRuntime} (row : ExpiringRow) : string :=
  String.concat ""
    ["Your "; er_plan_name row; " membership expires on ";
     DateToString (er_end_date row); ". Consider renewing."].

(** The body of the first loop of [dailyNotificationTasks]. *)
Definition notify_renewal_once `{JsRuntime} (env : Env) (now : Instant)
    (row : ExpiringRow) : Async unit :=
  recent <- pool_query env (SELECT_renewal_today now (er_user_id row)) ;;
  match recent with
  | None => addNotification env now (er_user_id row) "renewal" (renewal_message row)
  | Some _ => ret tt
  end.

Definition attendance_message : string :=
  "We miss you! Try to visit at least twice this week.".

(** The dedupe check and insert inside the second loop. *)
Definition notify_attendance_once (env : Env) (now : Instant) (userId : Z)
    : Async unit :=
  recent <- pool_query env (SELECT_attendance_recent now userId) ;;
  match recent with
  | None => addNotification env now userId "attendance" attendance_message
  | Some _ => ret tt
  end.

(** The body of the second loop of [dailyNotificationTasks]. *)
Definition remind_low_attendance (env : Env) (now : Instant) (userId : Z)
    : Async unit :=
  count <- pool_query env (SELECT_COUNT_attendance now userId) ;;
  if count <? 2 then notify_attendance_once env now userId else ret tt.

(** [dailyNotificationTasks()] *)
Definition dailyNotificationTasks `{JsRuntime} (env : Env) (now : Instant)
    : Async unit :=
  (fun w => (Normal tt, count_daily_entry w)) ;;
  expiring <- pool_query env (SELECT_expiring now) ;;
  for_of expiring (notify_renewal_once env now) ;;
  members <- pool_query env SELECT_members ;;
  for_of members (remind_low_attendance env now) ;;
  console_log "Daily notifications complete" ;;
  (fun w => (Normal tt, count_daily_completion w)).

(** [lastDailyRunKey !== key] *)
Definition key_differs (last : option string) (key : string) : bool :=
  match last with
  | None => true
  | Some k => negb (String.eqb k key)
  end.

(** The condition of the [if] in [runHourlyTasks]: the daily run gate. *)
Definition shouldRunDaily (env : Env) (now : Instant) (last : option string) : bool :=
  (DAILY_RUN_HOUR env <=? getHours now) && key_differs last (todayKey now).

(** [runHourlyTasks()] *)
Definition runHourlyTasks `{JsRuntime} (env : Env) (now : Instant) : Async unit :=
  try_catch
    (activateExpireTasks env now ;;
     fun w =>
       if shouldRunDaily env now (lastDailyRunKey w)
       then (dailyNotificationTasks env now ;;
             fun w1 => (Normal tt, with_lastDailyRunKey (Some (todayKey now)) w1)) w
       else (Normal tt, w))
    (fun e => console_log "Hourly tasks error").

(** The handler of [GET /admin/run-daily], past the admin guard. *)
Definition get_admin_run_daily `{JsRuntime} (env : Env) (now : Instant) : Async string :=
  activateExpireTasks env now ;;
  dailyNotificationTasks env now ;;
  (fun w => (Normal tt, with_lastDailyRunKey (Some (todayKey now)) w)) ;;
  ret "/notifications".

Inductive Response :=
| res_redirect (location : string)
| res_status_send (code : Z) (body : string).

(** Destructuring [req.body], which happens before the [try] of the
    handler: a request whose body no parser filled has [req.body]
    undefined, and reading a field of it throws a TypeError. *)
Definition destructure {A B} (body : option A) (handler : A -> Async B) : Async B :=
  match body with
  | None => fun w => (Throw TypeError, w)
  | Some fields => handler fields
  end.

(** The handler of [POST /subscribe], past the login guard. [req_body] is
    [req.body]: [None] when it is undefined, else the [plan_id] field as
    the store reads it in [WHERE id=?]; a field that the driver sends as
    NULL, such as an absent one, selects no plan, as a number that is the
    id of no plan does. *)
Definition post_subscribe (env : Env) (now : Instant) (userId : Z)
    (req_body : option Z) : Async Response :=
  destructure req_body (fun plan_id =>
  try_catch
    (plan <- pool_query env (SELECT_plan plan_id) ;;
     match plan with
     | None => ret (res_status_send 400 "Plan not found")
     | Some plan =>
         current <- pool_query env (SELECT_current_active now userId) ;;
         match current with
         | Some cur =>
             pool_update env
               (INSERT_membership userId (p_id plan)
                  (DATE_ADD (m_end_date cur) 1)
                  (DATE_ADD (DATE_ADD (m_end_date cur) 1) (p_duration_days plan - 1))
                  pending)
         | None =>
             pool_update env
               (INSERT_membership userId (p_id plan)
                  (CURDATE now)
                  (DATE_ADD (CURDATE now) (p_duration_days plan - 1))
                  active)
         end ;;
         ret (res_redirect "/dashboard")
     end)
    (fun e => console_log "Server error" ;; ret (res_status_send 500 "Server error"))).

(** The fields of the health form; an absent field is [JsUndefined]. A
    date, when the form holds one, is a date the store accepts, given as
    its day number. The handler reads a measurement field through its
    truthiness and [Number] only, so a field the parser made an array or
    an object of, which is truthy, is covered by a non-empty string that
    converts to the same number. *)
Record HealthForm := mkHealthForm {
  f_entry_date : option Z;
  f_weight_kg : JsValue;
  f_height_cm : JsValue;
  f_heart_rate_bpm : JsValue;
  f_calories_intake : JsValue
}.

(** [v ? Number(v) : null] *)
Definition number_or_null `{JsRuntime} (v : JsValue) : JsValue :=
  if ToBoolean v then JsNum (Number v) else JsNull.

(** The handler of [POST /health], past the login guard. [req_body] is
    [req.body], [None] when it is undefined: the fields are destructured
    and converted before the [try]. A submission without a date takes the
    local calendar day of [new Date()], which is [CURDATE()] when the
    process and the store share a time zone. *)
Definition post_health `{JsRuntime} `{SqlServer} (env : Env) (now : Instant)
    (userId : Z) (req_body : option HealthForm) : Async Response :=
  destructure req_body (fun form =>
  let entry_date :=
    match f_entry_date form with
    | Some d => d
    | None => CURDATE now
    end in
  let weight_kg := number_or_null (f_weight_kg form) in
  let height_cm := number_or_null (f_height_cm form) in
  let heart_rate_bpm := number_or_null (f_heart_rate_bpm form) in
  let calories_intake := number_or_null (f_calories_intake form) in
  try_catch
    (height_cm <-
       (if negb (ToBoolean height_cm)
        then
          last <- pool_query env (SELECT_last_height userId) ;;
          ret (match last with
               | Some h => js_or h JsNull
               | None => JsNull
               end)
        else ret height_cm) ;;
     let bmi := calcBMI height_cm weight_kg in
     pool_insert env
       (UPSERT_health_metric
          (mkHealthMetric userId entry_date weight_kg height_cm bmi
                          heart_rate_bpm calories_intake)) ;;
     ret (res_redirect "/health"))
    (fun e => console_log "Server error" ;; ret (res_status_send 500 "Server error"))).

(** The members the second loop of [dailyNotificationTasks] goes on to
    remind: the rows of the member query whose count is below 2. *)
Definition findDueAttendanceReminders (now : Instant) (d : DB) : list Z :=
  filter (fun userId => SELECT_COUNT_attendance now userId d <? 2) (SELECT_members d).

(** The rows the first loop of [dailyNotificationTasks] iterates over. *)
Definition findDueRenewalReminders (now : Instant) (d : DB) : list ExpiringRow :=
  SELECT_expiring now d.

(** The hourly cron: one [runHourlyTasks] per tick, in order, nothing
    else touching the process in between. *)
Fixpoint run_ticks `{JsRuntime} (env : Env) (ticks : list Instant) (w : World) : World :=
  match ticks with
  | [] => w
  | now :: rest => run_ticks env rest (snd (runHourlyTasks env now w))
  end.

(** ** What drives the scheduler *)

(** The hourly cron tick, or an administrator
    opening [/admin/run-daily]. *)
Inductive SchedulerEvent :=
| hourly_tick (now : Instant)
| manual_run (now : Instant).


Definition run_event `{JsRuntime} (env : Env) (e : SchedulerEvent) (w : World) : World :=
  match e with
  | hourly_tick now => snd (runHourlyTasks env now w)
  | manual_run now => snd (get_admin_run_daily env now w)
  end.

Fixpoint run_events `{JsRuntime} (env : Env) (events : list SchedulerEvent) (w : World)
    : World :=
  match events with
  | [] => w
  | e :: rest => run_events env rest (run_event env e w)
  end.

(** ** Reading notifications *)

Definition set_is_read (n : Notification) : Notification :=
  mkNotification (n_id n) (n_user_id n) (n_type n) (n_message n) true (n_created_at n).

(** [user_id=? AND is_read=0] *)
Definition unread_of (userId : Z) (n : Notification) : bool :=
  (n_user_id n =? userId) && negb (n_is_read n).

(** [SELECT COUNT( * ) AS cnt FROM notifications WHERE user_id=? AND is_read=0] *)
Definition SELECT_COUNT_unread (userId : Z) (d : DB) : Z :=
  Z.of_nat (List.length (filter (unread_of userId) (notifications d))).

(** [UPDATE notifications SET is_read=1 WHERE user_id=? AND is_read=0] *)
Definition UPDATE_notifications_SET_is_read (userId : Z) (d : DB) : DB :=
  with_notifications
    (map (fun n => if unread_of userId n then set_is_read n else n) (notifications d)) d.

(** The middleware that sets [res.locals.unreadCount], as the value it
    sets; [session_user] is the id in [req.session.user], if any. *)
Definition unreadCount_middleware (env : Env) (session_user : option Z) : Async Z :=
  match session_user with
  | None => ret 0
  | Some userId =>
      try_catch
        (cnt <- pool_query env (SELECT_COUNT_unread userId) ;;
         ret (if cnt =? 0 then 0 else cnt))
        (fun e => ret 0)
  end.

(** The handler of [POST /notifications/mark-all-read], past the login
    guard. *)
Definition post_notifications_mark_all_read (env : Env) (userId : Z) : Async Response :=
  try_catch
    (pool_update env (UPDATE_notifications_SET_is_read userId) ;;
     ret (res_redirect "/notifications"))
    (fun e => console_log "Server error" ;; ret (res_status_send 500 "Server error")).

(** ** Deactivating and reactivating users *)

Definition with_users (us : list User) (d : DB) : DB :=
  mkDB us (membership_plans d) (memberships d) (attendance d) (notifications d)
       (health_metrics d).

Definition set_is_active (v : Z) (u : User) : User :=
  mkUser (u_id u) (u_name u) (u_email u) (u_role u) v.

(** [Number.isInteger(x)]: a finite number without a fractional part. *)
Definition Number_isInteger (x : float) : bool :=
  match Prim2SF x with
  | S754_zero _ => true
  | S754_finite _ m e => (0 <=? e) || (Z.pos m mod 2 ^ (- e) =? 0)
  | S754_infinity _ | S754_nan => false
  end.

(** The integer an integral number denotes. *)
Definition integer_value (x : float) : Z :=
  match Prim2SF x with
  | S754_finite s m e =>
      let v := if 0 <=? e then Z.pos m * 2 ^ e else Z.pos m / 2 ^ (- e) in
      if s then - v else v
  | _ => 0
  end.

(** [SELECT id, role, is_active FROM users WHERE id=?], first row. *)
Definition SELECT_user (id : Z) (d : DB) : option User :=
  find (fun u => u_id u =? id) (users d).

(** [UPDATE users SET is_active=v WHERE id=?] *)
Definition UPDATE_users_SET_is_active (v id : Z) (d : DB) : DB :=
  with_users (map (fun u => if u_id u =? id then set_is_active v u else u) (users d)) d.

(** The handler of [POST /admin/users/:id/deactivate], past the admin
    guard; [me] is the id in [req.session.user]. *)
Definition post_admin_users_deactivate `{JsRuntime} (env : Env) (me : Z)
    (id_param : string) : Async Response :=
  let id := StringToNumber id_param in
  if negb (Number_isInteger id) then ret (res_status_send 400 "Invalid id")
  else if integer_value id =? me
  then ret (res_redirect "/admin/users?msg=Cannot+deactivate+yourself")
  else
    try_catch
      (target <- pool_query env (SELECT_user (integer_value id)) ;;
       match target with
       | None => ret (res_redirect "/admin/users?msg=User+not+found")
       | Some target =>
           if negb (Role_eqb (u_role target) member)
           then ret (res_redirect "/admin/users?msg=Cannot+deactivate+admins")
           else if u_is_active target =? 0
           then ret (res_redirect "/admin/users?msg=Already+inactive")
           else
             pool_update env (UPDATE_users_SET_is_active 0 (integer_value id)) ;;
             ret (res_redirect "/admin/users?msg=User+deactivated")
       end)
      (fun e => console_log "Action failed" ;;
                ret (res_redirect "/admin/users?msg=Action+failed")).

(** The handler of [POST /admin/users/:id/reactivate], past the admin
    guard. *)
Definition post_admin_users_reactivate `{JsRuntime} (env : Env)
    (id_param : string) : Async Response :=
  let id := StringToNumber id_param in
  if negb (Number_isInteger id) then ret (res_status_send 400 "Invalid id")
  else
    try_catch
      (target <- pool_query env (SELECT_user (integer_value id)) ;;
       match target with
       | None => ret (res_redirect "/admin/users?msg=User+not+found")
       | Some target =>
           if negb (Role_eqb (u_role target) member)
           then ret (res_redirect "/admin/users?msg=Cannot+modify+admins")
           else if u_is_active target =? 1
           then ret (res_redirect "/admin/users?msg=Already+active")
           else
             pool_update env (UPDATE_users_SET_is_active 1 (integer_value id)) ;;
             ret (res_redirect "/admin/users?msg=User+reactivated")
       end)
      (fun e => console_log "Action failed" ;;
                ret (res_redirect "/admin/users?msg=Action+failed")).

(** How a middleware ends: it hands the request on, or it destroys the
    session and redirects. *)
Inductive Passage :=
| next
| session_destroy_redirect (location : string).

(** The middleware that turns away deactivated users. *)
Definition active_check (env : Env) (session_user : option Z) : Async Passage :=
  match session_user with
  | None => ret next
  | Some userId =>
      try_catch
        (u <- pool_query env (SELECT_user userId) ;;
         match u with
         | None =>
             ret (session_destroy_redirect "/login?error=Your+account+is+deactivated")
         | Some u =>
             if u_is_active u =? 0
             then ret (session_destroy_redirect "/login?error=Your+account+is+deactivated")
             else ret next
         end)
        (fun e => console_log "Active-check failed" ;; ret next)
  end.

(** ** Checking in and out *)

Definition with_attendance (rows : list Attendance) (d : DB) : DB :=
  mkDB (users d) (membership_plans d) (memberships d) rows (notifications d)
       (health_metrics d).

(** The attendance rows with their primary keys. The rows of the model
    carry no [id] column: a row is identified by its position in the
    table, which the program never changes, as it only appends attendance
    rows and updates them in place. *)
Definition attendance_by_id (d : DB) : list (nat * Attendance) :=
  combine (seq 0 (List.length (attendance d))) (attendance d).

(** [check_out IS NULL] *)
Definition is_open (a : Attendance) : bool :=
  match a_check_out a with
  | None => true
  | Some _ => false
  end.

(** [SELECT * FROM attendance WHERE user_id=? AND check_out IS NULL
     ORDER BY check_in DESC LIMIT 1], first row. *)
Definition SELECT_open_entry (userId : Z) (d : DB) : option (nat * Attendance) :=
  ORDER_BY_DESC_LIMIT_1 (fun r => a_check_in (snd r))
    (filter (fun r => (a_user_id (snd r) =? userId) && is_open (snd r))
            (attendance_by_id d)).

(** [INSERT INTO attendance (user_id, check_in, method) VALUES (?, NOW(), 'manual')] *)
Definition INSERT_attendance (now : Instant) (userId : Z) (d : DB) : DB :=
  with_attendance (attendance d ++ [mkAttendance userId (NOW now) None]) d.

Definition set_check_out (t : Z) (a : Attendance) : Attendance :=
  mkAttendance (a_user_id a) (a_check_in a) (Some t).

(** [UPDATE attendance SET check_out=NOW() WHERE id=?] *)
Definition UPDATE_attendance_SET_check_out (now : Instant) (id : nat) (d : DB) : DB :=
  with_attendance
    (map (fun r => if Nat.eqb (fst r) id then set_check_out (NOW now) (snd r) else snd r)
         (attendance_by_id d)) d.

(** The handler of [POST /attendance/checkin], past the login guard. *)
Definition post_attendance_checkin (env : Env) (now : Instant) (userId : Z)
    : Async Response :=
  try_catch
    (open <- pool_query env (SELECT_open_entry userId) ;;
     match open with
     | Some _ => ret (res_redirect "/attendance")
     | None =>
         pool_update env (INSERT_attendance now userId) ;;
         ret (res_redirect "/attendance")
     end)
    (fun e => console_log "Server error" ;; ret (res_status_send 500 "Server error")).

(** The handler of [POST /attendance/checkout], past the login guard. *)
Definition post_attendance_checkout (env : Env) (now : Instant) (userId : Z)
    : Async Response :=
  try_catch
    (open <- pool_query env (SELECT_open_entry userId) ;;
     match open with
     | None => ret (res_redirect "/attendance")
     | Some entry =>
         pool_update env (UPDATE_attendance_SET_check_out now (fst entry)) ;;
         ret (res_redirect "/attendance")
     end)
    (fun e => console_log "Server error" ;; ret (res_status_send 500 "Server error")).

(** The two requests of the attendance page, handled one after another. *)
Inductive AttendanceRequest :=
| checkin (userId : Z) (now : Instant)
| checkout (userId : Z) (now : Instant).

Definition run_request (env : Env) (req : AttendanceRequest) (w : World) : World :=
  match req with
  | checkin userId now => snd (post_attendance_checkin env now userId w)
  | checkout userId now => snd (post_attendance_checkout env now userId w)
  end.

Fixpoint run_requests (env : Env) (reqs : list AttendanceRequest) (w : World) : World :=
  match reqs with
  | [] => w
  | req :: rest => run_requests env rest (run_request env req w)
  end.

(** ** The attendance export *)

(** The double quote, the carriage return and the line feed. *)
Definition dquote : ascii := ascii_of_nat 34.
Definition CR : ascii := ascii_of_nat 13.
Definition LF : ascii := ascii_of_nat 10.
Definition CRLF : string := String CR (String LF EmptyString).

(** The [replace] of the export: every double quote becomes two. *)
Fixpoint replace_dquotes (s : string) : string :=
  match s with
  | EmptyString => EmptyString
  | String c rest =>
      if Ascii.eqb c dquote
      then String dquote (String dquote (replace_dquotes rest))
      else String c (replace_dquotes rest)
  end.

(** [q(s)] of the export, on the string [String(s)]; [None] is a null or
    undefined field, which prints as the empty string. *)
Definition q (s : option string) : string :=
  String dquote
    (String.append
       (replace_dquotes (match s with Some x => x | None => EmptyString end))
       (String dquote EmptyString)).

(** A row of the export query. *)
Record ExportRow := mkExportRow {
  x_member : string;
  x_check_in : Z;
  x_check_out : option Z;
  x_method : string
}.

(** The line the export writes for a row. *)
Definition export_line `{JsRuntime} (r : ExportRow) : string :=
  String.concat ","
    [q (Some (x_member r)); q (Some (DateToString (x_check_in r)));
     q (option_map DateToString (x_check_out r)); q (Some (x_method r))].

(** The body [GET /admin/export/attendance.csv] sends for the rows of
    its query. *)
Definition attendance_csv `{JsRuntime} (rows : list ExportRow) : string :=
  String.append (String.append "Member,Check In,Check Out,Method" CRLF)
    (String.append (String.concat CRLF (map export_line rows)) CRLF).

(** ** The script tag added to rendered pages *)

(** [hay.includes(needle)] *)
Fixpoint includes (hay needle : string) : bool :=
  String.prefix needle hay
  || match hay with
     | EmptyString => false
     | String _ rest => includes rest needle
     end.

Fixpoint drop (n : nat) (s : string) : string :=
  match n, s with
  | O, _ => s
  | S n', String _ rest => drop n' rest
  | S _, EmptyString => EmptyString
  end.

(** [hay.replace(pattern, replacement)] for a string pattern and a
    replacement that holds no dollar sign: the first occurrence is
    replaced. *)
Fixpoint replace_first (pattern replacement hay : string) : string :=
  if String.prefix pattern hay
  then String.append replacement (drop (String.length pattern) hay)
  else match hay with
       | EmptyString => EmptyString
       | String c rest => String c (replace_first pattern replacement rest)
       end.

(** The tag: a script element whose source is [/public/js/main.js],
    deferred. *)
Definition script_tag : string :=
  String.append "<script src="
    (String dquote (String.append "/public/js/main.js" (String dquote " defer></script>"))).

Definition newline : string := String LF EmptyString.

(** What the wrapper of [res.render] does to the rendered page. *)
Definition inject_main_js (html : string) : string :=
  if negb (includes html "/public/js/main.js")
  then
    if includes html "</body>"
    then replace_first "</body>"
           (String.append script_tag (String.append newline "</body>")) html
    else String.append html (String.append newline (String.append script_tag newline))
  else html.

(** * Vocabulary of the statements *)

(** The store answers every call of the run. *)
Definition store_available (env : Env) : Prop :=
  forall n, store_rejects env n = false.

(** The two statements of [activateExpireTasks] on the membership table. *)
Definition sweep (now : Instant) (d : DB) : DB :=
  UPDATE_memberships_SET_status expired (active_and_ended now)
    (UPDATE_memberships_SET_status active (pending_and_started now) d).

(** The status a membership has after a sweep on day [today]. *)
Definition status_after_sweep (today : Z) (m : Membership) : Status :=
  match m_status m with
  | pending =>
      if m_start_date m <=? today
      then (if m_end_date m <? today then expired else active)
      else pending
  | active => if m_end_date m <? today then expired else active
  | expired => expired
  end.

(** How one membership row changes over a sweep on day [today]. *)
Definition swept (today : Z) (m m' : Membership) : Prop :=
  m' = set_status (m_status m') m /\
  (m_status m = pending -> m_start_date m <= today -> today <= m_end_date m ->
   m_status m' = active) /\
  (m_status m = pending -> m_start_date m <= today -> m_end_date m < today ->
   m_status m' = expired) /\
  (m_status m = active -> m_end_date m < today -> m_status m' = expired) /\
  (~ (m_status m = pending /\ m_start_date m <= today) ->
   ~ (m_status m = active /\ m_end_date m < today) ->
   m_status m' = m_status m).

(** The attendance entries of a user dated on day [since] or later. *)
Definition entries_since (since userId : Z) (d : DB) : list Attendance :=
  filter (fun a => (a_user_id a =? userId) && (since <=? DATE (a_check_in a)))
         (attendance d).

Definition active_member (d : DB) (userId : Z) : Prop :=
  exists u, In u (users d) /\ u_id u = userId /\
            u_role u = member /\ u_is_active u = 1.

(** The selection as C5 words it: entries count from the day after
    today-7 up to today. *)
Definition claimed_due_attendance (now : Instant) (d : DB) : list Z :=
  filter (fun userId =>
            Z.of_nat (List.length
              (filter (fun a => (a_user_id a =? userId)
                                && (CURDATE now - 7 <? DATE (a_check_in a))
                                && (DATE (a_check_in a) <=? CURDATE now))
                      (attendance d))) <? 2)
         (SELECT_members d).

(** A membership is due for a renewal reminder on day [today]. *)
Definition due_for_renewal (today : Z) (m : Membership) : Prop :=
  m_status m = active /\
  (m_end_date m - today = 3 \/ m_end_date m - today = 1 \/ m_end_date m - today = 0).

(** The keys the schema declares on the three tables of the join: the
    primary keys of users and plans, and the two foreign keys of
    memberships. *)
Definition join_keys (d : DB) : Prop :=
  NoDup (map u_id (users d)) /\
  NoDup (map p_id (membership_plans d)) /\
  forall m, In m (memberships d) ->
    (exists u, In u (users d) /\ u_id u = m_user_id m) /\
    (exists p, In p (membership_plans d) /\ p_id p = m_plan_id m).

(** The membership is active, 3, 1 or 0 days from its end, and owned by
    a user that is not deactivated. *)
Definition renewal_due (now : Instant) (d : DB) (m : Membership) : bool :=
  Status_eqb (m_status m) active
  && IN_3_1_0 (DATEDIFF (m_end_date m) (CURDATE now))
  && existsb (fun u => (u_id u =? m_user_id m) && (u_is_active u =? 1)) (users d).

(** A membership of the user that is active and reaches today or later. *)
Definition current_active (now : Instant) (userId : Z) (d : DB) (m : Membership) : Prop :=
  In m (memberships d) /\ m_user_id m = userId /\ m_status m = active /\
  CURDATE now <= m_end_date m.

(** [m] relates the world it leaves to the world it started from by [R]. *)
Definition preserves (R : World -> World -> Prop) {A} (m : Async A) : Prop :=
  forall w, R w (snd (m w)).

(** The store is untouched. *)
Definition same_db (w w' : World) : Prop := db w' = db w.

(** The scheduler's state and the instrumentation are untouched. *)
Definition same_schedule (w w' : World) : Prop :=
  lastDailyRunKey w' = lastDailyRunKey w /\
  daily_entered w' = daily_entered w /\
  daily_completed w' = daily_completed w.

Definition keeps_db {A} (m : Async A) : Prop := preserves same_db m.
Definition keeps_schedule {A} (m : Async A) : Prop := preserves same_schedule m.

(** The renewal notifications of a user created on day [day]. *)
Definition renewal_rows_on (day userId : Z) (d : DB) : list Notification :=
  filter (fun n => (n_user_id n =? userId) && String.eqb (n_type n) "renewal"
                   && (DATE (n_created_at n) =? day))
         (notifications d).

(** The attendance notifications of a user created at [since] or later. *)
Definition attendance_rows_since (since userId : Z) (d : DB) : list Notification :=
  filter (fun n => (n_user_id n =? userId) && String.eqb (n_type n) "attendance"
                   && (since <=? n_created_at n))
         (notifications d).

Definition seven_days : Z := 7 * seconds_per_day.

(** What the two dedupe-then-insert steps do to the store when every
    store call is answered. *)
Definition notify_renewal_db `{JsRuntime} (now : Instant) (row : ExpiringRow) (d : DB) : DB :=
  match SELECT_renewal_today now (er_user_id row) d with
  | None => INSERT_notification now (er_user_id row) "renewal" (renewal_message row) d
  | Some _ => d
  end.

Definition notify_attendance_db (now : Instant) (userId : Z) (d : DB) : DB :=
  match SELECT_attendance_recent now userId d with
  | None => INSERT_notification now userId "attendance" attendance_message d
  | Some _ => d
  end.

(** The attendance notification inserted at [now] into a table [ns]. *)
Definition attendance_row (ns : list Notification) (userId : Z) (now : Instant)
    : Notification :=
  mkNotification (next_id (map n_id ns)) userId "attendance" attendance_message
                 false (NOW now).

(** No calendar day holds two renewal notifications of the user. *)
Definition renewal_deduped (userId : Z) (d : DB) : Prop :=
  forall day, (List.length (renewal_rows_on day userId d) <= 1)%nat.

(** The attendance notifications of a user created from [from] to [to]. *)
Definition attendance_rows_in (from to userId : Z) (d : DB) : list Notification :=
  filter (fun n => (n_user_id n =? userId) && String.eqb (n_type n) "attendance"
                   && ((from <=? n_created_at n) && (n_created_at n <=? to)))
         (notifications d).

(** No attendance notification of the user is dated after [upto], and no
    span of seven days holds two of them. *)
Definition attendance_deduped (userId upto : Z) (d : DB) : Prop :=
  (forall n, In n (attendance_rows_since upto userId d) -> n_created_at n = upto) /\
  (forall s, (List.length (attendance_rows_in (s - seven_days) s userId d) <= 1)%nat).

(** A computation that counts one completion exactly when it completes
    normally, and otherwise leaves the scheduler's state alone. *)
Definition completes_once (m : Async unit) : Prop :=
  forall w,
    match m w with
    | (Normal _, w') =>
        lastDailyRunKey w' = lastDailyRunKey w /\
        daily_entered w' = daily_entered w /\
        daily_completed w' = S (daily_completed w)
    | (Throw _, w') => same_schedule w w'
    end.

(** The calendar day of an instant, as [todayKey] reads it. *)
Definition same_day (a b : Instant) : Prop :=
  getFullYear a = getFullYear b /\ getMonth a = getMonth b /\ getDate a = getDate b.

(** A computation that never throws. *)
Definition returns {A} (m : Async A) : Prop := forall w, exists a, fst (m w) = Normal a.

(** The formula as the specification words it: the weight in kilograms
    divided by the square of the height in metres, then rounded to two
    decimals. The quotient is the one of binary64 arithmetic, the only
    numbers a JavaScript program has. *)
Definition height_in_metres (height_cm : float) : float := (height_cm / hundred)%float.

Definition bmi_quotient (weight_kg height_cm : float) : float :=
  (weight_kg / (height_in_metres height_cm * height_in_metres height_cm))%float.

(** [n] hundredths as a number: the binary64 value nearest to [n / 100]. *)
Definition hundredths (n : Z) : float :=
  if n =? 0 then zero else nearest_double n 100.

(** [n / 100] is a decimal of two fractional digits nearest to the
    magnitude [m * 2^e]: the two are at most half a hundredth apart,
    [|200 * m * 2^e - 2 * n| <= 1] with the power of two moved to the side
    where its exponent is positive. On a tie both neighbours qualify. *)
Definition nearest_hundredth (m : positive) (e : Z) (n : Z) : Prop :=
  0 <= n /\
  Z.abs (200 * Zpos m * 2 ^ Z.max e 0 - 2 * n * 2 ^ Z.max (- e) 0)
    <= 2 ^ Z.max (- e) 0.

(** [y] is [x] rounded to two decimals. A value that is an integer
    ([0 <= e]) may stay as it is; any finite value may become the number
    nearest to a nearest decimal of two fractional digits, with the sign
    of [x]; infinities stay, and zero of either sign becomes zero. *)
Definition rounded_to_2_decimals (x y : float) : Prop :=
  match Prim2SF x with
  | S754_nan => y = nan
  | S754_infinity _ => y = x
  | S754_zero _ => y = zero
  | S754_finite s m e =>
      (0 <= e /\ y = x) \/
      exists n, nearest_hundredth m e n /\
                y = if s then (- hundredths n)%float else hundredths n
  end.

(** The rational a finite number stands for, as a numerator and a
    positive denominator. *)
Definition exact_value (x : float) : option (Z * Z) :=
  match Prim2SF x with
  | S754_zero _ => Some (0, 1)
  | S754_finite s m e =>
      Some ((if s then - Zpos m else Zpos m) * 2 ^ Z.max e 0, 2 ^ Z.max (- e) 0)
  | S754_infinity _ | S754_nan => None
  end.

(** The same formula in exact arithmetic, for a weight of [wn / wd]
    kilograms and a height of [hn / hd] centimetres, both positive: the
    number of hundredths nearest to [(wn / wd) / (hn / hd / 100)^2], the
    larger one on a tie. *)
Definition nearest_hundredths_of_quotient (wn wd hn hd : Z) : Z :=
  (2 * (wn * 10 ^ 6 * (hd * hd)) + wd * (hn * hn)) / (2 * (wd * (hn * hn))).

(** The BMI of the specification, in hundredths, at the rationals that a
    positive weight and a positive height stand for. *)
Definition bmi_as_specified (weight_kg height_cm : float) : option Z :=
  match exact_value weight_kg, exact_value height_cm with
  | Some (wn, wd), Some (hn, hd) =>
      if (0 <? wn) && (0 <? hn)
      then Some (nearest_hundredths_of_quotient wn wd hn hd)
      else None
  | _, _ => None
  end.

(** An input is present when it is truthy: not null, undefined, the empty
    string, zero or NaN. A height moreover has to be a non-zero number of
    metres. *)
Definition weight_present (weight_kg : JsValue) : bool := ToBoolean weight_kg.

Definition height_present `{JsRuntime} (height_cm : JsValue) : bool :=
  ToBoolean height_cm && ToBoolean (JsNum (height_in_metres (Number height_cm))).

(** A stored row of the user that carries a height. *)
Definition known_height (userId : Z) (d : DB) (r : HealthMetric) : Prop :=
  In r (health_metrics d) /\ h_user_id r = userId /\ is_not_null (h_height_cm r) = true.

(** The height of the user's most recent entry that carries one. *)
Definition most_recent_known_height (userId : Z) (d : DB) (v : JsValue) : Prop :=
  exists r, known_height userId d r /\ h_height_cm r = v /\
            forall r', known_height userId d r' -> h_entry_date r' <= h_entry_date r.

(** The height [POST /health] computes with: the submitted one when it is
    truthy, else the most recent known one, else null. *)
Definition height_used `{JsRuntime} (userId : Z) (form : HealthForm) (d : DB)
    (height : JsValue) : Prop :=
  let submitted := number_or_null (f_height_cm form) in
  (ToBoolean submitted = true /\ height = submitted) \/
  (ToBoolean submitted = false /\
   ((exists v, most_recent_known_height userId d v /\ height = js_or v JsNull) \/
    ((forall r, ~ known_height userId d r) /\ height = JsNull))).

(** The BMI [POST /health] hands to the store for a weight and a height:
    the rounded quotient when both are present, null otherwise. *)
Definition bmi_passed `{JsRuntime} (weight_kg height_cm bmi : JsValue) : Prop :=
  if weight_present weight_kg && height_present height_cm
  then exists y, bmi = JsNum y /\
                 rounded_to_2_decimals
                   (bmi_quotient (Number weight_kg) (Number height_cm)) y
  else bmi = JsNull.

(** The parameters of the INSERT of [POST /health] for a form, once the
    height and the BMI are settled. *)
Definition health_params `{JsRuntime} (now : Instant) (userId : Z) (form : HealthForm)
    (height_cm bmi : JsValue) : HealthMetric :=
  mkHealthMetric userId
    (match f_entry_date form with Some d => d | None => CURDATE now end)
    (number_or_null (f_weight_kg form)) height_cm bmi
    (number_or_null (f_heart_rate_bpm form))
    (number_or_null (f_calories_intake form)).

(** The store after a daily job whose store calls are all answered: the
    renewal step for each row of the renewal query, then the attendance
    step for each member selected for a reminder. *)
Definition daily_db `{JsRuntime} (now : Instant) (d : DB) : DB :=
  let d1 := fold_left (fun d row => notify_renewal_db now row d)
                      (findDueRenewalReminders now d) d in
  fold_left (fun d userId => notify_attendance_db now userId d)
            (findDueAttendanceReminders now d1) d1.

(** ** Vocabulary of the scheduler as a whole *)





(** A status moves forward only: pending, then active, then expired. *)
Definition status_advances (a b : Status) : Prop :=
  match a, b with
  | pending, _ => True
  | active, (active | expired) => True
  | expired, expired => True
  | _, _ => False
  end.

(** The same membership, its status moved forward or left alone. *)
Definition membership_advanced (m m' : Membership) : Prop :=
  m' = set_status (m_status m') m /\ status_advances (m_status m) (m_status m').

(** A notification the scheduler writes at [now]. *)
Definition scheduler_notification (now : Instant) (n : Notification) : Prop :=
  n_created_at n = NOW now /\ n_is_read n = false /\
  (n_type n = "renewal" \/ n_type n = "attendance").

(** All a run of the scheduler at [now] may do to the store. *)
Definition scheduler_footprint (now : Instant) (w w' : World) : Prop :=
  users (db w') = users (db w) /\
  membership_plans (db w') = membership_plans (db w) /\
  attendance (db w') = attendance (db w) /\
  health_metrics (db w') = health_metrics (db w) /\
  Forall2 membership_advanced (memberships (db w)) (memberships (db w')) /\
  exists added,
    notifications (db w') = notifications (db w) ++ added /\
    Forall (scheduler_notification now) added.

(** The tables the daily job reads are the same in both stores. *)
Definition same_tables (d d' : DB) : Prop :=
  users d' = users d /\ membership_plans d' = membership_plans d /\
  memberships d' = memberships d /\ attendance d' = attendance d.

(** The membership [POST /subscribe] writes for [plan]: queued behind the
    current active membership when there is one, active from today
    otherwise. *)
Definition subscribed (now : Instant) (userId : Z) (plan : Plan) (d : DB) : DB :=
  match SELECT_current_active now userId d with
  | Some cur =>
      INSERT_membership userId (p_id plan)
        (DATE_ADD (m_end_date cur) 1)
        (DATE_ADD (DATE_ADD (m_end_date cur) 1) (p_duration_days plan - 1))
        pending d
  | None =>
      INSERT_membership userId (p_id plan)
        (CURDATE now)
        (DATE_ADD (CURDATE now) (p_duration_days plan - 1))
        active d
  end.

(** The unique key [uq_user_entry] of the health table: no two rows of
    one user on one date. *)
Definition health_key (h : HealthMetric) : Z * Z := (h_user_id h, h_entry_date h).

Definition uq_user_entry (d : DB) : Prop := NoDup (map health_key (health_metrics d)).

(** The health rows of every other user and every other date, in table
    order. *)
Definition other_health_rows (userId date : Z) (d : DB) : list HealthMetric :=
  filter (fun h => negb ((userId =? h_user_id h) && (date =? h_entry_date h)))
         (health_metrics d).

(** Every table but the health table is the same in both stores. *)
Definition only_health_differs (d d' : DB) : Prop :=
  users d' = users d /\ membership_plans d' = membership_plans d /\
  memberships d' = memberships d /\ attendance d' = attendance d /\
  notifications d' = notifications d.

(** The mail [m] is the mail of one of the notifications [added]: it goes
    to the address of that notification's user and carries the subject
    of its type. *)
Definition mail_of_notification (us : list User) (added : list Notification)
    (m : Mail) : Prop :=
  exists n u,
    In n added /\ In u us /\ u_id u = n_user_id n /\
    mail_to m = u_email u /\ mail_subject m = notification_subject (n_type n).

(** Between two worlds, every mail the transport accepted is the mail of
    a notification stored in between; there are no more mails than
    notifications, and none when no transport is configured. *)
Definition mails_follow_notifications (env : Env) (w w' : World) : Prop :=
  users (db w') = users (db w) /\
  exists added sent,
    notifications (db w') = notifications (db w) ++ added /\
    outbox w' = outbox w ++ sent /\
    (List.length sent <= List.length added)%nat /\
    (transporter env = false -> sent = []) /\
    Forall (mail_of_notification (users (db w)) added) sent.

(** A notification as [POST /notifications/mark-all-read] by [userId]
    leaves it: marked read when it was an unread one of that user, and
    otherwise as it was. *)
Definition marked_read (userId : Z) (n n' : Notification) : Prop :=
  (n_user_id n = userId /\ n_is_read n = false /\ n' = set_is_read n) \/
  ((n_user_id n <> userId \/ n_is_read n = true) /\ n' = n).

(** Every table but the notification table is the same in both stores. *)
Definition only_notifications_differ (d d' : DB) : Prop :=
  users d' = users d /\ membership_plans d' = membership_plans d /\
  memberships d' = memberships d /\ attendance d' = attendance d /\
  health_metrics d' = health_metrics d.

(** The notifications of [userId] among [ns]. *)
Definition notifications_of (userId : Z) (ns : list Notification) : list Notification :=
  filter (fun n => n_user_id n =? userId) ns.

(** The primary key of the users table. *)
Definition users_primary_key (d : DB) : Prop := NoDup (map u_id (users d)).

(** Every table but the users table is the same in both stores. *)
Definition only_users_differ (d d' : DB) : Prop :=
  membership_plans d' = membership_plans d /\ memberships d' = memberships d /\
  attendance d' = attendance d /\ notifications d' = notifications d /\
  health_metrics d' = health_metrics d.

(** A user row as a deactivation requested by [me] may leave it: as it
    was, or switched off when it is a member's row, not the requester's,
    and was not switched off before. *)
Definition deactivated_row (me : Z) (u u' : User) : Prop :=
  u' = u \/
  (u' = set_is_active 0 u /\ u_role u = member /\ u_id u <> me /\ u_is_active u <> 0).

(** A user row as a reactivation may leave it. *)
Definition reactivated_row (u u' : User) : Prop :=
  u' = u \/
  (u' = set_is_active 1 u /\ u_role u = member /\ u_is_active u <> 1).

(** No row of the user is switched on. *)
Definition inactive (userId : Z) (d : DB) : Prop :=
  forall u, In u (users d) -> u_id u = userId -> u_is_active u <> 1.

(** Between two worlds the users are the same and [userId] has received
    no notification. *)
Definition quiet_for (userId : Z) (w w' : World) : Prop :=
  users (db w') = users (db w) /\
  notifications_of userId (notifications (db w'))
  = notifications_of userId (notifications (db w)).

(** From a store where [userId] is switched off, [m] sends [userId]
    nothing. *)
Definition keeps_quiet (userId : Z) {A} (m : Async A) : Prop :=
  forall w, inactive userId (db w) -> quiet_for userId w (snd (m w)).

(** The entries of [userId] that are not checked out. *)
Definition open_entries (userId : Z) (rows : list Attendance) : list Attendance :=
  filter (fun a => (a_user_id a =? userId) && is_open a) rows.

(** No user has two entries that are not checked out. *)
Definition one_open_entry (d : DB) : Prop :=
  forall userId, (List.length (open_entries userId (attendance d)) <= 1)%nat.

(** An attendance row as the attendance page may leave it: as it was,
    or, when it was open, checked out. *)
Definition visit_kept (a a' : Attendance) : Prop :=
  a' = a \/ (a_check_out a = None /\ exists t, a' = set_check_out t a).

(** The attendance rows from before are in their places, kept, and the
    table may have grown at its end. *)
Definition attendance_footprint (d d' : DB) : Prop :=
  users d' = users d /\ membership_plans d' = membership_plans d /\
  memberships d' = memberships d /\ notifications d' = notifications d /\
  health_metrics d' = health_metrics d /\
  exists kept added,
    attendance d' = kept ++ added /\ Forall2 visit_kept (attendance d) kept.

(** The month and the day of the month are in the ranges [getMonth()]
    and [getDate()] return. *)
Definition calendar_fields (a : Instant) : Prop :=
  0 <= getMonth a <= 11 /\ 1 <= getDate a <= 31.

(** A reader of quoted fields. [read_quoted] reads the content of a
    field whose opening quote is consumed, up to the closing quote, two
    quotes in a row standing for one; it returns the content and what
    follows the closing quote. *)
Fixpoint read_quoted (s : string) : option (string * string) :=
  match s with
  | EmptyString => None
  | String c rest =>
      if Ascii.eqb c dquote then
        match rest with
        | String c' rest' =>
            if Ascii.eqb c' dquote
            then match read_quoted rest' with
                 | Some (field, after) => Some (String dquote field, after)
                 | None => None
                 end
            else Some (EmptyString, rest)
        | EmptyString => Some (EmptyString, EmptyString)
        end
      else match read_quoted rest with
           | Some (field, after) => Some (String c field, after)
           | None => None
           end
  end.

(** [read_record n] reads [n] quoted fields separated by commas and
    returns them with what follows the last. *)
Fixpoint read_record (n : nat) (s : string) : option (list string * string) :=
  match n, s with
  | O, _ => Some ([], s)
  | S n', String c rest =>
      if Ascii.eqb c dquote then
        match read_quoted rest with
        | Some (field, after) =>
            match n', after with
            | O, _ => Some ([field], after)
            | S _, String c' after' =>
                if Ascii.eqb c' ","%char
                then match read_record n' after' with
                     | Some (fields, final) => Some (field :: fields, final)
                     | None => None
                     end
                else None
            | S _, EmptyString => None
            end
        | None => None
        end
      else None
  | S _, EmptyString => None
  end.

(** [read_rows n] reads [n] records of four fields, each ended by a
    carriage return and a line feed, and nothing after them. *)
Fixpoint read_rows (n : nat) (s : string) : option (list (list string)) :=
  match n with
  | O => if String.eqb s EmptyString then Some [] else None
  | S n' =>
      match read_record 4 s with
      | Some (fields, String c (String c' rest)) =>
          if Ascii.eqb c CR && Ascii.eqb c' LF
          then match read_rows n' rest with
               | Some rows => Some (fields :: rows)
               | None => None
               end
          else None
      | _ => None
      end
  end.

(** The four fields of a row as the export prints them. *)
Definition export_fields `{JsRuntime} (r : ExportRow) : list string :=
  [x_member r; DateToString (x_check_in r);
   match x_check_out r with Some t => DateToString t | None => EmptyString end;
   x_method r].

(** The string does not begin with a double quote. *)
Definition no_leading_quote (s : string) : Prop :=
  match s with
  | EmptyString => True
  | String c _ => Ascii.eqb c dquote = false
  end.

(** What a field of the export prints as. *)
Definition field_text (s : option string) : string :=
  match s with Some x => x | None => EmptyString end.

(** A month or a day of the month as the key prints it. *)
Definition two_digits (n : nat) : string := padStart 2 "0" (String_of_Z (Z.of_nat n)).

(** * Sample deployments and stores *)

(** A deployment whose store and transport never reject; mail is off. *)
Definition env_up : Env := mkEnv 9 false "3000" (fun _ => false) (fun _ => false).

(** The clock at [hour] o'clock on the [day]-th day of January 2025,
    days and seconds counted from the start of that month. *)
Definition clock (day hour : Z) : Instant :=
  mkInstant 2025 0 (day + 1) hour (day * seconds_per_day + hour * 3600).

Definition empty_db : DB := mkDB [] [] [] [] [] [].

(** The process right after start-up, on store [d]. *)
Definition boot (d : DB) : World := mkWorld d None [] [] 0 0 0 0.

(** The integer a string of decimal digits spells. *)
Fixpoint digits_value (s : string) (acc : Z) : option Z :=
  match s with
  | EmptyString => Some acc
  | String c rest =>
      let n := Z.of_nat (nat_of_ascii c) - 48 in
      if (0 <=? n) && (n <=? 9) then digits_value rest (10 * acc + n) else None
  end.

(** Digits, a point and at least one more digit: the numerator and the
    power of ten under it. *)
Fixpoint fraction_value (s : string) (num den : Z) : option (Z * Z) :=
  match s with
  | EmptyString => Some (num, den)
  | String c rest =>
      let n := Z.of_nat (nat_of_ascii c) - 48 in
      if (0 <=? n) && (n <=? 9) then fraction_value rest (10 * num + n) (10 * den)
      else None
  end.

Fixpoint decimal_value (s : string) (acc : Z) : option (Z * Z) :=
  match s with
  | EmptyString => None
  | String c rest =>
      if Ascii.eqb c "."%char
      then match rest with
           | EmptyString => None
           | String _ _ => fraction_value rest acc 1
           end
      else
        let n := Z.of_nat (nat_of_ascii c) - 48 in
        if (0 <=? n) && (n <=? 9) then decimal_value rest (10 * acc + n) else None
  end.

(** A stand-in for the runtime's conversions: strings of decimal digits
    read as the integer they spell, digits with a decimal point as the
    number nearest to the decimal they spell, any other string as NaN;
    dates print as their day number. *)
Definition sample_runtime : JsRuntime :=
  {| StringToNumber := fun s =>
       match digits_value s 0 with
       | Some n => SF2Prim (binary_normalize prec emax n 0 false)
       | None =>
           match decimal_value s 0 with
           | Some (num, den) => if num =? 0 then zero else nearest_double num den
           | None => nan
           end
       end;
     DateToString := String_of_Z |}.

(** [n] hundredths as a [decimal(5,2)] column prints them. *)
Definition DECIMAL_as_string (negative : bool) (n : Z) : string :=
  let sign := if negative && (0 <? n) then "-" else "" in
  let units := String_of_Z (n / 100) in
  let tenths := String_of_Z (n mod 100 / 10) in
  let hundredths := String_of_Z (n mod 10) in
  String.concat "" [sign; units; "."; tenths; hundredths].

(** A stand-in for a server in strict SQL mode behind a driver with its
    default settings. A [decimal(5,2)] column keeps a number rounded to
    the nearest hundredth when that lies within 999.99 of zero and fails
    the statement otherwise; the driver hands the column back as a
    string. An [int(11)] column keeps the nearest integer when that fits
    in 32 bits, and the driver hands it back as a number. *)
Definition sample_decimal (x : float) : option JsValue :=
  match Prim2SF x with
  | S754_zero _ => Some (JsStr "0.00")
  | S754_finite s m e =>
      if 0 <=? e then None
      else
        let n := toFixed2_digits m e in
        if n <=? 99999 then Some (JsStr (DECIMAL_as_string s n)) else None
  | S754_infinity _ | S754_nan => None
  end.

Definition sample_int (x : float) : option JsValue :=
  match Prim2SF x with
  | S754_zero _ => Some (JsNum zero)
  | S754_finite s m e =>
      if 0 <=? e then None
      else
        let n := round_half_even (Zpos m * 2 ^ Z.max e 0) (2 ^ Z.max (- e) 0) in
        if n <=? 2147483647
        then let r := SF2Prim (binary_normalize prec emax n 0 false) in
             Some (JsNum (if s then (- r)%float else r))
        else None
  | S754_infinity _ | S754_nan => None
  end.

Definition sample_server : SqlServer :=
  {| DECIMAL_5_2 := fun v =>
       match v with
       | JsNum x => sample_decimal x
       | JsStr s => sample_decimal (@StringToNumber sample_runtime s)
       | JsNull | JsUndefined => None
       end;
     INT_11 := fun v =>
       match v with
       | JsNum x => sample_int x
       | JsStr s => sample_int (@StringToNumber sample_runtime s)
       | JsNull | JsUndefined => None
       end |}.

Definition sample_memberships : list Membership :=
  [ mkMembership 1 7 1 3 5 pending;      (* window wholly in the past on day 9 *)
    mkMembership 2 7 1 8 20 pending;
    mkMembership 3 8 1 1 8 active;
    mkMembership 4 8 1 9 30 active;
    mkMembership 5 9 1 12 40 pending ].

Definition sample_db : DB := with_memberships sample_memberships empty_db.

Definition attendance_edge_db : DB :=
  mkDB [mkUser 1 "Ann" "ann@gym.local" member 1;
        mkUser 2 "Bob" "bob@gym.local" member 1;
        mkUser 3 "Cy" "cy@gym.local" member 0;
        mkUser 4 "Dee" "dee@gym.local" admin 1]
       [] []
       [mkAttendance 1 (2 * seconds_per_day + 100) None;
        mkAttendance 1 (2 * seconds_per_day + 7200) (Some (2 * seconds_per_day + 9000));
        mkAttendance 2 (5 * seconds_per_day) None]
       [] [].

Definition renewal_db : DB :=
  mkDB [mkUser 1 "Ann" "ann@gym.local" member 1;
        mkUser 3 "Cy" "cy@gym.local" member 0]
       [mkPlan 1 "Monthly" 30; mkPlan 2 "Weekly" 7]
       [mkMembership 1 1 1 (-18) 12 active;     (* 3 days left *)
        mkMembership 2 1 2 3 11 active;         (* 2 days left *)
        mkMembership 3 3 2 3 9 active;          (* owner deactivated *)
        mkMembership 4 1 2 3 9 active;          (* ends today *)
        mkMembership 5 1 2 4 10 pending]
       [] [] [].

Definition subscribe_db : DB :=
  mkDB [mkUser 7 "Gus" "gus@gym.local" member 1]
       [mkPlan 1 "Monthly" 30; mkPlan 2 "Weekly" 7]
       [mkMembership 1 7 1 (-20) 9 active; mkMembership 2 7 2 10 16 active]
       [] [] [].

(** Mail is on and the transport rejects every message. *)
Definition env_mail_down : Env :=
  mkEnv 9 true "3000" (fun _ => false) (fun _ => true).

(** The store rejects the third call it receives and no other. *)
Definition env_third_call_fails : Env :=
  mkEnv 9 false "3000" (fun n => Nat.eqb n 2) (fun _ => false).

Definition health_db : DB :=
  mkDB [mkUser 7 "Gus" "gus@gym.local" member 1] [] [] [] []
       [mkHealthMetric 7 3 (JsStr "80.00") (JsStr "170.00") JsNull JsNull JsNull;
        mkHealthMetric 7 5 JsNull (JsStr "180.00") JsNull JsNull JsNull;
        mkHealthMetric 7 6 (JsStr "82.00") JsNull JsNull JsNull JsNull;
        mkHealthMetric 8 8 JsNull (JsStr "150.00") JsNull JsNull JsNull].

(** The store rejects the second call it receives and no other. *)
Definition env_second_call_fails : Env :=
  mkEnv 9 false "3000" (fun n => Nat.eqb n 1) (fun _ => false).

(** * Properties *)

(** ** The lifecycle sweep *)

Lemma Status_eqb_eq (a b : Status) : Status_eqb a b = true <-> a = b.
Proof. destruct a, b; simpl; split; congruence. Qed.

Lemma activateExpireTasks_run (env : Env) (now : Instant) (w : World) :
  store_rejects env (store_calls w) = false ->
  store_rejects env (S (store_calls w)) = false ->
  activateExpireTasks env now w =
    (Normal tt, with_db (sweep now (db w)) (count_store_call (count_store_call w))).
Proof.
  intros H0 H1. unfold activateExpireTasks, bind, pool_update.
  rewrite H0. simpl. rewrite H1. reflexivity.
Qed.

Lemma sweep_row (now : Instant) (m : Membership) :
  (let m1 := if pending_and_started now m then set_status active m else m in
   if active_and_ended now m1 then set_status expired m1 else m1)
  = set_status (status_after_sweep (CURDATE now) m) m.
Proof.
  unfold pending_and_started, active_and_ended, status_after_sweep.
  destruct m as [i u p s e st]. simpl.
  destruct st; simpl; unfold set_status; simpl;
    repeat (destruct (_ <=? _); simpl); repeat (destruct (_ <? _); simpl);
    reflexivity.
Qed.

Lemma sweep_memberships (now : Instant) (d : DB) :
  memberships (sweep now d) =
  map (fun m => set_status (status_after_sweep (CURDATE now) m) m) (memberships d).
Proof.
  unfold sweep, UPDATE_memberships_SET_status. simpl.
  rewrite map_map. apply map_ext. intros m. apply sweep_row.
Qed.

Lemma status_after_sweep_stable (today : Z) (m : Membership) :
  status_after_sweep today (set_status (status_after_sweep today m) m)
  = status_after_sweep today m.
Proof.
  unfold status_after_sweep. destruct m as [i u p s e st]. simpl.
  destruct st; simpl;
    destruct (s <=? today) eqn:Hs; destruct (e <? today) eqn:He; simpl;
    rewrite ?Hs, ?He; reflexivity.
Qed.

Lemma sweep_sweep (now : Instant) (d : DB) : sweep now (sweep now d) = sweep now d.
Proof.
  assert (Hm : memberships (sweep now (sweep now d)) = memberships (sweep now d)).
  { rewrite (sweep_memberships now (sweep now d)), (sweep_memberships now d).
    rewrite map_map. apply map_ext. intros m.
    rewrite status_after_sweep_stable.
    destruct m; reflexivity. }
  unfold sweep, UPDATE_memberships_SET_status, with_memberships in *.
  simpl in *. now rewrite Hm.
Qed.

Lemma env_up_available : store_available env_up.
Proof. intros n. reflexivity. Qed.

Lemma swept_status_after_sweep (today : Z) (m : Membership) :
  swept today m (set_status (status_after_sweep today m) m).
Proof.
  unfold swept, status_after_sweep. destruct m as [i u p s e st]. simpl.
  destruct st; simpl;
    destruct (Z.leb_spec s today); destruct (Z.ltb_spec e today); simpl;
    repeat split; intros; try reflexivity; try congruence; try lia;
    exfalso; tauto.
Qed.

Lemma Forall2_map_right {A B} (R : A -> B -> Prop) (f : A -> B) (l : list A) :
  (forall x, R x (f x)) -> Forall2 R l (map f l).
Proof. intros H. induction l; simpl; constructor; auto. Qed.

(** C1, amended. For every store, deployment whose store answers, and
    instant, [activateExpireTasks] completes and leaves the membership
    rows in place with only their status changed: a row that was pending
    with start_date <= today is active when its end_date >= today and
    expired when its end_date < today (the second statement expires it in
    the same pass); a row that was active with end_date < today is
    expired; every other row keeps its status. *)
Theorem activateExpireTasks_transitions (env : Env) (now : Instant) (w : World) :
  store_available env ->
  exists w',
    activateExpireTasks env now w = (Normal tt, w') /\
    Forall2 (swept (CURDATE now)) (memberships (db w)) (memberships (db w')).
Proof.
  intros Hup. eexists. split.
  - apply activateExpireTasks_run; apply Hup.
  - change (db (with_db (sweep now (db w)) (count_store_call (count_store_call w))))
      with (sweep now (db w)).
    rewrite sweep_memberships.
    apply Forall2_map_right. intros m. apply swept_status_after_sweep.
Qed.

Lemma activateExpireTasks_transitions_witness :
  exists w',
    activateExpireTasks env_up (clock 9 10) (boot sample_db) = (Normal tt, w') /\
    Forall2 (swept (CURDATE (clock 9 10)))
            (memberships (db (boot sample_db))) (memberships (db w')).
Proof.
  apply (activateExpireTasks_transitions env_up (clock 9 10) (boot sample_db)).
  intros n. reflexivity.
Defined.

(** C1 as stated fails: a membership that was pending with
    start_date <= today is expired, not active, after the sweep when its
    end_date is already behind today. *)
Lemma pending_with_past_window_is_expired :
  let now := clock 9 10 in
  let before := memberships (db (boot sample_db)) in
  let after := memberships (db (snd (activateExpireTasks env_up now (boot sample_db)))) in
  exists m m',
    nth_error before 0 = Some m /\ nth_error after 0 = Some m' /\
    m_id m' = m_id m /\
    m_status m = pending /\ m_start_date m <= CURDATE now /\
    m_status m' <> active.
Proof.
  eexists. eexists. vm_compute.
  repeat split; try reflexivity; try discriminate.
Qed.

(** C4. For every store and instant, with a store that answers, running
    [activateExpireTasks] a second time at the same instant completes and
    leaves the store exactly as the first run left it. *)
Theorem activateExpireTasks_idempotent (env : Env) (now : Instant) (w : World) :
  store_available env ->
  let once := activateExpireTasks env now w in
  let twice := activateExpireTasks env now (snd once) in
  fst once = Normal tt /\ fst twice = Normal tt /\ db (snd twice) = db (snd once).
Proof.
  intros Hup once twice. subst once twice.
  rewrite (activateExpireTasks_run env now w) by apply Hup. simpl.
  rewrite activateExpireTasks_run by apply Hup. simpl.
  repeat split. apply sweep_sweep.
Qed.

Lemma activateExpireTasks_idempotent_witness :
  let once := activateExpireTasks env_up (clock 9 10) (boot sample_db) in
  let twice := activateExpireTasks env_up (clock 9 10) (snd once) in
  fst once = Normal tt /\ fst twice = Normal tt /\ db (snd twice) = db (snd once).
Proof.
  apply (activateExpireTasks_idempotent env_up (clock 9 10) (boot sample_db)).
  intros n. reflexivity.
Defined.

(** ** The engagement queries *)

Lemma entries_since_In (since userId : Z) (d : DB) (a : Attendance) :
  In a (entries_since since userId d) <->
  In a (attendance d) /\ a_user_id a = userId /\ since <= DATE (a_check_in a).
Proof.
  unfold entries_since. rewrite filter_In, andb_true_iff, Z.eqb_eq, Z.leb_le.
  tauto.
Qed.

Lemma Role_eqb_eq (a b : Role) : Role_eqb a b = true <-> a = b.
Proof. destruct a, b; simpl; split; congruence. Qed.

Lemma SELECT_members_In (d : DB) (userId : Z) :
  In userId (SELECT_members d) <-> active_member d userId.
Proof.
  unfold SELECT_members, active_member. rewrite in_map_iff. split.
  - intros [u [Hid Hin]]. apply filter_In in Hin as [Hin Hc].
    apply andb_true_iff in Hc as [Hr Ha]. apply Role_eqb_eq in Hr.
    apply Z.eqb_eq in Ha. exists u. auto.
  - intros [u [Hin [Hid [Hr Ha]]]]. exists u. split; [assumption|].
    apply filter_In. split; [assumption|].
    apply andb_true_iff. split; [now apply Role_eqb_eq | now apply Z.eqb_eq].
Qed.

(** C5, amended. For every store and instant, the members selected for a
    low-attendance reminder are exactly the users with role member that
    are not deactivated and have fewer than 2 attendance entries dated on
    day today-7 or later: the boundary day today-7 is counted. A member
    with 1 such entry is selected and a member with 2 is not. *)
Theorem findDueAttendanceReminders_exact (now : Instant) (d : DB) (userId : Z) :
  (In userId (findDueAttendanceReminders now d) <->
   active_member d userId /\
   (List.length (entries_since (CURDATE now - 7) userId d) < 2)%nat) /\
  (active_member d userId ->
   List.length (entries_since (CURDATE now - 7) userId d) = 1%nat ->
   In userId (findDueAttendanceReminders now d)) /\
  (List.length (entries_since (CURDATE now - 7) userId d) = 2%nat ->
   ~ In userId (findDueAttendanceReminders now d)).
Proof.
  assert (Hiff : In userId (findDueAttendanceReminders now d) <->
                 active_member d userId /\
                 (List.length (entries_since (CURDATE now - 7) userId d) < 2)%nat).
  { unfold findDueAttendanceReminders. rewrite filter_In, SELECT_members_In.
    unfold SELECT_COUNT_attendance. fold (entries_since (CURDATE now - 7) userId d).
    rewrite Z.ltb_lt. split; intros [Hm Hc]; split; try assumption; lia. }
  split; [exact Hiff|]. split.
  - intros Hm Hc. apply Hiff. split; [assumption | lia].
  - intros Hc Hin. apply Hiff in Hin as [_ Hlt]. lia.
Qed.

Lemma findDueAttendanceReminders_exact_witness :
  In 2 (findDueAttendanceReminders (clock 9 10) attendance_edge_db) /\
  ~ In 1 (findDueAttendanceReminders (clock 9 10) attendance_edge_db).
Proof.
  pose proof (findDueAttendanceReminders_exact (clock 9 10) attendance_edge_db 2)
    as [_ [H1 _]].
  pose proof (findDueAttendanceReminders_exact (clock 9 10) attendance_edge_db 1)
    as [_ [_ H2]].
  split.
  - apply H1; [| reflexivity].
    exists (mkUser 2 "Bob" "bob@gym.local" member 1).
    simpl. repeat split; auto.
  - apply H2. reflexivity.
Defined.

(** C5 as stated fails: user 1 checked in twice on day today-7 and not
    since. With that day outside the window the user would be selected;
    the query counts both entries and does not select the user. *)
Lemma boundary_day_entries_are_counted :
  In 1 (claimed_due_attendance (clock 9 10) attendance_edge_db) /\
  findDueAttendanceReminders (clock 9 10) attendance_edge_db = [2] /\
  SELECT_COUNT_attendance (clock 9 10) 1 attendance_edge_db = 2 /\
  map (fun a => DATE (a_check_in a) - CURDATE (clock 9 10))
      (entries_since (CURDATE (clock 9 10) - 7) 1 attendance_edge_db) = [-7; -7].
Proof. vm_compute. repeat split; auto. Qed.

Lemma IN_3_1_0_spec (x : Z) : IN_3_1_0 x = true <-> x = 3 \/ x = 1 \/ x = 0.
Proof.
  unfold IN_3_1_0. rewrite !orb_true_iff, !Z.eqb_eq. tauto.
Qed.

Lemma expiring_condition (now : Instant) (m : Membership) (u : User) (p : Plan) :
  (u_id u =? m_user_id m) && (p_id p =? m_plan_id m)
    && (u_is_active u =? 1) && Status_eqb (m_status m) active
    && IN_3_1_0 (DATEDIFF (m_end_date m) (CURDATE now)) = true <->
  u_id u = m_user_id m /\ p_id p = m_plan_id m /\ u_is_active u = 1 /\
  due_for_renewal (CURDATE now) m.
Proof.
  unfold due_for_renewal, DATEDIFF.
  rewrite !andb_true_iff, !Z.eqb_eq, Status_eqb_eq, IN_3_1_0_spec. tauto.
Qed.

Lemma findDueRenewalReminders_rows (now : Instant) (d : DB) (row : ExpiringRow) :
  In row (findDueRenewalReminders now d) <->
  exists m u p,
    In m (memberships d) /\ In u (users d) /\ In p (membership_plans d) /\
    u_id u = m_user_id m /\ p_id p = m_plan_id m /\
    u_is_active u = 1 /\ due_for_renewal (CURDATE now) m /\
    row = mkExpiringRow (m_id m) (u_id u) (p_name p) (m_end_date m).
Proof.
  unfold findDueRenewalReminders, SELECT_expiring. rewrite in_flat_map. split.
  - intros [m [Hm Hrow]]. apply in_flat_map in Hrow as [u [Hu Hrow]].
    apply in_flat_map in Hrow as [p [Hp Hrow]].
    destruct (_ && _) eqn:Hc in Hrow; [| contradiction].
    destruct Hrow as [Hrow | []].
    apply expiring_condition in Hc as [Hid [Hpid [Hact Hdue]]].
    exists m, u, p. auto 10.
  - intros [m [u [p [Hm [Hu [Hp [Hid [Hpid [Hact [Hdue Hrow]]]]]]]]]].
    exists m. split; [assumption|].
    apply in_flat_map. exists u. split; [assumption|].
    apply in_flat_map. exists p. split; [assumption|].
    assert (Hc : (u_id u =? m_user_id m) && (p_id p =? m_plan_id m)
                   && (u_is_active u =? 1) && Status_eqb (m_status m) active
                   && IN_3_1_0 (DATEDIFF (m_end_date m) (CURDATE now)) = true)
      by (apply expiring_condition; auto).
    rewrite Hc. left. now symmetry.
Qed.

Lemma flat_map_nil {A B} (f : A -> list B) (l : list A) :
  (forall x, In x l -> f x = []) -> flat_map f l = [].
Proof.
  induction l as [| a l IH]; simpl; intros H; [reflexivity |].
  rewrite (H a) by auto. apply IH. auto.
Qed.

(** A nested loop over a table with a unique key finds the one row with
    the key sought. *)
Lemma flat_map_unique_key {A B} (key : A -> Z) (k : Z) (f : A -> list B)
    (l : list A) (x : A) :
  NoDup (map key l) -> In x l -> key x = k ->
  (forall y, In y l -> key y <> k -> f y = []) ->
  flat_map f l = f x.
Proof.
  induction l as [| a l IH]; simpl; intros Hnd Hin Hk Hf; [contradiction |].
  inversion Hnd as [| ? ? Hnotin Hnd']; subst.
  destruct Hin as [-> | Hin].
  - rewrite (flat_map_nil f l); [apply app_nil_r |].
    intros y Hy. apply Hf; [auto |]. intros Heq. apply Hnotin.
    rewrite <- Heq. now apply in_map.
  - rewrite (Hf a); [| auto |].
    + simpl. apply IH; auto.
    + intros Heq. apply Hnotin. rewrite Heq. now apply in_map.
Qed.

Lemma existsb_unique_key {A} (key : A -> Z) (k : Z) (g : A -> bool)
    (l : list A) (x : A) :
  NoDup (map key l) -> In x l -> key x = k ->
  existsb (fun y => (key y =? k) && g y) l = g x.
Proof.
  induction l as [| a l IH]; simpl; intros Hnd Hin Hk; [contradiction |].
  inversion Hnd as [| ? ? Hnotin Hnd']; subst.
  destruct Hin as [-> | Hin].
  - rewrite Z.eqb_refl. simpl. destruct (g x); [reflexivity |]. simpl.
    apply not_true_iff_false. intros Hex. apply existsb_exists in Hex as [y [Hy Hc]].
    apply andb_true_iff in Hc as [Hc _]. apply Z.eqb_eq in Hc.
    apply Hnotin. rewrite <- Hc. now apply in_map.
  - assert (Hne : (key a =? key x) = false).
    { apply Z.eqb_neq. intros Heq. apply Hnotin. rewrite Heq. now apply in_map. }
    rewrite Hne. simpl. apply IH; auto.
Qed.

(** Under the keys, the join yields one row for a due membership and
    none for any other. *)
Lemma expiring_rows_of_membership (now : Instant) (d : DB) (m : Membership) :
  join_keys d -> In m (memberships d) ->
  map er_id
    (flat_map (fun u =>
       flat_map (fun p =>
         if (u_id u =? m_user_id m) && (p_id p =? m_plan_id m)
            && (u_is_active u =? 1) && Status_eqb (m_status m) active
            && IN_3_1_0 (DATEDIFF (m_end_date m) (CURDATE now))
         then [mkExpiringRow (m_id m) (u_id u) (p_name p) (m_end_date m)]
         else [])
       (membership_plans d))
     (users d))
  = if renewal_due now d m then [m_id m] else [].
Proof.
  intros [Hku [Hkp Hfk]] Hm.
  destruct (Hfk m Hm) as [[u [Hu Huid]] [p [Hp Hpid]]].
  rewrite (flat_map_unique_key u_id (m_user_id m) _ (users d) u Hku Hu Huid).
  - rewrite (flat_map_unique_key p_id (m_plan_id m) _ (membership_plans d) p Hkp Hp Hpid).
    + unfold renewal_due.
      rewrite (existsb_unique_key u_id (m_user_id m) (fun u => u_is_active u =? 1)
                                  (users d) u Hku Hu Huid).
      rewrite Huid, Hpid, !Z.eqb_refl. simpl.
      destruct (u_is_active u =? 1); destruct (Status_eqb (m_status m) active);
        destruct (IN_3_1_0 _); reflexivity.
    + intros p' _ Hne. apply Z.eqb_neq in Hne. rewrite Hne, andb_false_r. reflexivity.
  - intros u' _ Hne. apply flat_map_nil. intros p' _.
    apply Z.eqb_neq in Hne. rewrite Hne. reflexivity.
Qed.

(** C6. For every store and instant, the renewal query returns a row
    exactly for the memberships with status active whose end_date minus
    today is 3, 1 or 0 and whose owning user is not deactivated, and the
    row carries the membership id, the user id, the name of the
    membership's plan and the end date; memberships of deactivated users
    and memberships at any other distance yield no row. Under the keys
    of the schema each such membership yields exactly one row, in table
    order. *)
Theorem findDueRenewalReminders_exact (now : Instant) (d : DB) :
  (forall row,
     In row (findDueRenewalReminders now d) <->
     exists m u p,
       In m (memberships d) /\ In u (users d) /\ In p (membership_plans d) /\
       u_id u = m_user_id m /\ p_id p = m_plan_id m /\
       u_is_active u = 1 /\ due_for_renewal (CURDATE now) m /\
       row = mkExpiringRow (m_id m) (u_id u) (p_name p) (m_end_date m)) /\
  (join_keys d ->
   map er_id (findDueRenewalReminders now d)
   = map m_id (filter (renewal_due now d) (memberships d))).
Proof.
  split; [apply findDueRenewalReminders_rows |].
  intros Hkeys. unfold findDueRenewalReminders, SELECT_expiring.
  assert (Hall : forall m, In m (memberships d) -> In m (memberships d)) by auto.
  revert Hall. generalize (memberships d) at 1 3 4. intros ms.
  induction ms as [| m ms IH]; intros Hall; simpl; [reflexivity |].
  rewrite map_app, (expiring_rows_of_membership now d m Hkeys) by (apply Hall; now left).
  rewrite IH by (intros m' Hm'; apply Hall; now right).
  destruct (renewal_due now d m); reflexivity.
Qed.

(** Exhibits the row of a concrete table that a goal asks for. *)
Ltac find_row :=
  lazymatch goal with
  | |- exists x, In x ?l /\ _ =>
      let l' := eval cbv in l in
      let rec go rows :=
        lazymatch rows with
        | ?a :: ?rest => first [ exists a; split; [simpl; tauto | reflexivity] | go rest ]
        end in
      go l'
  end.

Lemma findDueRenewalReminders_exact_witness :
  map er_id (findDueRenewalReminders (clock 9 10) renewal_db) = [1; 4].
Proof.
  destruct (findDueRenewalReminders_exact (clock 9 10) renewal_db) as [_ Hmap].
  rewrite Hmap; [reflexivity |].
  split; [| split].
  - repeat constructor; simpl; intuition discriminate.
  - repeat constructor; simpl; intuition discriminate.
  - intros m Hm. simpl in Hm.
    destruct Hm as [<- | [<- | [<- | [<- | [<- | []]]]]]; split; find_row.
Defined.

(** ** Subscribing *)

Lemma fold_left_keep_later {A} (key : A -> Z) (l : list A) (acc : option A) :
  match fold_left (keep_later key) l acc with
  | None => acc = None /\ l = []
  | Some b =>
      (acc = Some b \/ In b l) /\
      (forall m, acc = Some m \/ In m l -> key m <= key b)
  end.
Proof.
  revert acc. induction l as [| x l IH]; intros acc; simpl.
  - destruct acc as [b |]; [| auto]. split; [auto |].
    intros m [Hm | []]. injection Hm as <-. lia.
  - specialize (IH (keep_later key acc x)).
    destruct (fold_left (keep_later key) l (keep_later key acc x)) as [b |].
    + destruct IH as [Hin Hmax]. split.
      * destruct Hin as [Hacc | Hin]; [| auto].
        unfold keep_later in Hacc. destruct acc as [a |].
        -- destruct (key a <? key x); injection Hacc as <-; auto.
        -- injection Hacc as <-. auto.
      * intros m [Hm | [Hm | Hm]].
        -- subst acc. unfold keep_later in Hmax.
           destruct (Z.ltb_spec (key m) (key x)).
           ++ specialize (Hmax x (or_introl eq_refl)). lia.
           ++ apply Hmax. auto.
        -- subst x. unfold keep_later in Hmax. destruct acc as [a |].
           ++ destruct (Z.ltb_spec (key a) (key m)).
              ** apply Hmax. auto.
              ** specialize (Hmax a (or_introl eq_refl)). lia.
           ++ apply Hmax. auto.
        -- apply Hmax. auto.
    + destruct IH as [Hacc _]. unfold keep_later in Hacc.
      destruct acc as [a |]; [destruct (key a <? key x) |];
        discriminate.
Qed.

(** [ORDER BY key DESC LIMIT 1] returns a row of the list with the
    greatest key, and nothing only for no rows. *)
Lemma ORDER_BY_DESC_LIMIT_1_spec {A} (key : A -> Z) (rows : list A) :
  match ORDER_BY_DESC_LIMIT_1 key rows with
  | Some b => In b rows /\ (forall m, In m rows -> key m <= key b)
  | None => rows = []
  end.
Proof.
  unfold ORDER_BY_DESC_LIMIT_1.
  pose proof (fold_left_keep_later key rows None) as H.
  destruct (fold_left (keep_later key) rows None) as [b |].
  - destruct H as [[Hacc | Hin] Hmax]; [discriminate |]. split; auto.
  - apply H.
Qed.

Lemma current_active_filter (now : Instant) (userId : Z) (d : DB) (m : Membership) :
  In m (filter (fun m => (m_user_id m =? userId) && Status_eqb (m_status m) active
                         && (CURDATE now <=? m_end_date m))
               (memberships d)) <->
  current_active now userId d m.
Proof.
  unfold current_active.
  rewrite filter_In, !andb_true_iff, Z.eqb_eq, Status_eqb_eq, Z.leb_le. tauto.
Qed.

Lemma SELECT_current_active_spec (now : Instant) (userId : Z) (d : DB) :
  match SELECT_current_active now userId d with
  | Some cur =>
      current_active now userId d cur /\
      (forall m, current_active now userId d m -> m_end_date m <= m_end_date cur)
  | None => forall m, ~ current_active now userId d m
  end.
Proof.
  unfold SELECT_current_active.
  match goal with
  | |- context [ORDER_BY_DESC_LIMIT_1 ?k ?l] =>
      pose proof (ORDER_BY_DESC_LIMIT_1_spec k l) as H;
      destruct (ORDER_BY_DESC_LIMIT_1 k l) as [cur |]
  end.
  - destruct H as [Hin Hmax]. split.
    + now apply current_active_filter.
    + intros m Hm. apply Hmax. now apply current_active_filter.
  - intros m Hm. apply current_active_filter in Hm. rewrite H in Hm. contradiction.
Qed.

(** C8. For every subscribe request naming an existing plan, with a store
    that answers: the handler appends one membership for the user and the
    plan and redirects. If the user holds an active membership whose
    end_date >= today, the new one is pending and starts the day after
    the latest end_date among those; otherwise it is active and starts
    today. Either way end_date = start_date + (duration_days - 1), hence
    end_date >= start_date when the duration is positive. *)
Theorem post_subscribe_chains (env : Env) (now : Instant) (userId plan_id : Z)
    (w : World) (plan : Plan) :
  store_available env ->
  SELECT_plan plan_id (db w) = Some plan ->
  exists w' new,
    post_subscribe env now userId (Some plan_id) w
      = (Normal (res_redirect "/dashboard"), w') /\
    memberships (db w') = memberships (db w) ++ [new] /\
    m_user_id new = userId /\ m_plan_id new = p_id plan /\ p_id plan = plan_id /\
    ((exists cur,
        current_active now userId (db w) cur /\
        (forall m, current_active now userId (db w) m -> m_end_date m <= m_end_date cur) /\
        m_status new = pending /\ m_start_date new = m_end_date cur + 1)
     \/
     ((forall m, ~ current_active now userId (db w) m) /\
      m_status new = active /\ m_start_date new = CURDATE now)) /\
    m_end_date new = m_start_date new + (p_duration_days plan - 1) /\
    (0 < p_duration_days plan -> m_start_date new <= m_end_date new).
Proof.
  intros Hup Hplan.
  assert (Hpid : p_id plan = plan_id).
  { unfold SELECT_plan in Hplan. apply find_some in Hplan as [_ H].
    now apply Z.eqb_eq. }
  pose proof (SELECT_current_active_spec now userId (db w)) as Hcur.
  unfold post_subscribe, destructure, try_catch, bind, pool_query, pool_update, ret.
  rewrite Hup. rewrite Hplan. cbn [store_calls count_store_call db].
  rewrite Hup.
  destruct (SELECT_current_active now userId (db w)) as [cur |].
  - destruct Hcur as [Hc Hmax]. cbn [store_calls count_store_call db].
    rewrite Hup. eexists. eexists. split; [reflexivity |].
    unfold DATE_ADD. repeat split; try assumption; try reflexivity;
      try (intros; simpl; lia).
    left. exists cur. auto.
  - cbn [store_calls count_store_call db]. rewrite Hup.
    eexists. eexists. split; [reflexivity |].
    unfold DATE_ADD. repeat split; try assumption; try reflexivity;
      try (intros; simpl; lia).
    right. auto.
Qed.

Lemma post_subscribe_chains_witness :
  exists w' new,
    post_subscribe env_up (clock 9 10) 7 (Some 2) (boot subscribe_db)
      = (Normal (res_redirect "/dashboard"), w') /\
    memberships (db w') = memberships (db (boot subscribe_db)) ++ [new] /\
    m_status new = pending /\ m_start_date new = 17 /\ m_end_date new = 23.
Proof.
  destruct (post_subscribe_chains env_up (clock 9 10) 7 2 (boot subscribe_db)
              (mkPlan 2 "Weekly" 7))
    as [w' [new [Hrun [Hms _]]]].
  - intros n. reflexivity.
  - reflexivity.
  - exists w', new. split; [exact Hrun |]. split; [exact Hms |].
    vm_compute in Hrun. injection Hrun as <-.
    vm_compute in Hms. injection Hms as <-.
    repeat split.
Defined.

(** ** Effects of the async functions *)

Section Preservation.
(** A relation between the world before and after a computation that
    holds across sequencing. *)
Variable R : World -> World -> Prop.
Hypothesis R_refl : forall w, R w w.
Hypothesis R_trans : forall a b c, R a b -> R b c -> R a c.

Lemma preserves_ret {A} (a : A) : preserves R (ret a).
Proof. intros w. apply R_refl. Qed.

Lemma preserves_bind {A B} (m : Async A) (k : A -> Async B) :
  preserves R m -> (forall a, preserves R (k a)) -> preserves R (bind m k).
Proof.
  intros Hm Hk w. unfold bind. specialize (Hm w).
  destruct (m w) as [[a | e] w1]; simpl in *.
  - eapply R_trans; [exact Hm | apply Hk].
  - exact Hm.
Qed.

Lemma preserves_try_catch {A} (m : Async A) (h : Exn -> Async A) :
  preserves R m -> (forall e, preserves R (h e)) -> preserves R (try_catch m h).
Proof.
  intros Hm Hh w. unfold try_catch. specialize (Hm w).
  destruct (m w) as [[a | e] w1]; simpl in *.
  - exact Hm.
  - eapply R_trans; [exact Hm | apply Hh].
Qed.

Lemma preserves_for_of {A} (xs : list A) (body : A -> Async unit) :
  (forall x, preserves R (body x)) -> preserves R (for_of xs body).
Proof.
  intros Hb. induction xs as [| x xs IH]; simpl.
  - apply preserves_ret.
  - apply preserves_bind; auto.
Qed.
End Preservation.

Lemma same_db_refl w : same_db w w.
Proof. reflexivity. Qed.

Lemma same_db_trans a b c : same_db a b -> same_db b c -> same_db a c.
Proof. unfold same_db. congruence. Qed.

Lemma same_schedule_refl w : same_schedule w w.
Proof. repeat split. Qed.

Lemma same_schedule_trans a b c :
  same_schedule a b -> same_schedule b c -> same_schedule a c.
Proof. unfold same_schedule. intuition congruence. Qed.

Create HintDb effects.

Lemma keeps_db_ret {A} (a : A) : keeps_db (ret a).
Proof. apply preserves_ret, same_db_refl. Qed.

Lemma keeps_db_bind {A B} (m : Async A) (k : A -> Async B) :
  keeps_db m -> (forall a, keeps_db (k a)) -> keeps_db (bind m k).
Proof. apply preserves_bind, same_db_trans. Qed.

Lemma keeps_db_try_catch {A} (m : Async A) (h : Exn -> Async A) :
  keeps_db m -> (forall e, keeps_db (h e)) -> keeps_db (try_catch m h).
Proof. apply preserves_try_catch, same_db_trans. Qed.

Lemma keeps_schedule_ret {A} (a : A) : keeps_schedule (ret a).
Proof. apply preserves_ret, same_schedule_refl. Qed.

Lemma keeps_schedule_bind {A B} (m : Async A) (k : A -> Async B) :
  keeps_schedule m -> (forall a, keeps_schedule (k a)) -> keeps_schedule (bind m k).
Proof. apply preserves_bind, same_schedule_trans. Qed.

Lemma keeps_schedule_try_catch {A} (m : Async A) (h : Exn -> Async A) :
  keeps_schedule m -> (forall e, keeps_schedule (h e)) ->
  keeps_schedule (try_catch m h).
Proof. apply preserves_try_catch, same_schedule_trans. Qed.

Lemma keeps_schedule_for_of {A} (xs : list A) (body : A -> Async unit) :
  (forall x, keeps_schedule (body x)) -> keeps_schedule (for_of xs body).
Proof.
  apply preserves_for_of; [apply same_schedule_refl | apply same_schedule_trans].
Qed.

Lemma keeps_db_console_log line : keeps_db (console_log line).
Proof. intros w. reflexivity. Qed.

Lemma keeps_schedule_console_log line : keeps_schedule (console_log line).
Proof. intros w. repeat split. Qed.

Lemma keeps_db_pool_query {A} env (stmt : DB -> A) : keeps_db (pool_query env stmt).
Proof. intros w. unfold pool_query. destruct (store_rejects _ _); reflexivity. Qed.

Lemma keeps_schedule_pool_query {A} env (stmt : DB -> A) :
  keeps_schedule (pool_query env stmt).
Proof.
  intros w. unfold pool_query. destruct (store_rejects _ _); repeat split.
Qed.

Lemma keeps_schedule_pool_update env stmt : keeps_schedule (pool_update env stmt).
Proof.
  intros w. unfold pool_update. destruct (store_rejects _ _); repeat split.
Qed.

Lemma keeps_db_transporter_sendMail env m : keeps_db (transporter_sendMail env m).
Proof.
  intros w. unfold transporter_sendMail. destruct (sendMail_rejects _ _); reflexivity.
Qed.

Lemma keeps_schedule_transporter_sendMail env m :
  keeps_schedule (transporter_sendMail env m).
Proof.
  intros w. unfold transporter_sendMail.
  destruct (sendMail_rejects _ _); repeat split.
Qed.

#[export] Hint Resolve keeps_db_ret keeps_db_bind keeps_db_try_catch
  keeps_db_console_log keeps_db_pool_query keeps_db_transporter_sendMail : effects.
#[export] Hint Resolve keeps_schedule_ret keeps_schedule_bind
  keeps_schedule_try_catch keeps_schedule_for_of keeps_schedule_console_log
  keeps_schedule_pool_query keeps_schedule_pool_update
  keeps_schedule_transporter_sendMail : effects.

Lemma keeps_db_sendEmail env to subject html : keeps_db (sendEmail env to subject html).
Proof.
  unfold sendEmail. destruct (_ || _); auto 10 with effects.
Qed.

Lemma keeps_schedule_sendEmail env to subject html :
  keeps_schedule (sendEmail env to subject html).
Proof.
  unfold sendEmail. destruct (_ || _); auto 10 with effects.
Qed.

(** [sendEmail] catches what the transport throws. *)
Lemma sendEmail_returns env to subject html w :
  fst (sendEmail env to subject html w) = Normal tt.
Proof.
  unfold sendEmail. destruct (_ || _); [reflexivity |].
  unfold try_catch, bind, transporter_sendMail, console_log.
  destruct (sendMail_rejects _ _); reflexivity.
Qed.

Lemma addNotification_unfold env now userId type message :
  addNotification env now userId type message =
  (pool_update env (INSERT_notification now userId type message) ;;
   mail_the_notification env userId type message).
Proof. reflexivity. Qed.

Lemma keeps_db_mail_the_notification env userId type message :
  keeps_db (mail_the_notification env userId type message).
Proof.
  unfold mail_the_notification.
  apply keeps_db_try_catch; [| auto with effects].
  apply keeps_db_bind; [auto with effects |].
  intros [[email name] |]; [| auto with effects].
  destruct (truthy_string email); [apply keeps_db_sendEmail | auto with effects].
Qed.

Lemma keeps_schedule_mail_the_notification env userId type message :
  keeps_schedule (mail_the_notification env userId type message).
Proof.
  unfold mail_the_notification.
  apply keeps_schedule_try_catch; [| auto with effects].
  apply keeps_schedule_bind; [auto with effects |].
  intros [[email name] |]; [| auto with effects].
  destruct (truthy_string email);
    [apply keeps_schedule_sendEmail | auto with effects].
Qed.

Lemma mail_the_notification_returns env userId type message w :
  fst (mail_the_notification env userId type message w) = Normal tt.
Proof.
  unfold mail_the_notification, try_catch, bind, pool_query.
  destruct (store_rejects _ _); [reflexivity |].
  destruct (SELECT_email_name userId (db w)) as [[email name] |]; [| reflexivity].
  destruct (truthy_string email); [| reflexivity].
  match goal with
  | |- context [sendEmail ?e ?t ?s ?h ?w0] =>
      pose proof (sendEmail_returns e t s h w0) as Hs;
      destruct (sendEmail e t s h w0) as [[[] | ex] w1]
  end; simpl in *; [reflexivity | discriminate].
Qed.

Lemma keeps_schedule_addNotification env now userId type message :
  keeps_schedule (addNotification env now userId type message).
Proof.
  rewrite addNotification_unfold.
  apply keeps_schedule_bind; [auto with effects |].
  intros _. apply keeps_schedule_mail_the_notification.
Qed.

(** ** Notifications survive a failing transport *)

Lemma addNotification_after_insert (env : Env) (now : Instant)
    (userId : Z) (type message : string) (w : World) :
  store_rejects env (store_calls w) = false ->
  let w1 := with_db (INSERT_notification now userId type message (db w))
                    (count_store_call w) in
  let w' := snd (mail_the_notification env userId type message w1) in
  addNotification env now userId type message w = (Normal tt, w') /\
  db w' = INSERT_notification now userId type message (db w).
Proof.
  intros Hins w1 w'. rewrite addNotification_unfold.
  unfold bind at 1. unfold pool_update. rewrite Hins. fold w1.
  pose proof (mail_the_notification_returns env userId type message w1) as Hret.
  pose proof (keeps_db_mail_the_notification env userId type message w1) as Hdb.
  subst w'.
  destruct (mail_the_notification env userId type message w1) as [r w2].
  simpl in *. subst r. split; [reflexivity |]. rewrite Hdb. reflexivity.
Qed.

(** C7. For every call of [addNotification] whose INSERT the store
    accepts, whatever the transport and the later lookup do: the call
    completes normally and the store is the one the INSERT produced, so
    the row is there. In particular when mail is on, the user has an
    address and [sendMail] rejects, nothing is sent, the failure is
    logged, and the row stays. *)
Theorem addNotification_swallows_send_failure (env : Env) (now : Instant)
    (userId : Z) (type message : string) (w : World) :
  store_rejects env (store_calls w) = false ->
  exists w',
    addNotification env now userId type message w = (Normal tt, w') /\
    db w' = INSERT_notification now userId type message (db w) /\
    In (mkNotification (next_id (map n_id (notifications (db w))))
                       userId type message false (NOW now))
       (notifications (db w')) /\
    (forall email name,
       transporter env = true ->
       store_rejects env (S (store_calls w)) = false ->
       SELECT_email_name userId (db w) = Some (email, name) ->
       email <> "" ->
       sendMail_rejects env (sendMail_calls w) = true ->
       outbox w' = outbox w /\ console w' = console w ++ ["Mail send failed"]).
Proof.
  intros Hins.
  destruct (addNotification_after_insert env now userId type message w Hins)
    as [Hrun Hdb].
  set (w1 := with_db (INSERT_notification now userId type message (db w))
                     (count_store_call w)) in *.
  exists (snd (mail_the_notification env userId type message w1)).
  split; [exact Hrun |]. split; [exact Hdb |]. split.
  - rewrite Hdb. unfold INSERT_notification. simpl.
    apply in_or_app. right. left. reflexivity.
  - intros email name Ht Hsel Hu Hne Hrej.
    unfold mail_the_notification, try_catch, bind, pool_query.
    change (store_calls w1) with (S (store_calls w)).
    rewrite Hsel.
    change (SELECT_email_name userId (db w1)) with (SELECT_email_name userId (db w)).
    rewrite Hu.
    assert (Htruthy : truthy_string email = true).
    { unfold truthy_string.
      destruct (String.eqb_spec email ""); [contradiction | reflexivity]. }
    rewrite Htruthy.
    unfold sendEmail, try_catch, bind, transporter_sendMail.
    rewrite Ht, Htruthy. simpl.
    rewrite Hrej. simpl. split; reflexivity.
Qed.

Lemma addNotification_swallows_send_failure_witness :
  exists w',
    addNotification env_mail_down (clock 9 10) 1 "renewal" "Renew soon."
                    (boot attendance_edge_db) = (Normal tt, w') /\
    notifications (db w') =
      [mkNotification 1 1 "renewal" "Renew soon." false (NOW (clock 9 10))] /\
    outbox w' = [] /\ console w' = ["Mail send failed"].
Proof.
  destruct (addNotification_swallows_send_failure env_mail_down (clock 9 10) 1
              "renewal" "Renew soon." (boot attendance_edge_db) eq_refl)
    as [w' [Hrun [Hdb [_ Hmail]]]].
  exists w'. split; [exact Hrun |]. split.
  - rewrite Hdb. reflexivity.
  - apply (Hmail "ann@gym.local" "Ann"); try reflexivity. discriminate.
Defined.

(** ** Deduplicated notification *)

Lemma addNotification_run (env : Env) (now : Instant) (userId : Z)
    (type message : string) (w : World) :
  store_available env ->
  exists w',
    addNotification env now userId type message w = (Normal tt, w') /\
    db w' = INSERT_notification now userId type message (db w).
Proof.
  intros Hup.
  destruct (addNotification_after_insert env now userId type message w (Hup _))
    as [Hrun Hdb].
  eexists. split; [exact Hrun | exact Hdb].
Qed.

Lemma notify_renewal_once_run `{JsRuntime} (env : Env) (now : Instant)
    (row : ExpiringRow) (w : World) :
  store_available env ->
  exists w',
    notify_renewal_once env now row w = (Normal tt, w') /\
    db w' = notify_renewal_db now row (db w).
Proof.
  intros Hup. unfold notify_renewal_once, notify_renewal_db, bind, pool_query.
  rewrite Hup.
  destruct (SELECT_renewal_today now (er_user_id row) (db w)).
  - eexists. split; reflexivity.
  - apply (addNotification_run env now _ _ _ (count_store_call w) Hup).
Qed.

Lemma notify_attendance_once_run (env : Env) (now : Instant) (userId : Z) (w : World) :
  store_available env ->
  exists w',
    notify_attendance_once env now userId w = (Normal tt, w') /\
    db w' = notify_attendance_db now userId (db w).
Proof.
  intros Hup. unfold notify_attendance_once, notify_attendance_db, bind, pool_query.
  rewrite Hup.
  destruct (SELECT_attendance_recent now userId (db w)).
  - eexists. split; reflexivity.
  - apply (addNotification_run env now _ _ _ (count_store_call w) Hup).
Qed.

Lemma find_none_filter {A} (f : A -> bool) (l : list A) :
  find f l = None <-> filter f l = [].
Proof.
  induction l as [| x l IH]; simpl; [tauto |].
  destruct (f x); [split; discriminate | exact IH].
Qed.

Lemma find_app_hit {A} (f : A -> bool) (l : list A) (x : A) :
  f x = true -> find f (l ++ [x]) <> None.
Proof.
  intros Hx. induction l as [| y l IH]; simpl.
  - rewrite Hx. discriminate.
  - destruct (f y); [discriminate | exact IH].
Qed.

Lemma option_map_none {A B} (f : A -> B) (o : option A) :
  option_map f o = None <-> o = None.
Proof. destruct o; simpl; split; congruence. Qed.

Lemma SELECT_renewal_today_none (now : Instant) (userId : Z) (d : DB) :
  SELECT_renewal_today now userId d = None <->
  renewal_rows_on (CURDATE now) userId d = [].
Proof.
  unfold SELECT_renewal_today, renewal_rows_on.
  rewrite option_map_none. apply find_none_filter.
Qed.

Lemma SELECT_attendance_recent_none (now : Instant) (userId : Z) (d : DB) :
  SELECT_attendance_recent now userId d = None <->
  attendance_rows_since (NOW now - seven_days) userId d = [].
Proof.
  unfold SELECT_attendance_recent, attendance_rows_since, seven_days.
  rewrite option_map_none. apply find_none_filter.
Qed.

Lemma renewal_rows_on_insert (day userId : Z) (now : Instant) (msg : string) (d : DB) :
  CURDATE now = day ->
  renewal_rows_on day userId (INSERT_notification now userId "renewal" msg d) =
  renewal_rows_on day userId d ++
    [mkNotification (next_id (map n_id (notifications d))) userId "renewal" msg
                    false (NOW now)].
Proof.
  intros Hday. unfold renewal_rows_on, INSERT_notification. simpl notifications.
  rewrite filter_app. f_equal. simpl.
  rewrite Z.eqb_refl. fold (CURDATE now). rewrite Hday, Z.eqb_refl. reflexivity.
Qed.

Lemma attendance_rows_since_insert (since userId : Z) (now : Instant) (d : DB) :
  attendance_rows_since since userId
    (INSERT_notification now userId "attendance" attendance_message d) =
  attendance_rows_since since userId d ++
    (if since <=? NOW now
     then [mkNotification (next_id (map n_id (notifications d))) userId "attendance"
                          attendance_message false (NOW now)]
     else []).
Proof.
  unfold attendance_rows_since, INSERT_notification. simpl notifications.
  rewrite filter_app. f_equal. simpl.
  rewrite Z.eqb_refl. simpl. destruct (since <=? NOW now); reflexivity.
Qed.

Lemma attendance_rows_since_mono (s1 s2 userId : Z) (d : DB) :
  s1 <= s2 ->
  attendance_rows_since s1 userId d = [] ->
  attendance_rows_since s2 userId d = [].
Proof.
  unfold attendance_rows_since. intros Hle.
  induction (notifications d) as [| n l IH]; simpl; [auto |].
  destruct (Z.leb_spec s1 (n_created_at n)); destruct (Z.leb_spec s2 (n_created_at n));
    try lia; rewrite ?andb_true_r, ?andb_false_r;
    destruct ((n_user_id n =? userId) && String.eqb (n_type n) "attendance");
    simpl; auto; discriminate.
Qed.

(** A second renewal step for the same user on the same day changes
    nothing. *)
Lemma notify_renewal_db_again `{JsRuntime} (now1 now2 : Instant)
    (row1 row2 : ExpiringRow) (d : DB) :
  er_user_id row1 = er_user_id row2 ->
  CURDATE now1 = CURDATE now2 ->
  notify_renewal_db now2 row2 (notify_renewal_db now1 row1 d)
  = notify_renewal_db now1 row1 d.
Proof.
  intros Hu Hday.
  assert (Hhit : SELECT_renewal_today now2 (er_user_id row2)
                   (notify_renewal_db now1 row1 d) <> None).
  { rewrite SELECT_renewal_today_none, <- Hday, <- Hu.
    unfold notify_renewal_db.
    destruct (SELECT_renewal_today now1 (er_user_id row1) d) eqn:Hsel.
    - intros Hnil. apply SELECT_renewal_today_none in Hnil. congruence.
    - rewrite renewal_rows_on_insert by reflexivity.
      intros Hnil. apply app_eq_nil in Hnil as [_ Hnil]. discriminate. }
  unfold notify_renewal_db at 1.
  destruct (SELECT_renewal_today now2 (er_user_id row2) _); [reflexivity | congruence].
Qed.

Lemma notify_renewal_db_first `{JsRuntime} (now : Instant) (row : ExpiringRow) (d : DB) :
  renewal_rows_on (CURDATE now) (er_user_id row) d = [] ->
  List.length (renewal_rows_on (CURDATE now) (er_user_id row)
                               (notify_renewal_db now row d)) = 1%nat.
Proof.
  intros Hnil. unfold notify_renewal_db.
  apply SELECT_renewal_today_none in Hnil as Hsel. rewrite Hsel.
  rewrite renewal_rows_on_insert by reflexivity. rewrite Hnil. reflexivity.
Qed.

(** A second attendance step within seven days of one that inserted
    changes nothing. *)
Lemma notify_attendance_db_again (now1 now2 : Instant) (userId : Z) (d : DB) :
  NOW now2 <= NOW now1 + seven_days ->
  SELECT_attendance_recent now1 userId d = None ->
  notify_attendance_db now2 userId (notify_attendance_db now1 userId d)
  = notify_attendance_db now1 userId d.
Proof.
  intros Hle Hsel.
  assert (Hhit : SELECT_attendance_recent now2 userId
                   (notify_attendance_db now1 userId d) <> None).
  { rewrite SELECT_attendance_recent_none. unfold notify_attendance_db.
    rewrite Hsel, attendance_rows_since_insert.
    destruct (Z.leb_spec (NOW now2 - seven_days) (NOW now1)); [| lia].
    intros Hnil. apply app_eq_nil in Hnil as [_ Hnil]. discriminate. }
  unfold notify_attendance_db at 1.
  destruct (SELECT_attendance_recent now2 userId _); [reflexivity | congruence].
Qed.

(** An attendance step adds at most one row. *)
Lemma notify_attendance_db_length (now : Instant) (userId : Z) (d : DB) :
  (List.length (notifications (notify_attendance_db now userId d))
   <= S (List.length (notifications d)))%nat.
Proof.
  unfold notify_attendance_db.
  destruct (SELECT_attendance_recent now userId d); simpl.
  - lia.
  - rewrite length_app. simpl. lia.
Qed.

(** An attendance step more than seven days after the last attendance
    row of the user inserts. *)
Lemma notify_attendance_db_after_window (now1 now3 : Instant) (userId : Z) (d : DB) :
  NOW now1 + seven_days < NOW now3 ->
  SELECT_attendance_recent now1 userId d = None ->
  SELECT_attendance_recent now3 userId (notify_attendance_db now1 userId d) = None.
Proof.
  intros Hlt Hsel. rewrite SELECT_attendance_recent_none.
  unfold notify_attendance_db. rewrite Hsel, attendance_rows_since_insert.
  apply SELECT_attendance_recent_none in Hsel.
  rewrite (attendance_rows_since_mono (NOW now1 - seven_days));
    [| unfold seven_days, seconds_per_day in *; lia | exact Hsel].
  destruct (Z.leb_spec (NOW now3 - seven_days) (NOW now1)); [lia | reflexivity].
Qed.

Lemma filter_nil_iff {A} (f : A -> bool) (l : list A) :
  filter f l = [] <-> forall x, In x l -> f x = false.
Proof.
  induction l as [| a l IH]; simpl.
  - split; [intros _ x [] | reflexivity].
  - destruct (f a) eqn:Ha.
    + split; [discriminate |]. intros H. specialize (H a (or_introl eq_refl)).
      congruence.
    + rewrite IH. split.
      * intros H x [<- | Hx]; auto.
      * intros H x Hx. apply H. now right.
Qed.

Lemma filter_In_length {A} (f : A -> bool) (l : list A) (x : A) :
  In x (filter f l) -> (1 <= List.length (filter f l))%nat.
Proof. destruct (filter f l); simpl; [contradiction | lia]. Qed.

Lemma renewal_rows_on_insert_any (day userId : Z) (now : Instant) (msg : string) (d : DB) :
  renewal_rows_on day userId (INSERT_notification now userId "renewal" msg d) =
  renewal_rows_on day userId d ++
    (if CURDATE now =? day
     then [mkNotification (next_id (map n_id (notifications d))) userId "renewal" msg
                          false (NOW now)]
     else []).
Proof.
  unfold renewal_rows_on, INSERT_notification. simpl notifications.
  rewrite filter_app. f_equal. simpl.
  rewrite Z.eqb_refl. fold (CURDATE now). simpl.
  destruct (CURDATE now =? day); reflexivity.
Qed.

(** The renewal step keeps the days deduplicated and leaves exactly one
    renewal row of the user on its day. *)
Lemma notify_renewal_db_deduped `{JsRuntime} (now : Instant) (row : ExpiringRow) (d : DB) :
  renewal_deduped (er_user_id row) d ->
  renewal_deduped (er_user_id row) (notify_renewal_db now row d) /\
  List.length (renewal_rows_on (CURDATE now) (er_user_id row)
                               (notify_renewal_db now row d)) = 1%nat.
Proof.
  intros Hded. unfold notify_renewal_db.
  destruct (SELECT_renewal_today now (er_user_id row) d) as [id |] eqn:Hsel.
  - split; [exact Hded |].
    assert (Hne : renewal_rows_on (CURDATE now) (er_user_id row) d <> []).
    { intros Hnil. apply SELECT_renewal_today_none in Hnil. congruence. }
    specialize (Hded (CURDATE now)).
    destruct (renewal_rows_on (CURDATE now) (er_user_id row) d) as [| n [| n' l]];
      simpl in *; [congruence | reflexivity | lia].
  - apply SELECT_renewal_today_none in Hsel. split.
    + intros day. rewrite renewal_rows_on_insert_any.
      destruct (Z.eqb_spec (CURDATE now) day) as [<- | Hne].
      * rewrite Hsel. simpl. lia.
      * rewrite app_nil_r. apply Hded.
    + rewrite renewal_rows_on_insert_any, Hsel, Z.eqb_refl. reflexivity.
Qed.

Lemma attendance_rows_in_insert (from to userId : Z) (now : Instant) (d : DB) :
  attendance_rows_in from to userId
    (INSERT_notification now userId "attendance" attendance_message d) =
  attendance_rows_in from to userId d ++
    (if (from <=? NOW now) && (NOW now <=? to)
     then [mkNotification (next_id (map n_id (notifications d))) userId "attendance"
                          attendance_message false (NOW now)]
     else []).
Proof.
  unfold attendance_rows_in, INSERT_notification. simpl notifications.
  rewrite filter_app. f_equal. simpl.
  rewrite Z.eqb_refl. simpl. destruct ((from <=? NOW now) && (NOW now <=? to));
    reflexivity.
Qed.

Lemma attendance_rows_in_since (from to userId : Z) (d : DB) (n : Notification) :
  In n (attendance_rows_in from to userId d) ->
  In n (attendance_rows_since from userId d) /\ n_created_at n <= to.
Proof.
  unfold attendance_rows_in, attendance_rows_since. rewrite !filter_In.
  rewrite !andb_true_iff, !Z.leb_le. tauto.
Qed.

Lemma attendance_rows_since_in (from to userId : Z) (d : DB) (n : Notification) :
  In n (attendance_rows_since from userId d) -> n_created_at n <= to ->
  In n (attendance_rows_in from to userId d).
Proof.
  unfold attendance_rows_in, attendance_rows_since. rewrite !filter_In.
  rewrite !andb_true_iff, !Z.leb_le. tauto.
Qed.

Lemma attendance_rows_since_weaken (s1 s2 userId : Z) (d : DB) (n : Notification) :
  s1 <= s2 ->
  In n (attendance_rows_since s2 userId d) -> In n (attendance_rows_since s1 userId d).
Proof.
  unfold attendance_rows_since. rewrite !filter_In, !andb_true_iff, !Z.leb_le.
  intros Hle [Hin [Hu Hc]]. repeat split; try tauto. lia.
Qed.

(** The attendance step, taken no earlier than the latest attendance row
    of the user, keeps the seven-day spans deduplicated and leaves
    exactly one attendance row of the user in its trailing window. *)
Lemma notify_attendance_db_deduped (now : Instant) (userId upto : Z) (d : DB) :
  upto <= NOW now ->
  attendance_deduped userId upto d ->
  attendance_deduped userId (NOW now) (notify_attendance_db now userId d) /\
  List.length (attendance_rows_in (NOW now - seven_days) (NOW now) userId
                                  (notify_attendance_db now userId d)) = 1%nat.
Proof.
  intros Hupto [Hlate Hspan].
  assert (Hpast : forall n from, In n (attendance_rows_since from userId d) ->
                                 n_created_at n <= NOW now).
  { intros n from Hn.
    destruct (Z.le_gt_cases (n_created_at n) upto) as [Hle | Hgt]; [lia |].
    assert (Hn' : In n (attendance_rows_since upto userId d)).
    { unfold attendance_rows_since in *. rewrite filter_In in *.
      rewrite !andb_true_iff in *. rewrite Z.leb_le in *. intuition lia. }
    rewrite (Hlate n Hn'). exact Hupto. }
  unfold notify_attendance_db.
  destruct (SELECT_attendance_recent now userId d) as [id |] eqn:Hsel.
  - split; [split |].
    + intros n Hn. apply Z.le_antisymm; [now apply (Hpast n (NOW now)) |].
      unfold attendance_rows_since in Hn. apply filter_In in Hn as [_ Hc].
      rewrite !andb_true_iff, Z.leb_le in Hc. tauto.
    + exact Hspan.
    + assert (Hne : attendance_rows_since (NOW now - seven_days) userId d <> []).
      { intros Hnil. apply SELECT_attendance_recent_none in Hnil. congruence. }
      specialize (Hspan (NOW now)).
      destruct (attendance_rows_since (NOW now - seven_days) userId d)
        as [| n l] eqn:Hrows; [congruence |].
      assert (Hn : In n (attendance_rows_since (NOW now - seven_days) userId d))
        by (rewrite Hrows; now left).
      pose proof (attendance_rows_since_in _ (NOW now) _ _ _ Hn (Hpast _ _ Hn)) as Hin.
      apply filter_In_length in Hin. unfold attendance_rows_in in *. lia.
  - apply SELECT_attendance_recent_none in Hsel.
    assert (Hempty : forall s, NOW now <= s ->
              attendance_rows_in (s - seven_days) s userId d = []).
    { intros s Hs. apply filter_nil_iff. intros n Hn.
      apply not_true_iff_false. intros Hc.
      assert (Hin : In n (attendance_rows_in (s - seven_days) s userId d))
        by (apply filter_In; auto).
      apply attendance_rows_in_since in Hin as [Hin _].
      apply (attendance_rows_since_weaken (NOW now - seven_days)) in Hin; [| lia].
      rewrite Hsel in Hin. contradiction. }
    split; [split |].
    + intros n Hn. rewrite attendance_rows_since_insert in Hn.
      rewrite Z.leb_refl in Hn. apply in_app_or in Hn as [Hn | [<- | []]];
        [| reflexivity].
      apply Z.le_antisymm; [now apply (Hpast n (NOW now)) |].
      unfold attendance_rows_since in Hn. apply filter_In in Hn as [_ Hc].
      rewrite !andb_true_iff, Z.leb_le in Hc. tauto.
    + intros s. rewrite attendance_rows_in_insert.
      destruct ((s - seven_days <=? NOW now) && (NOW now <=? s)) eqn:Hwin.
      * apply andb_true_iff in Hwin as [_ Hs]. apply Z.leb_le in Hs.
        rewrite (Hempty s Hs). simpl. lia.
      * rewrite app_nil_r. apply Hspan.
    + rewrite attendance_rows_in_insert, (Hempty (NOW now)) by lia.
      rewrite Z.leb_refl.
      assert (Hin : (NOW now - seven_days <=? NOW now) = true)
        by (apply Z.leb_le; unfold seven_days, seconds_per_day; lia).
      rewrite Hin. reflexivity.
Qed.

Lemma db_after_notify_renewal_once `{JsRuntime} (env : Env) (now : Instant)
    (row : ExpiringRow) (w : World) :
  store_available env ->
  db (snd (notify_renewal_once env now row w)) = notify_renewal_db now row (db w).
Proof.
  intros Hup.
  destruct (notify_renewal_once_run env now row w Hup) as [w' [Hrun Hdb]].
  rewrite Hrun. exact Hdb.
Qed.

Lemma db_after_notify_attendance_once (env : Env) (now : Instant) (userId : Z)
    (w : World) :
  store_available env ->
  db (snd (notify_attendance_once env now userId w))
  = notify_attendance_db now userId (db w).
Proof.
  intros Hup.
  destruct (notify_attendance_once_run env now userId w Hup) as [w' [Hrun Hdb]].
  rewrite Hrun. exact Hdb.
Qed.

(** C2. With a store that answers, for every world, user and instants:
    - renewal: a second dedupe-then-insert step for the same user on the
      same calendar day leaves the store as the first step left it, and
      if the day had no renewal row of the user before, it has exactly
      one after both steps;
    - attendance: two steps at most seven days apart add at most one row
      between them; when the first step finds no attendance row of the
      user in its seven-day window it inserts one, the second step
      inserts nothing, and the second step's window holds exactly that
      one row;
    - attendance, after the window: a further step more than seven days
      after the first inserts a second row;
    - each window holds exactly one row: a store in which no day holds
      two renewal rows of the user stays so under the renewal step, and
      the day of the step then holds exactly one; a store in which no
      span of seven days holds two attendance rows of the user stays so
      under the attendance step, and the step's trailing seven days then
      hold exactly one. *)
Theorem notify_once_dedupes `{JsRuntime} (env : Env) (w : World) :
  store_available env ->
  (forall now1 now2 row1 row2,
     er_user_id row1 = er_user_id row2 ->
     CURDATE now1 = CURDATE now2 ->
     let w1 := snd (notify_renewal_once env now1 row1 w) in
     let w2 := snd (notify_renewal_once env now2 row2 w1) in
     db w2 = db w1 /\
     (renewal_rows_on (CURDATE now1) (er_user_id row1) (db w) = [] ->
      List.length (renewal_rows_on (CURDATE now1) (er_user_id row1) (db w2)) = 1%nat))
  /\
  (forall userId now1 now2,
     NOW now1 <= NOW now2 <= NOW now1 + seven_days ->
     let w1 := snd (notify_attendance_once env now1 userId w) in
     let w2 := snd (notify_attendance_once env now2 userId w1) in
     (List.length (notifications (db w2)) <= S (List.length (notifications (db w))))%nat /\
     (attendance_rows_since (NOW now1 - seven_days) userId (db w) = [] ->
      notifications (db w1) =
        notifications (db w) ++ [attendance_row (notifications (db w)) userId now1] /\
      db w2 = db w1 /\
      attendance_rows_since (NOW now2 - seven_days) userId (db w2) =
        [attendance_row (notifications (db w)) userId now1]))
  /\
  (forall userId now1 now2 now3,
     NOW now1 <= NOW now2 <= NOW now1 + seven_days ->
     NOW now1 + seven_days < NOW now3 ->
     attendance_rows_since (NOW now1 - seven_days) userId (db w) = [] ->
     let w1 := snd (notify_attendance_once env now1 userId w) in
     let w2 := snd (notify_attendance_once env now2 userId w1) in
     let w3 := snd (notify_attendance_once env now3 userId w2) in
     notifications (db w3) =
       notifications (db w) ++
         [attendance_row (notifications (db w)) userId now1;
          attendance_row (notifications (db w1)) userId now3])
  /\
  (forall now row,
     renewal_deduped (er_user_id row) (db w) ->
     let w1 := snd (notify_renewal_once env now row w) in
     renewal_deduped (er_user_id row) (db w1) /\
     List.length (renewal_rows_on (CURDATE now) (er_user_id row) (db w1)) = 1%nat)
  /\
  (forall userId now upto,
     upto <= NOW now ->
     attendance_deduped userId upto (db w) ->
     let w1 := snd (notify_attendance_once env now userId w) in
     attendance_deduped userId (NOW now) (db w1) /\
     List.length (attendance_rows_in (NOW now - seven_days) (NOW now) userId (db w1))
       = 1%nat).
Proof.
  intros Hup. split; [| split; [| split; [| split]]].
  - intros now1 now2 row1 row2 Hu Hday w1 w2. subst w1 w2.
    rewrite !db_after_notify_renewal_once by exact Hup.
    rewrite notify_renewal_db_again by assumption.
    split; [reflexivity |]. apply notify_renewal_db_first.
  - intros userId now1 now2 [Hle1 Hle2] w1 w2. subst w1 w2.
    rewrite !db_after_notify_attendance_once by exact Hup.
    destruct (SELECT_attendance_recent now1 userId (db w)) eqn:Hsel.
    + split.
      * unfold notify_attendance_db at 2. rewrite Hsel.
        apply notify_attendance_db_length.
      * intros Hnil. apply SELECT_attendance_recent_none in Hnil. congruence.
    + rewrite notify_attendance_db_again by assumption.
      unfold notify_attendance_db. rewrite Hsel. split.
      * unfold INSERT_notification. simpl. rewrite length_app. simpl. lia.
      * intros Hnil. split; [reflexivity |]. split; [reflexivity |].
        rewrite attendance_rows_since_insert.
        rewrite (attendance_rows_since_mono (NOW now1 - seven_days));
          [| lia | exact Hnil].
        destruct (Z.leb_spec (NOW now2 - seven_days) (NOW now1)); [reflexivity | lia].
  - intros userId now1 now2 now3 [Hle1 Hle2] Hlt Hnil w1 w2 w3. subst w1 w2 w3.
    rewrite !db_after_notify_attendance_once by exact Hup.
    apply SELECT_attendance_recent_none in Hnil as Hsel.
    rewrite (notify_attendance_db_again now1 now2) by assumption.
    unfold notify_attendance_db at 1.
    rewrite notify_attendance_db_after_window by assumption.
    unfold notify_attendance_db. rewrite Hsel.
    unfold INSERT_notification, attendance_row. simpl.
    rewrite <- app_assoc. reflexivity.
  - intros now row Hded w1. subst w1.
    rewrite db_after_notify_renewal_once by exact Hup.
    now apply notify_renewal_db_deduped.
  - intros userId now upto Hupto Hded w1. subst w1.
    rewrite db_after_notify_attendance_once by exact Hup.
    now apply (notify_attendance_db_deduped now userId upto).
Qed.

Lemma notify_once_dedupes_witness :
  let rt := sample_runtime in
  let w := boot attendance_edge_db in
  let w1 := snd (notify_attendance_once env_mail_down (clock 1 9) 2 w) in
  let w5 := snd (notify_attendance_once env_mail_down (clock 5 9) 2 w1) in
  let w9 := snd (notify_attendance_once env_mail_down (clock 9 9) 2 w5) in
  map n_created_at (notifications (db w5)) = [NOW (clock 1 9)] /\
  map n_created_at (notifications (db w9)) = [NOW (clock 1 9); NOW (clock 9 9)].
Proof.
  intros rt w w1 w5 w9.
  destruct (@notify_once_dedupes rt env_mail_down w (fun n => eq_refl))
    as [_ [Hwithin [Hafter _]]].
  split.
  - destruct (Hwithin 2 (clock 1 9) (clock 5 9)) as [_ Hfirst].
    + vm_compute. split; discriminate.
    + destruct (Hfirst eq_refl) as [Hw1 [Hw5 _]].
      fold w1 in Hw1, Hw5. fold w5 in Hw5. rewrite Hw5, Hw1. reflexivity.
  - pose proof (Hafter 2 (clock 1 9) (clock 5 9) (clock 9 9)) as H9.
    cbv zeta in H9. fold w1 w5 w9 in H9. rewrite H9.
    + reflexivity.
    + vm_compute. split; discriminate.
    + vm_compute. reflexivity.
    + reflexivity.
Defined.

(** ** The daily run gate *)

Lemma keeps_schedule_notify_renewal_once `{JsRuntime} env now row :
  keeps_schedule (notify_renewal_once env now row).
Proof.
  unfold notify_renewal_once. apply keeps_schedule_bind; [auto with effects |].
  intros [id |]; [auto with effects | apply keeps_schedule_addNotification].
Qed.

Lemma keeps_schedule_remind_low_attendance env now userId :
  keeps_schedule (remind_low_attendance env now userId).
Proof.
  unfold remind_low_attendance, notify_attendance_once.
  apply keeps_schedule_bind; [auto with effects |].
  intros count. destruct (count <? 2); [| auto with effects].
  apply keeps_schedule_bind; [auto with effects |].
  intros [id |]; [auto with effects | apply keeps_schedule_addNotification].
Qed.

Lemma keeps_schedule_activateExpireTasks env now :
  keeps_schedule (activateExpireTasks env now).
Proof. unfold activateExpireTasks. auto with effects. Qed.

Lemma completes_once_bind {A} (m : Async A) (k : A -> Async unit) :
  keeps_schedule m -> (forall a, completes_once (k a)) -> completes_once (bind m k).
Proof.
  intros Hm Hk w. unfold bind. specialize (Hm w).
  destruct (m w) as [[a | e] w1]; simpl in Hm; [| exact Hm].
  specialize (Hk a w1). destruct (k a w1) as [[u | e] w2];
    unfold same_schedule in *; intuition congruence.
Qed.

(** What one run of [dailyNotificationTasks] does to the scheduler's
    state and to the instrumentation. *)
Lemma dailyNotificationTasks_effect `{JsRuntime} (env : Env) (now : Instant)
    (w w' : World) (r : Completion unit) :
  dailyNotificationTasks env now w = (r, w') ->
  lastDailyRunKey w' = lastDailyRunKey w /\
  daily_entered w' = S (daily_entered w) /\
  daily_completed w' =
    match r with
    | Normal _ => S (daily_completed w)
    | Throw _ => daily_completed w
    end.
Proof.
  unfold dailyNotificationTasks. unfold bind at 1.
  match goal with
  | |- context [bind (pool_query env (SELECT_expiring now)) ?k] =>
      assert (Hrest : completes_once (bind (pool_query env (SELECT_expiring now)) k))
  end.
  { apply completes_once_bind; [auto with effects |]. intros expiring.
    apply completes_once_bind.
    { apply keeps_schedule_for_of. intros row.
      apply keeps_schedule_notify_renewal_once. }
    intros _. apply completes_once_bind; [auto with effects |]. intros members.
    apply completes_once_bind.
    { apply keeps_schedule_for_of. intros u.
      apply keeps_schedule_remind_low_attendance. }
    intros _. apply completes_once_bind; [auto with effects |].
    intros _ w0. simpl. repeat split. }
  specialize (Hrest (count_daily_entry w)). intros Hrun.
  rewrite Hrun in Hrest.
  destruct r as [u | e]; unfold same_schedule in Hrest; simpl in Hrest;
    intuition congruence.
Qed.

Lemma todayKey_same_day (a b : Instant) : same_day a b -> todayKey a = todayKey b.
Proof. intros [Hy [Hm Hd]]. unfold todayKey. now rewrite Hy, Hm, Hd. Qed.

Lemma key_differs_spec (last : option string) (key : string) :
  key_differs last key = true <-> last <> Some key.
Proof.
  unfold key_differs. destruct last as [k |].
  - destruct (String.eqb_spec k key); simpl; split; congruence.
  - split; [discriminate | reflexivity].
Qed.

Lemma shouldRunDaily_spec (env : Env) (now : Instant) (last : option string) :
  shouldRunDaily env now last = true <->
  DAILY_RUN_HOUR env <= getHours now /\ last <> Some (todayKey now).
Proof.
  unfold shouldRunDaily. rewrite andb_true_iff, Z.leb_le, key_differs_spec. tauto.
Qed.

(** What one hourly tick does, by cases on the sweep, the gate and the
    outcome of the daily job. *)
Lemma runHourlyTasks_cases `{JsRuntime} (env : Env) (now : Instant)
    (w w' : World) (r : Completion unit) :
  runHourlyTasks env now w = (r, w') ->
  r = Normal tt /\
  ((* the sweep threw, or the gate was closed *)
   ((fst (activateExpireTasks env now w) = Normal tt ->
     shouldRunDaily env now (lastDailyRunKey w) = false) /\
    same_schedule w w')
   \/
   (* the gate admitted the daily job *)
   (fst (activateExpireTasks env now w) = Normal tt /\
    shouldRunDaily env now (lastDailyRunKey w) = true /\
    daily_entered w' = S (daily_entered w) /\
    let daily := dailyNotificationTasks env now (snd (activateExpireTasks env now w)) in
    ((fst daily = Normal tt /\
      daily_completed w' = S (daily_completed w) /\
      lastDailyRunKey w' = Some (todayKey now))
     \/
     (fst daily <> Normal tt /\
      daily_completed w' = daily_completed w /\
      lastDailyRunKey w' = lastDailyRunKey w)))).
Proof.
  unfold runHourlyTasks, try_catch. unfold bind at 1.
  pose proof (keeps_schedule_activateExpireTasks env now w) as Hs.
  destruct (activateExpireTasks env now w) as [[[] | e] w1]; simpl in Hs |- *.
  - destruct Hs as [Hk [He Hc]]. rewrite Hk.
    destruct (shouldRunDaily env now (lastDailyRunKey w)) eqn:Hgate.
    + unfold bind.
      destruct (dailyNotificationTasks env now w1) as [r1 w2] eqn:Hrun.
      apply dailyNotificationTasks_effect in Hrun as [Hk2 [He2 Hc2]].
      destruct r1 as [[] | e1]; simpl; intros Heq; injection Heq as <- <-;
        simpl; (split; [reflexivity |]); right;
        (split; [reflexivity |]); (split; [reflexivity |]);
        (split; [congruence |]).
      * left. repeat split; congruence.
      * right. repeat split; congruence.
    + intros Heq. injection Heq as <- <-. split; [reflexivity |].
      left. split; [reflexivity |]. repeat split; assumption.
  - unfold console_log. intros Heq. injection Heq as <- <-.
    split; [reflexivity |]. left. split; [discriminate |].
    destruct Hs as [Hk [He Hc]]. repeat split; assumption.
Qed.

Lemma returns_ret {A} (a : A) : returns (ret a).
Proof. intros w. exists a. reflexivity. Qed.

Lemma returns_bind {A B} (m : Async A) (k : A -> Async B) :
  returns m -> (forall a, returns (k a)) -> returns (bind m k).
Proof.
  intros Hm Hk w. unfold bind. destruct (Hm w) as [a Ha].
  destruct (m w) as [r w1]. simpl in Ha. subst r. apply Hk.
Qed.

Lemma returns_for_of {A} (xs : list A) (body : A -> Async unit) :
  (forall x, returns (body x)) -> returns (for_of xs body).
Proof.
  intros Hb. induction xs as [| x xs IH]; simpl.
  - apply returns_ret.
  - apply returns_bind; auto.
Qed.

Lemma returns_pool_query {A} (env : Env) (stmt : DB -> A) :
  store_available env -> returns (pool_query env stmt).
Proof.
  intros Hup w. unfold pool_query. rewrite Hup. eexists. reflexivity.
Qed.

Lemma returns_notify_renewal_once `{JsRuntime} env now row :
  store_available env -> returns (notify_renewal_once env now row).
Proof.
  intros Hup w. destruct (notify_renewal_once_run env now row w Hup) as [w' [Hrun _]].
  rewrite Hrun. exists tt. reflexivity.
Qed.

Lemma returns_remind_low_attendance env now userId :
  store_available env -> returns (remind_low_attendance env now userId).
Proof.
  intros Hup. unfold remind_low_attendance.
  apply returns_bind; [now apply returns_pool_query |].
  intros count. destruct (count <? 2); [| apply returns_ret].
  intros w. destruct (notify_attendance_once_run env now userId w Hup) as [w' [Hrun _]].
  rewrite Hrun. exists tt. reflexivity.
Qed.

Lemma dailyNotificationTasks_returns `{JsRuntime} env now w :
  store_available env -> fst (dailyNotificationTasks env now w) = Normal tt.
Proof.
  intros Hup.
  assert (Hr : returns (dailyNotificationTasks env now)).
  { unfold dailyNotificationTasks.
    apply returns_bind; [intros w0; exists tt; reflexivity |]. intros _.
    apply returns_bind; [now apply returns_pool_query |]. intros expiring.
    apply returns_bind.
    { apply returns_for_of. intros row. now apply returns_notify_renewal_once. }
    intros _. apply returns_bind; [now apply returns_pool_query |]. intros members.
    apply returns_bind.
    { apply returns_for_of. intros u. now apply returns_remind_low_attendance. }
    intros _. apply returns_bind; [intros w0; exists tt; reflexivity |].
    intros _ w0. exists tt. reflexivity. }
  destruct (Hr w) as [[] Ha]. exact Ha.
Qed.

Lemma run_ticks_app `{JsRuntime} env (pre post : list Instant) (w : World) :
  run_ticks env (pre ++ post) w = run_ticks env post (run_ticks env pre w).
Proof.
  revert w. induction pre as [| now pre IH]; intros w; simpl; [reflexivity | apply IH].
Qed.

(** Once today's key is recorded, later ticks of the day leave the
    scheduler's state alone. *)
Lemma ticks_after_completion `{JsRuntime} env (day : Instant) (ticks : list Instant)
    (w : World) :
  Forall (same_day day) ticks ->
  lastDailyRunKey w = Some (todayKey day) ->
  same_schedule w (run_ticks env ticks w).
Proof.
  intros Hday. revert w. induction Hday as [| now rest Hnow Hrest IH]; intros w Hkey.
  - apply same_schedule_refl.
  - simpl. destruct (runHourlyTasks env now w) as [r w1] eqn:Hrun.
    apply runHourlyTasks_cases in Hrun as [_ [[_ Hs] | [_ [Hgate _]]]].
    + simpl. eapply same_schedule_trans; [exact Hs |].
      apply IH. destruct Hs as [Hk _]. congruence.
    + apply shouldRunDaily_spec in Hgate as [_ Hne].
      rewrite (todayKey_same_day day now Hnow) in Hkey. contradiction.
Qed.

(** Over the ticks of one day the daily job completes at most once, and
    when it has completed today's key is recorded. *)
Lemma one_completion_per_day `{JsRuntime} env (day : Instant) (ticks : list Instant)
    (w : World) :
  Forall (same_day day) ticks ->
  let w' := run_ticks env ticks w in
  (daily_completed w' = daily_completed w \/
   daily_completed w' = S (daily_completed w) /\
   lastDailyRunKey w' = Some (todayKey day)).
Proof.
  intros Hday. revert w. induction Hday as [| now rest Hnow Hrest IH]; intros w.
  - left. reflexivity.
  - simpl. destruct (runHourlyTasks env now w) as [r w1] eqn:Hrun.
    apply runHourlyTasks_cases in Hrun
      as [_ [[_ Hs] | [_ [_ [_ [[_ [Hc Hk]] | [_ [Hc Hk]]]]]]]]; simpl.
    + destruct Hs as [_ [_ Hc]]. specialize (IH w1). simpl in IH.
      rewrite Hc in IH. exact IH.
    + right. rewrite (todayKey_same_day day now Hnow).
      rewrite <- Hk in *.
      pose proof (ticks_after_completion env now rest w1) as Hafter.
      assert (Hrest' : Forall (same_day now) rest).
      { eapply Forall_impl; [| exact Hrest]. intros t [Hy [Hm Hd]].
        destruct Hnow as [Hy' [Hm' Hd']]. repeat split; congruence. }
      destruct (Hafter Hrest' Hk) as [Hk' [_ Hc']].
      split; congruence.
    + specialize (IH w1). simpl in IH. rewrite Hc in IH. exact IH.
Qed.

(** With a store that answers, the daily job is entered at most once
    over the ticks of one day. *)
Lemma one_entry_per_day `{JsRuntime} env (day : Instant) (ticks : list Instant)
    (w : World) :
  store_available env ->
  Forall (same_day day) ticks ->
  (daily_entered (run_ticks env ticks w) <= S (daily_entered w))%nat.
Proof.
  intros Hup Hday. revert w. induction Hday as [| now rest Hnow Hrest IH]; intros w.
  - simpl. lia.
  - simpl. destruct (runHourlyTasks env now w) as [r w1] eqn:Hrun.
    apply runHourlyTasks_cases in Hrun
      as [_ [[_ Hs] | [_ [_ [He [[_ [Hc Hk]] | [Hthrow _]]]]]]]; simpl.
    + destruct Hs as [_ [He _]]. specialize (IH w1). rewrite He in IH. exact IH.
    + assert (Hrest' : Forall (same_day now) rest).
      { eapply Forall_impl; [| exact Hrest]. intros t [Hy [Hm Hd]].
        destruct Hnow as [Hy' [Hm' Hd']]. repeat split; congruence. }
      destruct (ticks_after_completion env now rest w1 Hrest' Hk) as [_ [He' _]].
      rewrite He', He. lia.
    + exfalso. apply Hthrow. now apply dailyNotificationTasks_returns.
Qed.

(** C3, amended. For every deployment, world and sequence of hourly ticks
    within one calendar day, with nothing else touching the process:
    - the gate admits iff now.hour >= the configured hour and the
      recorded key differs from today's key;
    - at each tick the daily job is entered exactly when the sweep
      completed and the gate admits, hence never at a tick whose hour is
      below the configured hour; the key moves to today's key exactly
      when the job ran to its end and is unchanged otherwise;
    - over the day the job runs to its end at most once, and after it
      has, no later tick of the day enters it; a run that fails is
      entered again at the next admitted tick, so the number of entries
      is at most one only when no run fails, as with a store that
      answers every call. *)
Theorem daily_run_gate `{JsRuntime} (env : Env) (day : Instant)
    (ticks : list Instant) (w : World) :
  Forall (same_day day) ticks ->
  (forall now last,
     shouldRunDaily env now last = true <->
     DAILY_RUN_HOUR env <= getHours now /\ last <> Some (todayKey now)) /\
  (forall now w0,
     let w1 := snd (runHourlyTasks env now w0) in
     fst (runHourlyTasks env now w0) = Normal tt /\
     (daily_entered w1 = S (daily_entered w0) <->
      fst (activateExpireTasks env now w0) = Normal tt /\
      shouldRunDaily env now (lastDailyRunKey w0) = true) /\
     (daily_entered w1 = daily_entered w0 \/ daily_entered w1 = S (daily_entered w0)) /\
     (getHours now < DAILY_RUN_HOUR env -> daily_entered w1 = daily_entered w0) /\
     (daily_completed w1 = S (daily_completed w0) /\
      lastDailyRunKey w1 = Some (todayKey now)
      \/
      daily_completed w1 = daily_completed w0 /\
      lastDailyRunKey w1 = lastDailyRunKey w0)) /\
  (daily_completed (run_ticks env ticks w) <= S (daily_completed w))%nat /\
  (forall pre post,
     ticks = pre ++ post ->
     daily_completed (run_ticks env pre w) = S (daily_completed w) ->
     daily_entered (run_ticks env ticks w) = daily_entered (run_ticks env pre w)) /\
  (store_available env ->
   (daily_entered (run_ticks env ticks w) <= S (daily_entered w))%nat).
Proof.
  intros Hday. split; [| split; [| split; [| split]]].
  - intros now last. apply shouldRunDaily_spec.
  - intros now w0 w1. subst w1.
    destruct (runHourlyTasks env now w0) as [r w1] eqn:Hrun. simpl.
    apply runHourlyTasks_cases in Hrun
      as [Hr [[Hclosed [Hk [He Hc]]] | [Hsweep [Hgate [He Hdaily]]]]].
    + split; [exact Hr |]. split; [| split; [| split]].
      * split; [intros Hent; rewrite He in Hent; lia |].
        intros [Hsweep Hgate]. specialize (Hclosed Hsweep). congruence.
      * left. exact He.
      * intros _. exact He.
      * right. split; assumption.
    + split; [exact Hr |]. split; [| split; [| split]].
      * split; auto.
      * right. exact He.
      * intros Hhour. apply shouldRunDaily_spec in Hgate as [Hle _]. lia.
      * cbv zeta in Hdaily.
        destruct Hdaily as [[_ [Hc Hk]] | [_ [Hc Hk]]]; [left | right]; auto.
  - pose proof (one_completion_per_day env day ticks w Hday) as Hone.
    cbv zeta in Hone. destruct Hone as [Hc | [Hc _]]; lia.
  - intros pre post Heq Hdone. subst ticks.
    apply Forall_app in Hday as [Hpre Hpost].
    pose proof (one_completion_per_day env day pre w Hpre) as Hone.
    cbv zeta in Hone. destruct Hone as [Hc | [_ Hk]]; [lia |].
    rewrite run_ticks_app.
    destruct (ticks_after_completion env day post (run_ticks env pre w) Hpost Hk)
      as [_ [He _]].
    exact He.
  - intros Hup. now apply (one_entry_per_day env day).
Qed.

Lemma daily_run_gate_witness :
  let ticks := [clock 9 8; clock 9 9; clock 9 10; clock 9 11] in
  let w' := @run_ticks sample_runtime env_up ticks (boot sample_db) in
  (daily_completed w' <= 1)%nat /\ (daily_entered w' <= 1)%nat.
Proof.
  intros ticks w'.
  destruct (@daily_run_gate sample_runtime env_up (clock 9 0) ticks (boot sample_db))
    as [_ [_ [Hdone [_ Hentered]]]].
  - repeat constructor.
  - split; [exact Hdone | apply Hentered; intros n; reflexivity].
Defined.

(** C3 as stated fails: the first admitted tick of the day enters the
    daily job, whose first query the store rejects; the key stays as it
    was and the next tick of the same day enters the job a second time. *)
Lemma daily_job_entered_twice_in_one_day :
  let ticks := [clock 9 9; clock 9 10] in
  let w' := @run_ticks sample_runtime env_third_call_fails ticks (boot sample_db) in
  Forall (same_day (clock 9 0)) ticks /\
  Forall (fun now => DAILY_RUN_HOUR env_third_call_fails <= getHours now) ticks /\
  daily_entered (boot sample_db) = 0%nat /\
  daily_entered w' = 2%nat /\
  daily_completed w' = 1%nat.
Proof.
  cbv zeta. split; [repeat constructor |]. split.
  - repeat constructor; vm_compute; discriminate.
  - vm_compute. repeat split.
Qed.

(** ** Body-mass index *)

Lemma calcBMI_cases `{JsRuntime} (height_cm weight_kg : JsValue) :
  calcBMI height_cm weight_kg =
  if weight_present weight_kg && height_present height_cm
  then JsNum (Number_toFixed2 (bmi_quotient (Number weight_kg) (Number height_cm)))
  else JsNull.
Proof.
  unfold calcBMI, weight_present, height_present, bmi_quotient, height_in_metres.
  destruct (ToBoolean height_cm); destruct (ToBoolean weight_kg); simpl;
    try reflexivity.
  destruct (is_zero (Number height_cm / hundred) || is_nan (Number height_cm / hundred));
    reflexivity.
Qed.

(** [nearest_double] agrees with the reading of decimal literals on the
    hundredths used below. *)
Lemma hundredths_examples :
  hundredths 2500 = 25%float /\ hundredths 1937 = 19.37%float /\
  hundredths 1938 = 19.38%float /\ hundredths 1 = 0.01%float /\
  hundredths 99999 = 999.99%float /\ hundredths 0 = zero.
Proof. repeat split; vm_compute; reflexivity. Qed.

(** From 10^21 on a number is an integer: its exponent is not negative. *)
Lemma ten_pow_21_exponent (x : float) (s : bool) (m : positive) (e : Z) :
  Prim2SF x = S754_finite s m e ->
  (ten_pow_21 <=? abs x)%float = true -> 0 <= e.
Proof.
  intros Hx Hbig. rewrite leb_spec, abs_spec, Hx in Hbig.
  set (t := Prim2SF ten_pow_21) in Hbig. vm_compute in t. subst t.
  unfold SFleb, SFcompare, SFabs in Hbig.
  destruct (Z.compare_spec 17 e) as [He | He | He]; try lia; discriminate Hbig.
Qed.

(** What [Number(x.toFixed(2))] returns is [x] rounded to two decimals. *)
Lemma Number_toFixed2_rounds (x : float) :
  rounded_to_2_decimals x (Number_toFixed2 x).
Proof.
  unfold rounded_to_2_decimals, Number_toFixed2.
  destruct (Prim2SF x) as [s | s | | s m e] eqn:Hx; try reflexivity.
  destruct (ten_pow_21 <=? abs x)%float eqn:Hbig.
  - left. split; [| reflexivity]. exact (ten_pow_21_exponent x s m e Hx Hbig).
  - right. exists (toFixed2_digits m e). split; [| reflexivity].
    unfold nearest_hundredth, toFixed2_digits.
    destruct (0 <=? e) eqn:He.
    + apply Z.leb_le in He.
      rewrite Z.max_l, Z.max_r by lia. rewrite Z.pow_0_r.
      assert (HP : 0 < 2 ^ e) by (apply Z.pow_pos_nonneg; lia).
      set (K := Zpos m * 2 ^ e).
      assert (HK : 0 <= K) by (unfold K; apply Z.mul_nonneg_nonneg; lia).
      replace (100 * Zpos m * 2 ^ e) with (100 * K) by (unfold K; ring).
      replace (200 * Zpos m * 2 ^ e) with (200 * K) by (unfold K; ring).
      lia.
    + apply Z.leb_gt in He.
      rewrite Z.max_r, Z.max_l by lia. rewrite Z.pow_0_r.
      replace (1 - e) with (Z.succ (- e)) by lia.
      rewrite Z.pow_succ_r by lia.
      set (D := 2 ^ (- e)).
      assert (HD : 0 < D) by (apply Z.pow_pos_nonneg; lia).
      pose proof (Z.mul_div_le (200 * Zpos m + D) (2 * D)) as Hlo.
      pose proof (Z.mul_succ_div_gt (200 * Zpos m + D) (2 * D)) as Hhi.
      assert (Hn : 0 <= (200 * Zpos m + D) / (2 * D)) by (apply Z.div_pos; lia).
      set (n := (200 * Zpos m + D) / (2 * D)) in *.
      split; [exact Hn |].
      assert (Hlo' : 2 * D * n <= 200 * Zpos m + D) by (apply Hlo; lia).
      assert (Hhi' : 200 * Zpos m + D < 2 * D * Z.succ n) by (apply Hhi; lia).
      replace (2 * n * D) with (2 * D * n) by ring.
      replace (2 * D * Z.succ n) with (2 * D * n + 2 * D) in Hhi' by ring.
      set (P := 2 * D * n) in *. lia.
Qed.

(** A number that compares equal to zero is a zero. *)
Lemma is_zero_Prim2SF (z : float) :
  is_zero z = true -> exists s, Prim2SF z = S754_zero s.
Proof.
  unfold is_zero. rewrite eqb_spec.
  replace (Prim2SF zero) with (S754_zero false) by reflexivity.
  destruct (Prim2SF z) as [s | s | | s m e]; simpl; intros Hz;
    try discriminate; eauto; destruct s; discriminate.
Qed.

(** Dividing by zero gives an infinity or NaN. *)
Lemma div_by_zero (x z : float) :
  is_zero z = true ->
  (x / z)%float = infinity \/ (x / z)%float = neg_infinity \/ (x / z)%float = nan.
Proof.
  intros Hz. destruct (is_zero_Prim2SF z Hz) as [sz Hz'].
  pose proof (div_spec x z) as Hq. rewrite Hz' in Hq.
  rewrite <- (SF2Prim_Prim2SF (x / z)), Hq.
  destruct (Prim2SF x) as [s | s | | s m e]; try destruct s; destruct sz;
    simpl; auto.
Qed.

Lemma Number_toFixed2_not_finite :
  Number_toFixed2 infinity = infinity /\
  Number_toFixed2 neg_infinity = neg_infinity /\
  Number_toFixed2 nan = nan.
Proof. repeat split; vm_compute; reflexivity. Qed.

(** C10. [calcBMI] is total: it returns null or a number on every input.
    It returns null exactly when the height or the weight is falsy (null,
    undefined, the empty string, 0, -0 or NaN) or the height is zero
    metres, so zero counts as missing; otherwise it returns the quotient
    rounded to two decimals. It does divide by zero, when the height in
    metres is not zero and its square is: the result is then Infinity,
    -Infinity or NaN, never an error. *)
Theorem calcBMI_null_on_falsy `{JsRuntime} (height_cm weight_kg : JsValue) :
  (calcBMI height_cm weight_kg = JsNull <->
   ToBoolean height_cm = false \/ ToBoolean weight_kg = false \/
   ToBoolean (JsNum (height_in_metres (Number height_cm))) = false) /\
  (calcBMI height_cm weight_kg = JsNull \/
   exists y, calcBMI height_cm weight_kg = JsNum y /\
             rounded_to_2_decimals
               (bmi_quotient (Number weight_kg) (Number height_cm)) y) /\
  (is_zero (height_in_metres (Number height_cm) * height_in_metres (Number height_cm))
     = true ->
   calcBMI height_cm weight_kg = JsNull \/
   calcBMI height_cm weight_kg = JsNum infinity \/
   calcBMI height_cm weight_kg = JsNum neg_infinity \/
   calcBMI height_cm weight_kg = JsNum nan) /\
  ToBoolean (JsNum zero) = false /\ ToBoolean (JsNum neg_zero) = false /\
  ToBoolean (JsNum nan) = false /\ ToBoolean JsNull = false /\
  ToBoolean JsUndefined = false /\ ToBoolean (JsStr "") = false.
Proof.
  split; [| split; [| split; [| repeat split]]].
  - rewrite calcBMI_cases. unfold weight_present, height_present.
    destruct (ToBoolean height_cm), (ToBoolean weight_kg),
      (ToBoolean (JsNum (height_in_metres (Number height_cm)))); simpl;
      split; try discriminate; auto;
      intros [Hf | [Hf | Hf]]; discriminate.
  - rewrite calcBMI_cases. destruct (_ && _); [right | now left].
    eexists. split; [reflexivity | apply Number_toFixed2_rounds].
  - intros Hz. rewrite calcBMI_cases. destruct (_ && _); [right | now left].
    unfold bmi_quotient.
    destruct Number_toFixed2_not_finite as [Hinf [Hneg Hnan]].
    destruct (div_by_zero (Number weight_kg) _ Hz) as [-> | [-> | ->]].
    + left. now rewrite Hinf.
    + right. left. now rewrite Hneg.
    + right. right. now rewrite Hnan.
Qed.

Lemma calcBMI_null_on_falsy_witness :
  @calcBMI sample_runtime (JsNum zero) (JsNum 81%float) = JsNull /\
  @calcBMI sample_runtime (JsNum 180%float) (JsNum neg_zero) = JsNull /\
  @calcBMI sample_runtime (JsStr "0") (JsNum 81%float) = JsNull /\
  (@calcBMI sample_runtime (JsNum 0x1p-700%float) (JsNum 81%float) = JsNull \/
   @calcBMI sample_runtime (JsNum 0x1p-700%float) (JsNum 81%float) = JsNum infinity \/
   @calcBMI sample_runtime (JsNum 0x1p-700%float) (JsNum 81%float)
     = JsNum neg_infinity \/
   @calcBMI sample_runtime (JsNum 0x1p-700%float) (JsNum 81%float) = JsNum nan).
Proof.
  split; [| split; [| split]].
  - apply (@calcBMI_null_on_falsy sample_runtime). left. reflexivity.
  - apply (@calcBMI_null_on_falsy sample_runtime). right. left. reflexivity.
  - apply (@calcBMI_null_on_falsy sample_runtime). right. right. reflexivity.
  - apply (@calcBMI_null_on_falsy sample_runtime). reflexivity.
Defined.

(** A height of 2^-700 cm is truthy and a non-zero number of metres, yet
    the square of the metres rounds to zero: the weight is divided by
    zero and the result is Infinity, not null. *)
Lemma calcBMI_divides_by_zero :
  let height_cm := JsNum 0x1p-700%float in
  let weight_kg := JsNum 81%float in
  let h := height_in_metres (@Number sample_runtime height_cm) in
  ToBoolean height_cm = true /\ ToBoolean weight_kg = true /\
  ToBoolean (JsNum h) = true /\ is_zero (h * h) = true /\
  @calcBMI sample_runtime height_cm weight_kg = JsNum infinity.
Proof. cbv zeta. repeat split; vm_compute; reflexivity. Qed.

Lemma known_height_filter (userId : Z) (d : DB) (r : HealthMetric) :
  In r (filter (fun h => (h_user_id h =? userId) && is_not_null (h_height_cm h))
               (health_metrics d)) <->
  known_height userId d r.
Proof.
  unfold known_height. rewrite filter_In, andb_true_iff, Z.eqb_eq. tauto.
Qed.

Lemma SELECT_last_height_spec (userId : Z) (d : DB) :
  match SELECT_last_height userId d with
  | Some v => most_recent_known_height userId d v
  | None => forall r, ~ known_height userId d r
  end.
Proof.
  unfold SELECT_last_height.
  match goal with
  | |- context [ORDER_BY_DESC_LIMIT_1 ?k ?l] =>
      pose proof (ORDER_BY_DESC_LIMIT_1_spec k l) as Hspec;
      destruct (ORDER_BY_DESC_LIMIT_1 k l) as [r |]
  end; simpl.
  - destruct Hspec as [Hin Hmax]. exists r. split; [now apply known_height_filter |].
    split; [reflexivity |]. intros r' Hr'. apply Hmax. now apply known_height_filter.
  - intros r Hr. apply known_height_filter in Hr. rewrite Hspec in Hr. contradiction.
Qed.

Lemma same_health_key_spec (a b : HealthMetric) :
  same_health_key a b = true <->
  h_user_id a = h_user_id b /\ h_entry_date a = h_entry_date b.
Proof. unfold same_health_key. rewrite andb_true_iff, !Z.eqb_eq. tauto. Qed.

(** After the upsert the row is stored, and it is the only row under its
    key. *)
Lemma ON_DUPLICATE_KEY_UPDATE_spec (row : HealthMetric) (d : DB) :
  In row (health_metrics (ON_DUPLICATE_KEY_UPDATE row d)) /\
  forall r, In r (health_metrics (ON_DUPLICATE_KEY_UPDATE row d)) ->
            h_user_id r = h_user_id row -> h_entry_date r = h_entry_date row ->
            r = row.
Proof.
  unfold ON_DUPLICATE_KEY_UPDATE. simpl.
  destruct (existsb (same_health_key row) (health_metrics d)) eqn:Hex.
  - split.
    + apply existsb_exists in Hex as [x [Hin Hkey]].
      apply in_map_iff. exists x. rewrite Hkey. auto.
    + intros r Hr Hu He. apply in_map_iff in Hr as [x [Hx Hin]].
      destruct (same_health_key row x) eqn:Hkey; [now symmetry |].
      subst x. assert (same_health_key row r = true)
        by (apply same_health_key_spec; auto).
      congruence.
  - split.
    + apply in_or_app. right. left. reflexivity.
    + intros r Hr Hu He. apply in_app_or in Hr as [Hr | [Hr | []]]; [| now symmetry].
      assert (Hex' : existsb (same_health_key row) (health_metrics d) = true).
      { apply existsb_exists. exists r. split; [assumption |].
        apply same_health_key_spec. auto. }
      congruence.
Qed.

(** The row the server keeps has the key of the parameters, and each of
    its columns holds what the server made of its parameter. *)
Lemma health_row_columns `{SqlServer} (params row : HealthMetric) :
  health_row params = Some row ->
  h_user_id row = h_user_id params /\
  h_entry_date row = h_entry_date params /\
  stored_in DECIMAL_5_2 (h_weight_kg params) = Some (h_weight_kg row) /\
  stored_in DECIMAL_5_2 (h_height_cm params) = Some (h_height_cm row) /\
  stored_in DECIMAL_5_2 (h_bmi params) = Some (h_bmi row) /\
  stored_in INT_11 (h_heart_rate_bpm params) = Some (h_heart_rate_bpm row) /\
  stored_in INT_11 (h_calories_intake params) = Some (h_calories_intake row).
Proof.
  unfold health_row.
  destruct (stored_in DECIMAL_5_2 (h_weight_kg params)); [| discriminate].
  destruct (stored_in DECIMAL_5_2 (h_height_cm params)); [| discriminate].
  destruct (stored_in DECIMAL_5_2 (h_bmi params)); [| discriminate].
  destruct (stored_in INT_11 (h_heart_rate_bpm params)); [| discriminate].
  destruct (stored_in INT_11 (h_calories_intake params)); [| discriminate].
  intros [= <-]. simpl. repeat split; reflexivity.
Qed.

Lemma calcBMI_passed `{JsRuntime} (height_cm weight_kg : JsValue) :
  bmi_passed weight_kg height_cm (calcBMI height_cm weight_kg).
Proof.
  unfold bmi_passed. rewrite calcBMI_cases. destruct (_ && _); [| reflexivity].
  eexists. split; [reflexivity | apply Number_toFixed2_rounds].
Qed.

(** Every run of [POST /health] on a body: either a store call was
    rejected, 500 is sent and nothing is written; or the height is
    settled, and the server either keeps the row or fails the statement
    for one of its values. *)
Lemma post_health_run `{JsRuntime} `{SqlServer} (env : Env) (now : Instant)
    (userId : Z) (form : HealthForm) (w : World) :
  exists r w',
    post_health env now userId (Some form) w = (Normal r, w') /\
    ((r = res_status_send 500 "Server error" /\ db w' = db w /\
      exists n, store_rejects env n = true) \/
     exists height,
       height_used userId form (db w) height /\
       match health_row
               (health_params now userId form height
                  (calcBMI height (number_or_null (f_weight_kg form)))) with
       | Some row =>
           r = res_redirect "/health" /\ db w' = ON_DUPLICATE_KEY_UPDATE row (db w)
       | None => r = res_status_send 500 "Server error" /\ db w' = db w
       end).
Proof.
  pose proof (SELECT_last_height_spec userId (db w)) as Hlast.
  unfold post_health, destructure, try_catch, bind, ret, pool_query, pool_insert,
    console_log, UPSERT_health_metric.
  destruct (ToBoolean (number_or_null (f_height_cm form))) eqn:Hsub;
    cbn [negb]; cbv beta iota.
  - destruct (store_rejects env (store_calls w)) eqn:Hc0.
    + eexists _, _. split; [reflexivity |]. left.
      split; [reflexivity |]. split; [reflexivity |]. now exists (store_calls w).
    + fold (health_params now userId form (number_or_null (f_height_cm form))
              (calcBMI (number_or_null (f_height_cm form))
                       (number_or_null (f_weight_kg form)))).
      destruct (health_row _) as [row |] eqn:Hrow.
      * eexists _, _. split; [reflexivity |]. right.
        exists (number_or_null (f_height_cm form)).
        split; [left; split; [exact Hsub | reflexivity] |].
        rewrite Hrow. split; reflexivity.
      * eexists _, _. split; [reflexivity |]. right.
        exists (number_or_null (f_height_cm form)).
        split; [left; split; [exact Hsub | reflexivity] |].
        rewrite Hrow. split; reflexivity.
  - destruct (store_rejects env (store_calls w)) eqn:Hc0.
    + eexists _, _. split; [reflexivity |]. left.
      split; [reflexivity |]. split; [reflexivity |]. now exists (store_calls w).
    + cbn [store_calls count_store_call db].
      destruct (store_rejects env (S (store_calls w))) eqn:Hc1.
      * eexists _, _. split; [reflexivity |]. left.
        split; [reflexivity |]. split; [reflexivity |]. now exists (S (store_calls w)).
      * set (height := match SELECT_last_height userId (db w) with
                       | Some h => js_or h JsNull
                       | None => JsNull
                       end).
        assert (Hused : height_used userId form (db w) height).
        { right. split; [exact Hsub |]. unfold height.
          destruct (SELECT_last_height userId (db w)) as [v |].
          - left. exists v. auto.
          - right. auto. }
        fold (health_params now userId form height
                (calcBMI height (number_or_null (f_weight_kg form)))).
        destruct (health_row _) as [row |] eqn:Hrow.
        -- eexists _, _. split; [reflexivity |]. right. exists height.
           split; [exact Hused |]. rewrite Hrow. split; reflexivity.
        -- eexists _, _. split; [reflexivity |]. right. exists height.
           split; [exact Hused |]. rewrite Hrow. split; reflexivity.
Qed.

(** C9. With a store that answers, [POST /health] settles the height (the
    submitted one, else the most recent known one, else null) and hands
    the store a BMI that is null when the weight or the height is
    missing, and otherwise the binary64 quotient of the weight by the
    square of the height in metres, rounded to two decimals. When the
    server accepts the values, the row is stored under (user, entry
    date), alone under that key, each measurement as the [decimal(5,2)]
    column holds it, a null BMI as NULL, and the answer is a redirect to
    [/health]; when it refuses one, the answer is 500 and nothing is
    written. A height of 180 cm with a weight of 81 kg gives 25. *)
Theorem post_health_stores_bmi `{JsRuntime} `{SqlServer} (env : Env) (now : Instant)
    (userId : Z) (form : HealthForm) (w : World) :
  store_available env ->
  exists height bmi r w',
    post_health env now userId (Some form) w = (Normal r, w') /\
    height_used userId form (db w) height /\
    bmi_passed (number_or_null (f_weight_kg form)) height bmi /\
    match health_row (health_params now userId form height bmi) with
    | Some row =>
        r = res_redirect "/health" /\
        In row (health_metrics (db w')) /\
        (forall other, In other (health_metrics (db w')) ->
                       h_user_id other = h_user_id row ->
                       h_entry_date other = h_entry_date row ->
                       other = row) /\
        h_user_id row = userId /\
        h_entry_date row = match f_entry_date form with
                           | Some d => d
                           | None => CURDATE now
                           end /\
        stored_in DECIMAL_5_2 (number_or_null (f_weight_kg form))
          = Some (h_weight_kg row) /\
        stored_in DECIMAL_5_2 height = Some (h_height_cm row) /\
        stored_in DECIMAL_5_2 bmi = Some (h_bmi row) /\
        (bmi = JsNull -> h_bmi row = JsNull)
    | None =>
        r = res_status_send 500 "Server error" /\ db w' = db w
    end /\
    calcBMI (JsNum 180%float) (JsNum 81%float) = JsNum 25%float.
Proof.
  intros Hup.
  destruct (post_health_run env now userId form w) as [r [w' [Hrun Hcases]]].
  destruct Hcases as [[_ [_ [n Hn]]] | [height [Hused Hrow]]];
    [rewrite Hup in Hn; discriminate |].
  exists height, (calcBMI height (number_or_null (f_weight_kg form))), r, w'.
  split; [exact Hrun |]. split; [exact Hused |].
  split; [apply calcBMI_passed |]. split; [| reflexivity].
  destruct (health_row _) as [row |] eqn:Hkept; [| exact Hrow].
  destruct Hrow as [Hr Hdb].
  destruct (health_row_columns _ _ Hkept) as [Hu [Hd [Hw [Hh [Hb _]]]]].
  destruct (ON_DUPLICATE_KEY_UPDATE_spec row (db w)) as [Hin Honly].
  rewrite Hdb. simpl in Hu, Hd, Hw, Hh, Hb.
  repeat split; try assumption.
  intros Hnull. rewrite Hnull in Hb. simpl in Hb. congruence.
Qed.

Lemma post_health_stores_bmi_witness :
  let form := mkHealthForm None (JsStr "81") JsUndefined JsUndefined JsUndefined in
  exists w',
    @post_health sample_runtime sample_server env_up (clock 9 10) 7 (Some form)
      (boot health_db)
      = (Normal (res_redirect "/health"), w') /\
    nth_error (health_metrics (db w')) 4 =
      Some (mkHealthMetric 7 9 (JsStr "81.00") (JsStr "180.00") (JsStr "25.00")
                           JsNull JsNull).
Proof.
  intros form.
  destruct (@post_health_stores_bmi sample_runtime sample_server env_up (clock 9 10)
              7 form (boot health_db))
    as [height [bmi [r [w' [Hrun _]]]]].
  - intros n. reflexivity.
  - vm_compute in Hrun. injection Hrun as <- <-.
    eexists. split; vm_compute; reflexivity.
Defined.

(** A weight of 49.6 kg at 160 cm. The quotient of the decimals is 19.375
    and that of the two binary64 numbers lies just above it: either rounds
    to 19.38. The quotient of binary64 arithmetic lies just below 19.375
    and rounds to 19.37, which is what the handler stores. *)
Lemma post_health_rounds_the_binary64_quotient :
  let form := mkHealthForm None (JsStr "49.6") (JsStr "160") JsUndefined JsUndefined in
  let run := @post_health sample_runtime sample_server env_up (clock 9 10) 7
               (Some form) (boot health_db) in
  fst run = Normal (res_redirect "/health") /\
  nth_error (health_metrics (db (snd run))) 4 =
    Some (mkHealthMetric 7 9 (JsStr "49.60") (JsStr "160.00") (JsStr "19.37")
                         JsNull JsNull) /\
  @number_or_null sample_runtime (JsStr "49.6") = JsNum 49.6%float /\
  @number_or_null sample_runtime (JsStr "160") = JsNum 160%float /\
  @calcBMI sample_runtime (JsNum 160%float) (JsNum 49.6%float) = JsNum 19.37%float /\
  nearest_hundredths_of_quotient 496 10 160 1 = 1938 /\
  bmi_as_specified 49.6%float 160%float = Some 1938 /\
  hundredths 1938 = 19.38%float /\
  (19.37 <? 19.38)%float = true.
Proof. cbv zeta. repeat split; vm_compute; reflexivity. Qed.

(** A body-mass index beyond the range of the column: 500 kg at 50 cm
    give 2000, which a strict server refuses; the answer is 500 and the
    table is as before. *)
Lemma post_health_bmi_out_of_range :
  let form := mkHealthForm None (JsStr "500") (JsStr "50") JsUndefined JsUndefined in
  let run := @post_health sample_runtime sample_server env_up (clock 9 10) 7
               (Some form) (boot health_db) in
  @calcBMI sample_runtime (JsNum 50%float) (JsNum 500%float) = JsNum 2000%float /\
  fst run = Normal (res_status_send 500 "Server error") /\
  db (snd run) = health_db.
Proof. cbv zeta. repeat split; vm_compute; reflexivity. Qed.

(** ** The daily job as a whole *)

Lemma for_of_notify_renewal_once `{JsRuntime} env now (rows : list ExpiringRow) (w : World) :
  store_available env ->
  exists w',
    for_of rows (notify_renewal_once env now) w = (Normal tt, w') /\
    db w' = fold_left (fun d row => notify_renewal_db now row d) rows (db w).
Proof.
  intros Hup. revert w. induction rows as [| row rows IH]; intros w; simpl.
  - eexists. split; reflexivity.
  - unfold bind.
    destruct (notify_renewal_once_run env now row w Hup) as [w1 [Hrun Hdb]].
    rewrite Hrun. destruct (IH w1) as [w' [Hrun' Hdb']].
    exists w'. split; [exact Hrun' |]. rewrite Hdb', Hdb. reflexivity.
Qed.

Lemma attendance_notify_attendance_db now userId d :
  attendance (notify_attendance_db now userId d) = attendance d.
Proof.
  unfold notify_attendance_db. destruct (SELECT_attendance_recent now userId d);
    reflexivity.
Qed.

Lemma SELECT_COUNT_attendance_ext now userId d d' :
  attendance d' = attendance d ->
  SELECT_COUNT_attendance now userId d' = SELECT_COUNT_attendance now userId d.
Proof. unfold SELECT_COUNT_attendance. now intros ->. Qed.

Lemma for_of_remind_low_attendance env now (members : list Z) (w : World) (d0 : DB) :
  store_available env ->
  attendance (db w) = attendance d0 ->
  exists w',
    for_of members (remind_low_attendance env now) w = (Normal tt, w') /\
    db w' = fold_left (fun d userId => notify_attendance_db now userId d)
                      (filter (fun userId => SELECT_COUNT_attendance now userId d0 <? 2)
                              members)
                      (db w).
Proof.
  intros Hup. revert w. induction members as [| u members IH]; intros w Hatt; simpl.
  - eexists. split; reflexivity.
  - unfold bind at 1. unfold remind_low_attendance at 1.
    unfold bind at 1. unfold pool_query. rewrite Hup.
    cbn [db count_store_call].
    rewrite (SELECT_COUNT_attendance_ext now u d0 (db w) Hatt).
    destruct (SELECT_COUNT_attendance now u d0 <? 2).
    + destruct (notify_attendance_once_run env now u (count_store_call w) Hup)
        as [w1 [Hrun Hdb]].
      rewrite Hrun. destruct (IH w1) as [w' [Hrun' Hdb']].
      { rewrite Hdb. cbn [db count_store_call].
        rewrite attendance_notify_attendance_db. exact Hatt. }
      exists w'. split; [exact Hrun' |]. rewrite Hdb', Hdb. reflexivity.
    + unfold ret. destruct (IH (count_store_call w) Hatt) as [w' [Hrun' Hdb']].
      exists w'. split; [exact Hrun' | exact Hdb'].
Qed.

(** With a store that answers, the daily job completes and leaves the
    store that [daily_db] computes: it reminds exactly the rows of the
    two engagement queries, each through its dedupe step. *)
Lemma dailyNotificationTasks_db `{JsRuntime} env now (w : World) :
  store_available env ->
  exists w',
    dailyNotificationTasks env now w = (Normal tt, w') /\
    db w' = daily_db now (db w).
Proof.
  intros Hup. unfold dailyNotificationTasks, daily_db.
  unfold bind at 1. unfold bind at 1. unfold pool_query at 1. rewrite Hup.
  cbn [db count_store_call count_daily_entry].
  unfold bind at 1.
  destruct (for_of_notify_renewal_once env now (SELECT_expiring now (db w))
              (count_store_call (count_daily_entry w)) Hup) as [w1 [Hrun1 Hdb1]].
  rewrite Hrun1. unfold bind at 1. unfold pool_query at 1. rewrite Hup.
  unfold bind at 1.
  destruct (for_of_remind_low_attendance env now (SELECT_members (db w1))
              (count_store_call w1) (db w1) Hup eq_refl) as [w2 [Hrun2 Hdb2]].
  rewrite Hrun2. unfold bind, console_log. eexists. split; [reflexivity |].
  cbn [db with_console count_daily_completion] in *.
  rewrite Hdb2. cbn [db count_store_call count_daily_entry] in *.
  unfold findDueAttendanceReminders, findDueRenewalReminders.
  rewrite Hdb1. reflexivity.
Qed.

(** A day in the life of the scheduler: the 8 o'clock tick sweeps and
    stops at the gate; the 9 o'clock tick runs the daily job, which
    writes one renewal notification for the user whose memberships end
    in 3 and in 0 days and one attendance reminder; the 10 o'clock tick
    finds today's key and adds nothing. *)
Lemma one_day_of_ticks :
  let w8 := @run_ticks sample_runtime env_mail_down [clock 9 8] (boot renewal_db) in
  let w9 := @run_ticks sample_runtime env_mail_down [clock 9 9] w8 in
  let w10 := @run_ticks sample_runtime env_mail_down [clock 9 10] w9 in
  notifications (db w8) = [] /\ lastDailyRunKey w8 = None /\
  map (fun n => (n_user_id n, n_type n, n_message n)) (notifications (db w9)) =
    [(1, "renewal", "Your Monthly membership expires on 12. Consider renewing.");
     (1, "attendance", attendance_message)] /\
  lastDailyRunKey w9 = Some "2025-01-10" /\
  db w10 = db w9 /\ daily_entered w10 = 1%nat /\ outbox w10 = [].
Proof. vm_compute. repeat split. Qed.

(** * More of the program *)

(** ** The scheduler under any sequence of runs *)

Lemma renewal_rows_on_INSERT (day userId : Z) (now : Instant) (u : Z)
    (type msg : string) (d : DB) :
  renewal_rows_on day userId (INSERT_notification now u type msg d) =
  renewal_rows_on day userId d ++
    (if (u =? userId) && String.eqb type "renewal" && (CURDATE now =? day)
     then [mkNotification (next_id (map n_id (notifications d))) u type msg
                          false (NOW now)]
     else []).
Proof.
  unfold renewal_rows_on, INSERT_notification. simpl notifications.
  rewrite filter_app. f_equal.
Qed.


Lemma attendance_rows_since_INSERT (since userId : Z) (now : Instant) (u : Z)
    (type msg : string) (d : DB) :
  attendance_rows_since since userId (INSERT_notification now u type msg d) =
  attendance_rows_since since userId d ++
    (if (u =? userId) && String.eqb type "attendance" && (since <=? NOW now)
     then [mkNotification (next_id (map n_id (notifications d))) u type msg
                          false (NOW now)]
     else []).
Proof.
  unfold attendance_rows_since, INSERT_notification. simpl notifications.
  rewrite filter_app. f_equal.
Qed.








Lemma addNotification_db_cases env now userId type message w :
  db (snd (addNotification env now userId type message w)) = db w \/
  db (snd (addNotification env now userId type message w))
  = INSERT_notification now userId type message (db w).
Proof.
  unfold addNotification, bind, pool_update.
  destruct (store_rejects env (store_calls w)); [left; reflexivity |].
  right. rewrite (keeps_db_mail_the_notification env userId type message). reflexivity.
Qed.










(** ** What one hourly tick may touch *)

Lemma status_advances_refl a : status_advances a a.
Proof. destruct a; exact I. Qed.

Lemma status_advances_trans a b c :
  status_advances a b -> status_advances b c -> status_advances a c.
Proof. destruct a, b, c; simpl; tauto. Qed.

Lemma membership_advanced_refl m : membership_advanced m m.
Proof. split; [destruct m; reflexivity | apply status_advances_refl]. Qed.

Lemma membership_advanced_trans a b c :
  membership_advanced a b -> membership_advanced b c -> membership_advanced a c.
Proof.
  intros [Hab Hsab] [Hbc Hsbc]. split.
  - rewrite Hbc, Hab. destruct a; reflexivity.
  - eapply status_advances_trans; eassumption.
Qed.

Lemma Forall2_refl {A} (R : A -> A -> Prop) (l : list A) :
  (forall x, R x x) -> Forall2 R l l.
Proof. intros H. induction l; constructor; auto. Qed.

Lemma Forall2_trans {A} (R : A -> A -> Prop) (l1 l2 l3 : list A) :
  (forall x y z, R x y -> R y z -> R x z) ->
  Forall2 R l1 l2 -> Forall2 R l2 l3 -> Forall2 R l1 l3.
Proof.
  intros Ht H12. revert l3. induction H12; intros l3 H23; inversion H23; subst;
    constructor; eauto.
Qed.

Lemma scheduler_footprint_refl now w : scheduler_footprint now w w.
Proof.
  repeat split; try reflexivity.
  - apply Forall2_refl, membership_advanced_refl.
  - exists []. split; [now rewrite app_nil_r | constructor].
Qed.

Lemma scheduler_footprint_trans now a b c :
  scheduler_footprint now a b -> scheduler_footprint now b c ->
  scheduler_footprint now a c.
Proof.
  intros [Hu [Hp [Ha [Hh [Hm [add1 [Hn1 Hf1]]]]]]]
         [Hu' [Hp' [Ha' [Hh' [Hm' [add2 [Hn2 Hf2]]]]]]].
  repeat split; try congruence.
  - eapply Forall2_trans; [apply membership_advanced_trans | eassumption | eassumption].
  - exists (add1 ++ add2). split.
    + rewrite Hn2, Hn1, app_assoc. reflexivity.
    + apply Forall_app. auto.
Qed.

Lemma scheduler_footprint_same_db now (w w' : World) :
  db w' = db w -> scheduler_footprint now w w'.
Proof.
  intros Heq. unfold scheduler_footprint. rewrite Heq.
  apply (scheduler_footprint_refl now w).
Qed.

Lemma footprint_pool_query {A} env now (stmt : DB -> A) :
  preserves (scheduler_footprint now) (pool_query env stmt).
Proof.
  intros w. apply scheduler_footprint_same_db. apply keeps_db_pool_query.
Qed.

Lemma footprint_addNotification env now userId type message :
  type = "renewal" \/ type = "attendance" ->
  preserves (scheduler_footprint now) (addNotification env now userId type message).
Proof.
  intros Hty w.
  destruct (addNotification_db_cases env now userId type message w) as [Heq | Heq].
  - now apply scheduler_footprint_same_db.
  - unfold scheduler_footprint. rewrite Heq. unfold INSERT_notification. simpl.
    repeat split; try reflexivity.
    + apply Forall2_refl, membership_advanced_refl.
    + eexists. split; [reflexivity |]. constructor; [| constructor].
      repeat split; assumption.
Qed.

Lemma footprint_UPDATE_status (s : Status) (cond : Membership -> bool) (d : DB) :
  (forall m, cond m = true -> status_advances (m_status m) s) ->
  Forall2 membership_advanced (memberships d)
          (memberships (UPDATE_memberships_SET_status s cond d)).
Proof.
  intros Hc. unfold UPDATE_memberships_SET_status. simpl.
  apply Forall2_map_right. intros m. destruct (cond m) eqn:Hm.
  - split; [destruct m; reflexivity | simpl; now apply Hc].
  - apply membership_advanced_refl.
Qed.

Lemma footprint_activateExpireTasks env now :
  preserves (scheduler_footprint now) (activateExpireTasks env now).
Proof.
  assert (Hact : forall d w0 w1, db w0 = d ->
            db w1 = UPDATE_memberships_SET_status active (pending_and_started now) d ->
            scheduler_footprint now w0 w1).
  { intros d w0 w1 H0 H1. unfold scheduler_footprint. rewrite H1, H0.
    repeat split; try reflexivity.
    - apply footprint_UPDATE_status. intros m Hm.
      unfold pending_and_started in Hm. apply andb_true_iff in Hm as [Hm _].
      apply Status_eqb_eq in Hm. rewrite Hm. exact I.
    - exists []. split; [now rewrite app_nil_r | constructor]. }
  assert (Hexp : forall d w0 w1, db w0 = d ->
            db w1 = UPDATE_memberships_SET_status expired (active_and_ended now) d ->
            scheduler_footprint now w0 w1).
  { intros d w0 w1 H0 H1. unfold scheduler_footprint. rewrite H1, H0.
    repeat split; try reflexivity.
    - apply footprint_UPDATE_status. intros m Hm.
      unfold active_and_ended in Hm. apply andb_true_iff in Hm as [Hm _].
      apply Status_eqb_eq in Hm. rewrite Hm. exact I.
    - exists []. split; [now rewrite app_nil_r | constructor]. }
  intros w. unfold activateExpireTasks, bind, pool_update.
  destruct (store_rejects env (store_calls w));
    [apply scheduler_footprint_same_db; reflexivity |].
  cbn [store_calls count_store_call with_db].
  destruct (store_rejects env (S (store_calls w))); cbn [snd].
  - apply (Hact (db w)); reflexivity.
  - apply (scheduler_footprint_trans now w
             (with_db (UPDATE_memberships_SET_status active (pending_and_started now)
                         (db w)) (count_store_call w))).
    + apply (Hact (db w)); reflexivity.
    + apply (Hexp (UPDATE_memberships_SET_status active (pending_and_started now)
                     (db w))); reflexivity.
Qed.

Lemma footprint_dailyNotificationTasks `{JsRuntime} env now :
  preserves (scheduler_footprint now) (dailyNotificationTasks env now).
Proof.
  pose proof (scheduler_footprint_refl now) as Hrefl.
  pose proof (scheduler_footprint_trans now) as Htrans.
  assert (Hsame : forall (f : World -> World), (forall w, db (f w) = db w) ->
            preserves (scheduler_footprint now) (fun w => (Normal tt, f w))).
  { intros f Hf w. apply scheduler_footprint_same_db. apply Hf. }
  unfold dailyNotificationTasks.
  apply preserves_bind; [assumption | apply Hsame; reflexivity |].
  intros _. apply preserves_bind; [assumption | apply footprint_pool_query |].
  intros expiring. apply preserves_bind; [assumption | |].
  { apply preserves_for_of; [assumption | assumption |].
    intros row. unfold notify_renewal_once.
    apply preserves_bind; [assumption | apply footprint_pool_query |].
    intros [id |]; [now apply preserves_ret |].
    apply footprint_addNotification. now left. }
  intros _. apply preserves_bind; [assumption | apply footprint_pool_query |].
  intros members. apply preserves_bind; [assumption | |].
  { apply preserves_for_of; [assumption | assumption |].
    intros u. unfold remind_low_attendance.
    apply preserves_bind; [assumption | apply footprint_pool_query |].
    intros count. destruct (count <? 2); [| now apply preserves_ret].
    unfold notify_attendance_once.
    apply preserves_bind; [assumption | apply footprint_pool_query |].
    intros [id |]; [now apply preserves_ret |].
    apply footprint_addNotification. now right. }
  intros _. apply preserves_bind; [assumption | |].
  { unfold console_log. apply Hsame. reflexivity. }
  intros _. apply Hsame. reflexivity.
Qed.

Lemma footprint_runHourlyTasks `{JsRuntime} env now :
  preserves (scheduler_footprint now) (runHourlyTasks env now).
Proof.
  pose proof (scheduler_footprint_refl now) as Hrefl.
  pose proof (scheduler_footprint_trans now) as Htrans.
  unfold runHourlyTasks.
  apply preserves_try_catch; [assumption | |].
  - apply preserves_bind; [assumption | apply footprint_activateExpireTasks |].
    intros _ w. destruct (shouldRunDaily env now (lastDailyRunKey w)).
    + apply (preserves_bind (scheduler_footprint now) Htrans);
        [apply footprint_dailyNotificationTasks |].
      intros _ w1. apply scheduler_footprint_same_db. reflexivity.
    + apply Hrefl.
  - intros e w. apply scheduler_footprint_same_db. reflexivity.
Qed.

(** X2. One hourly tick never throws and, whatever the store and the
    transport do, touches the store only so: users, plans, attendance and
    health metrics stay as they are; every membership stays in its place
    with the same fields, its status moved forward (pending, active,
    expired) or left alone; the notifications from before stay as they
    are, and the ones appended are unread, stamped with the time of the
    tick, and of type renewal or attendance. *)
Theorem runHourlyTasks_footprint `{JsRuntime} (env : Env) (now : Instant) (w : World) :
  fst (runHourlyTasks env now w) = Normal tt /\
  scheduler_footprint now w (snd (runHourlyTasks env now w)).
Proof.
  split.
  - destruct (runHourlyTasks env now w) as [r w'] eqn:Hrun.
    apply runHourlyTasks_cases in Hrun as [Hr _]. exact Hr.
  - apply footprint_runHourlyTasks.
Qed.

(** X3. With a store that answers, one hourly tick is the sweep
    followed, exactly when the gate admits, by the daily job on the swept
    store and the recording of today's key; when the gate does not admit,
    the store is the swept store and the key is the one from before. *)
Theorem runHourlyTasks_composes `{JsRuntime} (env : Env) (now : Instant) (w : World) :
  store_available env ->
  let w' := snd (runHourlyTasks env now w) in
  if shouldRunDaily env now (lastDailyRunKey w)
  then db w' = daily_db now (sweep now (db w)) /\
       lastDailyRunKey w' = Some (todayKey now)
  else db w' = sweep now (db w) /\
       lastDailyRunKey w' = lastDailyRunKey w.
Proof.
  intros Hup w'. subst w'.
  destruct (runHourlyTasks env now w) as [r w'] eqn:Hrun. cbn [snd].
  unfold runHourlyTasks, try_catch in Hrun. unfold bind at 1 in Hrun.
  rewrite (activateExpireTasks_run env now w) in Hrun by apply Hup.
  cbn [lastDailyRunKey with_db count_store_call] in Hrun.
  destruct (shouldRunDaily env now (lastDailyRunKey w)).
  - unfold bind in Hrun.
    destruct (dailyNotificationTasks_db env now
                (with_db (sweep now (db w)) (count_store_call (count_store_call w))) Hup)
      as [w1 [Hrun1 Hdb]].
    rewrite Hrun1 in Hrun. injection Hrun as _ <-.
    split; [exact Hdb | reflexivity].
  - injection Hrun as _ <-. split; reflexivity.
Qed.

Lemma runHourlyTasks_composes_witness :
  let w := boot renewal_db in
  let w9 := snd (@runHourlyTasks sample_runtime env_up (clock 9 9) w) in
  db w9 = @daily_db sample_runtime (clock 9 9) (sweep (clock 9 9) (db w)) /\
  lastDailyRunKey w9 = Some (todayKey (clock 9 9)).
Proof.
  intros w w9.
  pose proof (@runHourlyTasks_composes sample_runtime env_up (clock 9 9) w
                env_up_available) as Hc.
  exact Hc.
Defined.

(** ** Running the daily job again *)

(** A property of the store that every step of a loop keeps holds after
    the loop. *)
Lemma fold_keeps {X} (step : X -> DB -> DB) (P : DB -> Prop) (xs : list X) (d : DB) :
  (forall y d, P d -> P (step y d)) ->
  P d -> P (fold_left (fun d y => step y d) xs d).
Proof.
  intros Hstep. revert d. induction xs as [| y xs IH]; intros d Hs; simpl; [exact Hs |].
  apply IH. now apply Hstep.
Qed.

Section DedupeFold.
(** A loop of check-then-insert steps: once a step's check is satisfied
    it stays satisfied and the step changes nothing. *)
Context {X : Type}.
Variable step : X -> DB -> DB.
Variable satisfied : X -> DB -> Prop.
Hypothesis step_satisfies : forall x d, satisfied x (step x d).
Hypothesis step_keeps : forall x y d, satisfied x d -> satisfied x (step y d).
Hypothesis step_skips : forall x d, satisfied x d -> step x d = d.

Lemma fold_satisfies (xs : list X) (x : X) (d : DB) :
  In x xs -> satisfied x (fold_left (fun d y => step y d) xs d).
Proof.
  revert d. induction xs as [| y xs IH]; intros d Hin; simpl; [contradiction |].
  destruct Hin as [-> | Hin]; [| now apply IH].
  apply (fold_keeps step (satisfied x)); [intros; now apply step_keeps |].
  apply step_satisfies.
Qed.

Lemma fold_skips (xs : list X) (d : DB) :
  (forall x, In x xs -> satisfied x d) ->
  fold_left (fun d y => step y d) xs d = d.
Proof.
  revert d. induction xs as [| y xs IH]; intros d Hs; simpl; [reflexivity |].
  rewrite step_skips by (apply Hs; now left). apply IH.
  intros x Hx. apply Hs. now right.
Qed.
End DedupeFold.

Lemma notify_renewal_db_satisfies `{JsRuntime} now (row : ExpiringRow) d :
  SELECT_renewal_today now (er_user_id row) (notify_renewal_db now row d) <> None.
Proof.
  unfold notify_renewal_db.
  destruct (SELECT_renewal_today now (er_user_id row) d) eqn:Hsel; [congruence |].
  rewrite SELECT_renewal_today_none, renewal_rows_on_insert by reflexivity.
  intros Hnil. apply app_eq_nil in Hnil as [_ Hnil]. discriminate.
Qed.

Lemma renewal_today_kept_by_INSERT now u (now' : Instant) u' type msg d :
  SELECT_renewal_today now u d <> None ->
  SELECT_renewal_today now u (INSERT_notification now' u' type msg d) <> None.
Proof.
  rewrite !SELECT_renewal_today_none, renewal_rows_on_INSERT.
  intros Hne Hnil. apply app_eq_nil in Hnil as [Hnil _]. contradiction.
Qed.

Lemma attendance_recent_kept_by_INSERT now u (now' : Instant) u' type msg d :
  SELECT_attendance_recent now u d <> None ->
  SELECT_attendance_recent now u (INSERT_notification now' u' type msg d) <> None.
Proof.
  rewrite !SELECT_attendance_recent_none, attendance_rows_since_INSERT.
  intros Hne Hnil. apply app_eq_nil in Hnil as [Hnil _]. contradiction.
Qed.

Lemma notify_attendance_db_satisfies now userId d :
  SELECT_attendance_recent now userId (notify_attendance_db now userId d) <> None.
Proof.
  unfold notify_attendance_db.
  destruct (SELECT_attendance_recent now userId d) eqn:Hsel; [congruence |].
  rewrite SELECT_attendance_recent_none, attendance_rows_since_insert.
  assert (Hin : (NOW now - seven_days <=? NOW now) = true)
    by (apply Z.leb_le; unfold seven_days, seconds_per_day; lia).
  rewrite Hin. intros Hnil. apply app_eq_nil in Hnil as [_ Hnil]. discriminate.
Qed.

(** The two steps touch the notification table only. *)
Lemma notify_renewal_db_tables `{JsRuntime} now row d :
  users (notify_renewal_db now row d) = users d /\
  membership_plans (notify_renewal_db now row d) = membership_plans d /\
  memberships (notify_renewal_db now row d) = memberships d /\
  attendance (notify_renewal_db now row d) = attendance d.
Proof.
  unfold notify_renewal_db. destruct (SELECT_renewal_today _ _ _); repeat split.
Qed.

Lemma notify_attendance_db_tables now userId d :
  users (notify_attendance_db now userId d) = users d /\
  membership_plans (notify_attendance_db now userId d) = membership_plans d /\
  memberships (notify_attendance_db now userId d) = memberships d /\
  attendance (notify_attendance_db now userId d) = attendance d.
Proof.
  unfold notify_attendance_db. destruct (SELECT_attendance_recent _ _ _); repeat split.
Qed.

Lemma same_tables_fold {X} (step : X -> DB -> DB) (xs : list X) (d : DB) :
  (forall x d, same_tables d (step x d)) ->
  same_tables d (fold_left (fun d y => step y d) xs d).
Proof.
  intros Hstep. revert d. induction xs as [| y xs IH]; intros d; simpl.
  - repeat split.
  - specialize (IH (step y d)). specialize (Hstep y d).
    unfold same_tables in *. intuition congruence.
Qed.

Lemma SELECT_expiring_ext now1 now2 d d' :
  CURDATE now1 = CURDATE now2 -> same_tables d d' ->
  SELECT_expiring now2 d' = SELECT_expiring now1 d.
Proof.
  intros Hday [Hu [Hp [Hm _]]]. unfold SELECT_expiring. now rewrite Hu, Hp, Hm, Hday.
Qed.

Lemma findDueAttendanceReminders_ext now1 now2 d d' :
  CURDATE now1 = CURDATE now2 -> same_tables d d' ->
  findDueAttendanceReminders now2 d' = findDueAttendanceReminders now1 d.
Proof.
  intros Hday [Hu [_ [_ Ha]]].
  unfold findDueAttendanceReminders, SELECT_members, SELECT_COUNT_attendance.
  now rewrite Hu, Ha, Hday.
Qed.

Lemma SELECT_renewal_today_day now1 now2 u d :
  CURDATE now1 = CURDATE now2 ->
  SELECT_renewal_today now2 u d = SELECT_renewal_today now1 u d.
Proof. intros Hday. unfold SELECT_renewal_today. now rewrite Hday. Qed.

Lemma renewal_rows_kept_by_attendance_step now u day userId d :
  renewal_rows_on day userId (notify_attendance_db now u d) = renewal_rows_on day userId d.
Proof.
  unfold notify_attendance_db. destruct (SELECT_attendance_recent now u d); [reflexivity |].
  rewrite renewal_rows_on_INSERT. destruct (u =? userId); simpl; apply app_nil_r.
Qed.

Lemma SELECT_attendance_recent_instant now1 now2 u d :
  NOW now2 = NOW now1 ->
  SELECT_attendance_recent now2 u d = SELECT_attendance_recent now1 u d.
Proof. intros Hnow. unfold SELECT_attendance_recent. now rewrite Hnow. Qed.

Lemma daily_db_renewal_settled `{JsRuntime} now1 now2 d :
  CURDATE now1 = CURDATE now2 ->
  fold_left (fun d row => notify_renewal_db now2 row d)
            (findDueRenewalReminders now2 (daily_db now1 d)) (daily_db now1 d)
  = daily_db now1 d.
Proof.
  intros Hday.
  set (d1 := fold_left (fun d row => notify_renewal_db now1 row d)
                       (findDueRenewalReminders now1 d) d).
  assert (Ht1 : same_tables d d1)
    by (apply same_tables_fold; intros x d0; apply notify_renewal_db_tables).
  assert (Ht2 : same_tables d1 (daily_db now1 d))
    by (apply (same_tables_fold (fun u d => notify_attendance_db now1 u d));
        intros x d0; apply notify_attendance_db_tables).
  assert (Ht : same_tables d (daily_db now1 d))
    by (unfold same_tables in *; intuition congruence).
  unfold findDueRenewalReminders at 1.
  rewrite (SELECT_expiring_ext now1 now2 d (daily_db now1 d) Hday Ht).
  apply (fold_skips (fun row d => notify_renewal_db now2 row d)
           (fun row d => SELECT_renewal_today now2 (er_user_id row) d <> None)).
  - intros row d0 Hs. unfold notify_renewal_db.
    destruct (SELECT_renewal_today now2 (er_user_id row) d0); congruence.
  - intros row Hrow. rewrite (SELECT_renewal_today_day now1 now2) by exact Hday.
    unfold daily_db. fold d1.
    apply (fold_keeps (fun u d => notify_attendance_db now1 u d)
             (fun d => SELECT_renewal_today now1 (er_user_id row) d <> None)).
    + intros y d0 Hs. unfold notify_attendance_db.
      destruct (SELECT_attendance_recent now1 y d0); [exact Hs |].
      now apply renewal_today_kept_by_INSERT.
    + apply (fold_satisfies (fun row d => notify_renewal_db now1 row d)
               (fun row d => SELECT_renewal_today now1 (er_user_id row) d <> None)).
      * intros x d0. apply notify_renewal_db_satisfies.
      * intros x y d0 Hs. unfold notify_renewal_db.
        destruct (SELECT_renewal_today now1 (er_user_id y) d0); [exact Hs |].
        now apply renewal_today_kept_by_INSERT.
      * exact Hrow.
Qed.

Lemma daily_db_same_day `{JsRuntime} now1 now2 d :
  CURDATE now1 = CURDATE now2 ->
  daily_db now2 (daily_db now1 d)
  = fold_left (fun d userId => notify_attendance_db now2 userId d)
              (findDueAttendanceReminders now2 (daily_db now1 d)) (daily_db now1 d).
Proof.
  intros Hday. unfold daily_db at 1.
  now rewrite (daily_db_renewal_settled now1 now2 d Hday).
Qed.

Lemma daily_db_same_day_renewals `{JsRuntime} now1 now2 d day userId :
  CURDATE now1 = CURDATE now2 ->
  renewal_rows_on day userId (daily_db now2 (daily_db now1 d))
  = renewal_rows_on day userId (daily_db now1 d).
Proof.
  intros Hday. rewrite (daily_db_same_day now1 now2 d Hday).
  generalize (findDueAttendanceReminders now2 (daily_db now1 d)).
  generalize (daily_db now1 d).
  intros d0 members. revert d0.
  induction members as [| u members IH]; intros d0; simpl; [reflexivity |].
  rewrite IH. apply renewal_rows_kept_by_attendance_step.
Qed.

Lemma daily_db_idempotent `{JsRuntime} now d :
  daily_db now (daily_db now d) = daily_db now d.
Proof.
  rewrite (daily_db_same_day now now d eq_refl).
  set (d1 := fold_left (fun d row => notify_renewal_db now row d)
                       (findDueRenewalReminders now d) d).
  assert (Ht2 : same_tables d1 (daily_db now d))
    by (apply (same_tables_fold (fun u d => notify_attendance_db now u d));
        intros x d0; apply notify_attendance_db_tables).
  rewrite (findDueAttendanceReminders_ext now now d1 (daily_db now d) eq_refl Ht2).
  apply (fold_skips (fun u d => notify_attendance_db now u d)
           (fun u d => SELECT_attendance_recent now u d <> None)).
  - intros u d0 Hs. unfold notify_attendance_db.
    destruct (SELECT_attendance_recent now u d0); congruence.
  - intros u Hu. unfold daily_db. fold d1.
    apply (fold_satisfies (fun u d => notify_attendance_db now u d)
             (fun u d => SELECT_attendance_recent now u d <> None)).
    + intros x d0. apply notify_attendance_db_satisfies.
    + intros x y d0 Hs. unfold notify_attendance_db.
      destruct (SELECT_attendance_recent now y d0); [exact Hs |].
      now apply attendance_recent_kept_by_INSERT.
    + exact Hu.
Qed.

(** X4. Running the daily job a second time on the same calendar day,
    with a store that answers, adds no renewal notification for any user
    and any day; run a second time at the same instant it changes nothing
    in the store at all. *)
Theorem dailyNotificationTasks_again `{JsRuntime} (env : Env) (now1 now2 : Instant)
    (w : World) :
  store_available env ->
  CURDATE now1 = CURDATE now2 ->
  let w1 := snd (dailyNotificationTasks env now1 w) in
  let w2 := snd (dailyNotificationTasks env now2 w1) in
  (forall day userId,
      renewal_rows_on day userId (db w2) = renewal_rows_on day userId (db w1)) /\
  (NOW now2 = NOW now1 -> db w2 = db w1).
Proof.
  intros Hup Hday w1 w2. subst w2 w1.
  destruct (dailyNotificationTasks_db env now1 w Hup) as [w1 [Hrun1 Hdb1]].
  rewrite Hrun1. cbn [snd].
  destruct (dailyNotificationTasks_db env now2 w1 Hup) as [w2 [Hrun2 Hdb2]].
  rewrite Hrun2. cbn [snd]. rewrite Hdb2, Hdb1. split.
  - intros day userId. now apply daily_db_same_day_renewals.
  - intros Hnow.
    rewrite (daily_db_same_day now1 now2 (db w) Hday).
    rewrite <- (daily_db_idempotent now1 (db w)) at 3.
    rewrite (daily_db_same_day now1 now1 (db w) eq_refl).
    assert (Hm : findDueAttendanceReminders now2 (daily_db now1 (db w))
                 = findDueAttendanceReminders now1 (daily_db now1 (db w))).
    { apply findDueAttendanceReminders_ext; [now symmetry | repeat split]. }
    rewrite Hm.
    generalize (findDueAttendanceReminders now1 (daily_db now1 (db w))).
    generalize (daily_db now1 (db w)).
    intros d0 members. revert d0.
    induction members as [| u members IH]; intros d0; simpl; [reflexivity |].
    assert (Hs : notify_attendance_db now2 u d0 = notify_attendance_db now1 u d0).
    { unfold notify_attendance_db.
      rewrite (SELECT_attendance_recent_instant now1 now2 u d0 Hnow).
      destruct (SELECT_attendance_recent now1 u d0); [reflexivity |].
      unfold INSERT_notification. now rewrite Hnow. }
    rewrite Hs. apply IH.
Qed.

Lemma dailyNotificationTasks_again_witness :
  CURDATE (clock 9 9) = CURDATE (clock 9 15) /\
  forall day userId,
    renewal_rows_on day userId
      (db (snd (dailyNotificationTasks (H := sample_runtime) env_up (clock 9 15)
                  (snd (dailyNotificationTasks (H := sample_runtime) env_up (clock 9 9)
                          (boot renewal_db))))))
    = renewal_rows_on day userId
        (db (snd (dailyNotificationTasks (H := sample_runtime) env_up (clock 9 9)
                    (boot renewal_db)))).
Proof.
  split; [reflexivity |].
  apply (dailyNotificationTasks_again (H := sample_runtime) env_up (clock 9 9) (clock 9 15)
           (boot renewal_db)).
  - intros n. reflexivity.
  - reflexivity.
Defined.

(** ** A sweep makes up for the sweeps before it *)

Lemma sweep_row_after_activation now now' (m : Membership) :
  CURDATE now <= CURDATE now' ->
  status_after_sweep (CURDATE now')
    (if pending_and_started now m then set_status active m else m)
  = status_after_sweep (CURDATE now') m.
Proof.
  intros Hle. unfold pending_and_started, status_after_sweep.
  destruct m as [i u p s e st]. simpl.
  destruct st; simpl; try reflexivity.
  destruct (Z.leb_spec s (CURDATE now)); simpl; [| reflexivity].
  destruct (Z.leb_spec s (CURDATE now')); [reflexivity | lia].
Qed.

Lemma sweep_row_after_sweep now now' (m : Membership) :
  CURDATE now <= CURDATE now' ->
  status_after_sweep (CURDATE now') (set_status (status_after_sweep (CURDATE now) m) m)
  = status_after_sweep (CURDATE now') m.
Proof.
  intros Hle. unfold status_after_sweep.
  destruct m as [i u p s e st]. simpl.
  destruct st; simpl; try reflexivity.
  - destruct (Z.leb_spec s (CURDATE now)); simpl.
    + destruct (Z.ltb_spec e (CURDATE now)); simpl.
      * destruct (Z.leb_spec s (CURDATE now')); [| lia].
        destruct (Z.ltb_spec e (CURDATE now')); [reflexivity | lia].
      * destruct (Z.leb_spec s (CURDATE now')); [reflexivity | lia].
    + reflexivity.
  - destruct (Z.ltb_spec e (CURDATE now)); simpl; [| reflexivity].
    destruct (Z.ltb_spec e (CURDATE now')); [reflexivity | lia].
Qed.

Lemma set_status_set_status (s s' : Status) (m : Membership) :
  set_status s (set_status s' m) = set_status s m.
Proof. reflexivity. Qed.

Lemma sweep_eq (now : Instant) (d : DB) :
  sweep now d =
  with_memberships
    (map (fun m => set_status (status_after_sweep (CURDATE now) m) m) (memberships d)) d.
Proof.
  unfold sweep, UPDATE_memberships_SET_status, with_memberships. simpl.
  f_equal. rewrite map_map. apply map_ext. intros m. apply sweep_row.
Qed.

Lemma sweep_after_activation now now' (d : DB) :
  CURDATE now <= CURDATE now' ->
  sweep now' (UPDATE_memberships_SET_status active (pending_and_started now) d)
  = sweep now' d.
Proof.
  intros Hle. rewrite !sweep_eq.
  unfold UPDATE_memberships_SET_status, with_memberships. simpl. f_equal.
  rewrite map_map. apply map_ext. intros m.
  rewrite (sweep_row_after_activation now now' m Hle).
  destruct (pending_and_started now m); reflexivity.
Qed.

Lemma sweep_after_sweep now now' (d : DB) :
  CURDATE now <= CURDATE now' ->
  sweep now' (sweep now d) = sweep now' d.
Proof.
  intros Hle. rewrite !sweep_eq.
  unfold with_memberships. simpl. f_equal.
  rewrite map_map. apply map_ext. intros m.
  now rewrite (sweep_row_after_sweep now now' m Hle).
Qed.

(** Wherever a run of [activateExpireTasks] stops, it leaves the store
    untouched, with the first statement applied, or swept. *)
Lemma activateExpireTasks_db_cases env now (w : World) :
  let w' := snd (activateExpireTasks env now w) in
  db w' = db w \/
  db w' = UPDATE_memberships_SET_status active (pending_and_started now) (db w) \/
  db w' = sweep now (db w).
Proof.
  unfold activateExpireTasks, bind, pool_update.
  destruct (store_rejects env (store_calls w)); simpl; [now left |].
  destruct (store_rejects env (S (store_calls w))); simpl; [right; now left |].
  right; now right.
Qed.

Lemma activateExpireTasks_normal env now (w : World) :
  fst (activateExpireTasks env now w) = Normal tt ->
  db (snd (activateExpireTasks env now w)) = sweep now (db w).
Proof.
  unfold activateExpireTasks, bind, pool_update.
  destruct (store_rejects env (store_calls w)); simpl; [discriminate |].
  destruct (store_rejects env (S (store_calls w))); simpl; [discriminate |].
  reflexivity.
Qed.

(** X5. A run of activateExpireTasks that completes leaves the store as
    one sweep of that day would have left the store from before the
    earlier run, whatever that earlier run did: completed, stopped after
    its first statement, or failed at once. *)
Theorem activateExpireTasks_catches_up (env : Env) (now now' : Instant) (w : World) :
  CURDATE now <= CURDATE now' ->
  let w1 := snd (activateExpireTasks env now w) in
  fst (activateExpireTasks env now' w1) = Normal tt ->
  db (snd (activateExpireTasks env now' w1)) = sweep now' (db w).
Proof.
  intros Hle w1 Hok.
  rewrite (activateExpireTasks_normal env now' w1 Hok).
  destruct (activateExpireTasks_db_cases env now w) as [Hdb | [Hdb | Hdb]];
    fold w1 in Hdb; rewrite Hdb.
  - reflexivity.
  - now apply sweep_after_activation.
  - now apply sweep_after_sweep.
Qed.

Lemma activateExpireTasks_catches_up_witness :
  CURDATE (clock 9 9) <= CURDATE (clock 11 9) /\
  db (snd (activateExpireTasks env_second_call_fails (clock 9 9) (boot sample_db)))
    = UPDATE_memberships_SET_status active (pending_and_started (clock 9 9)) sample_db /\
  db (snd (activateExpireTasks env_second_call_fails (clock 11 9)
             (snd (activateExpireTasks env_second_call_fails (clock 9 9) (boot sample_db)))))
    = sweep (clock 11 9) sample_db.
Proof.
  split; [vm_compute; discriminate |]. split; [reflexivity |].
  apply (activateExpireTasks_catches_up env_second_call_fails (clock 9 9) (clock 11 9)
           (boot sample_db)).
  - vm_compute. discriminate.
  - reflexivity.
Defined.

(** ** The manual run *)

Lemma get_admin_run_daily_unfold `{JsRuntime} env now (w : World) :
  get_admin_run_daily env now w =
  match activateExpireTasks env now w with
  | (Normal _, w1) =>
      match dailyNotificationTasks env now w1 with
      | (Normal _, w2) =>
          (Normal "/notifications", with_lastDailyRunKey (Some (todayKey now)) w2)
      | (Throw e, w2) => (Throw e, w2)
      end
  | (Throw e, w1) => (Throw e, w1)
  end.
Proof.
  unfold get_admin_run_daily, bind, ret.
  destruct (activateExpireTasks env now w) as [[[] | e] w1]; [| reflexivity].
  destruct (dailyNotificationTasks env now w1) as [[[] | e] w2]; reflexivity.
Qed.

(** X6. The manual run of [GET /admin/run-daily] asks no gate: at any
    hour and whatever key is recorded it sweeps and runs the daily job.
    When it returns it has recorded today's key, so the hourly ticks of
    the rest of that day leave the scheduler's state alone, and it has
    left the store as the sweep followed by the daily job leave it. When
    it throws, which a store that answers never causes, the recorded key
    is the one from before. *)
Theorem get_admin_run_daily_takes_the_day `{JsRuntime} (env : Env) (now : Instant)
    (w : World) :
  let r := get_admin_run_daily env now w in
  (store_available env ->
   fst r = Normal "/notifications" /\ db (snd r) = daily_db now (sweep now (db w))) /\
  match fst r with
  | Normal location =>
      location = "/notifications" /\
      lastDailyRunKey (snd r) = Some (todayKey now) /\
      daily_completed (snd r) = S (daily_completed w) /\
      forall ticks, Forall (same_day now) ticks ->
                    same_schedule (snd r) (run_ticks env ticks (snd r))
  | Throw e =>
      lastDailyRunKey (snd r) = lastDailyRunKey w /\
      daily_completed (snd r) = daily_completed w
  end.
Proof.
  intros r. subst r. rewrite get_admin_run_daily_unfold. split.
  - intros Hup. rewrite (activateExpireTasks_run env now w) by apply Hup.
    match goal with
    | |- context [dailyNotificationTasks env now ?w1] =>
        destruct (dailyNotificationTasks_db env now w1 Hup) as [w2 [Hrun Hdb]]
    end.
    rewrite Hrun. simpl. split; [reflexivity | exact Hdb].
  - pose proof (keeps_schedule_activateExpireTasks env now w) as Hs.
    destruct (activateExpireTasks env now w) as [[[] | e] w1]; simpl in Hs.
    + destruct (dailyNotificationTasks env now w1) as [[[] | e] w2] eqn:Hrun;
        apply dailyNotificationTasks_effect in Hrun as [Hk [_ Hc]];
        destruct Hs as [Hk1 [_ Hc1]]; simpl.
      * split; [reflexivity |]. split; [reflexivity |]. split; [congruence |].
        intros ticks Hday. now apply (ticks_after_completion env now).
      * split; congruence.
    + destruct Hs as [Hk1 [_ Hc1]]. split; assumption.
Qed.

(** ** Subscribing: every answer of the handler *)

(** X7. [POST /subscribe] throws in one case only: when [req.body] is
    undefined, the destructuring that precedes the [try] throws a
    TypeError, before any call to the store and with nothing written or
    logged. For every request with a body it does not throw and answers
    in one of three ways, whatever the store does. A redirect to the
    dashboard: exactly one membership was appended, for the user, and no
    other table changed. 400 [Plan not found]: the store answered and
    holds no plan of that id; nothing was written. 500 [Server error]:
    the store rejected a call; nothing was written. *)
Theorem post_subscribe_answers (env : Env) (now : Instant) (userId : Z)
    (req_body : option Z) (w : World) :
  match req_body with
  | None => post_subscribe env now userId req_body w = (Throw TypeError, w)
  | Some plan_id =>
      exists r w',
        post_subscribe env now userId req_body w = (Normal r, w') /\
        match r with
        | res_redirect location =>
            location = "/dashboard" /\
            (exists plan new,
                SELECT_plan plan_id (db w) = Some plan /\
                m_user_id new = userId /\ m_plan_id new = p_id plan /\
                db w' = with_memberships (memberships (db w) ++ [new]) (db w))
        | res_status_send code body =>
            db w' = db w /\
            (code = 400 /\ body = "Plan not found" /\
             store_rejects env (store_calls w) = false /\
             SELECT_plan plan_id (db w) = None
             \/
             code = 500 /\ body = "Server error" /\
             exists n, store_rejects env n = true)
        end
  end.
Proof.
  destruct req_body as [plan_id |]; [| reflexivity].
  unfold post_subscribe, destructure, try_catch, bind, pool_query, pool_update, ret,
    console_log.
  destruct (store_rejects env (store_calls w)) eqn:H0; simpl.
  { eexists _, _. split; [reflexivity |]. simpl. split; [reflexivity |].
    right. repeat split. now exists (store_calls w). }
  destruct (SELECT_plan plan_id (db w)) as [plan |] eqn:Hplan; simpl.
  2: { eexists _, _. split; [reflexivity |]. simpl. split; [reflexivity |].
       left. repeat split; assumption. }
  destruct (store_rejects env (S (store_calls w))) eqn:H1; simpl.
  { eexists _, _. split; [reflexivity |]. simpl. split; [reflexivity |].
    right. repeat split. now exists (S (store_calls w)). }
  destruct (store_rejects env (S (S (store_calls w)))) eqn:H2.
  - destruct (SELECT_current_active now userId (db w)) as [cur |]; simpl; rewrite H2; simpl;
      (eexists _, _; split; [reflexivity |]; simpl; split; [reflexivity |];
       right; repeat split; now exists (S (S (store_calls w)))).
  - destruct (SELECT_current_active now userId (db w)) as [cur |]; simpl; rewrite H2; simpl;
      (eexists _, _; split; [reflexivity |]; simpl; split; [reflexivity |];
       eexists plan, (mkMembership _ _ _ _ _ _); repeat split).
Qed.

(** ** Subscribing twice *)

Lemma post_subscribe_run (env : Env) (now : Instant) (userId plan_id : Z)
    (w : World) (plan : Plan) :
  store_available env ->
  SELECT_plan plan_id (db w) = Some plan ->
  fst (post_subscribe env now userId (Some plan_id) w)
    = Normal (res_redirect "/dashboard") /\
  db (snd (post_subscribe env now userId (Some plan_id) w))
    = subscribed now userId plan (db w).
Proof.
  intros Hup Hplan.
  unfold post_subscribe, destructure, subscribed, try_catch, bind, pool_query,
    pool_update, ret.
  rewrite Hup. rewrite Hplan. cbn [store_calls count_store_call db]. rewrite Hup.
  destruct (SELECT_current_active now userId (db w)) as [cur |];
    cbn [store_calls count_store_call db]; rewrite Hup; simpl; split; reflexivity.
Qed.

Lemma SELECT_plan_INSERT_membership plan_id userId planId start_ end_ st d :
  SELECT_plan plan_id (INSERT_membership userId planId start_ end_ st d)
  = SELECT_plan plan_id d.
Proof. reflexivity. Qed.

Lemma SELECT_current_active_pending now userId u planId start_ end_ d :
  SELECT_current_active now userId (INSERT_membership u planId start_ end_ pending d)
  = SELECT_current_active now userId d.
Proof.
  unfold SELECT_current_active, INSERT_membership. simpl.
  rewrite filter_app. simpl. rewrite andb_false_r. simpl. now rewrite app_nil_r.
Qed.

Lemma SELECT_current_active_first now userId planId start_ end_ d :
  SELECT_current_active now userId d = None ->
  CURDATE now <= end_ ->
  SELECT_current_active now userId (INSERT_membership userId planId start_ end_ active d)
  = Some (mkMembership (next_id (map m_id (memberships d))) userId planId start_ end_ active).
Proof.
  intros Hnone Hle.
  unfold SELECT_current_active in *. simpl.
  pose proof (ORDER_BY_DESC_LIMIT_1_spec m_end_date
    (filter (fun m => (m_user_id m =? userId) && Status_eqb (m_status m) active
                      && (CURDATE now <=? m_end_date m)) (memberships d))) as Hspec.
  rewrite Hnone in Hspec. rewrite filter_app, Hspec. simpl.
  rewrite Z.eqb_refl. simpl.
  assert (Hb : (CURDATE now <=? end_) = true) by now apply Z.leb_le.
  rewrite Hb. reflexivity.
Qed.

(** X8. Two subscribe requests of one user in a row, with a store that
    answers, two plans that exist and a first plan that lasts at least a
    day. When the user holds a current active membership, both new
    memberships are pending and both start the day after it ends: the
    second does not queue behind the first, since only active
    memberships are looked at. When the user holds none, the first is
    active from today and the second is pending and starts the day after
    the first ends. *)
Theorem post_subscribe_twice (env : Env) (now : Instant) (userId id1 id2 : Z)
    (w : World) (plan1 plan2 : Plan) :
  store_available env ->
  SELECT_plan id1 (db w) = Some plan1 ->
  SELECT_plan id2 (db w) = Some plan2 ->
  0 < p_duration_days plan1 ->
  let w1 := snd (post_subscribe env now userId (Some id1) w) in
  let w2 := snd (post_subscribe env now userId (Some id2) w1) in
  exists new1 new2,
    memberships (db w2) = memberships (db w) ++ [new1; new2] /\
    m_end_date new1 = m_start_date new1 + (p_duration_days plan1 - 1) /\
    m_end_date new2 = m_start_date new2 + (p_duration_days plan2 - 1) /\
    match SELECT_current_active now userId (db w) with
    | Some cur =>
        m_status new1 = pending /\ m_start_date new1 = m_end_date cur + 1 /\
        m_status new2 = pending /\ m_start_date new2 = m_end_date cur + 1
    | None =>
        m_status new1 = active /\ m_start_date new1 = CURDATE now /\
        m_status new2 = pending /\ m_start_date new2 = m_end_date new1 + 1
    end.
Proof.
  intros Hup Hp1 Hp2 Hdur w1 w2. subst w2 w1.
  destruct (post_subscribe_run env now userId id1 w plan1 Hup Hp1) as [_ Hdb1].
  assert (Hp2' : SELECT_plan id2 (db (snd (post_subscribe env now userId (Some id1) w)))
                 = Some plan2).
  { rewrite Hdb1. unfold subscribed.
    destruct (SELECT_current_active now userId (db w));
      now rewrite SELECT_plan_INSERT_membership. }
  destruct (post_subscribe_run env now userId id2 _ plan2 Hup Hp2') as [_ Hdb2].
  rewrite Hdb2, Hdb1. clear Hdb1 Hdb2 Hp2'.
  unfold subscribed at 2.
  destruct (SELECT_current_active now userId (db w)) as [cur |] eqn:Hcur.
  - unfold subscribed. rewrite SELECT_current_active_pending, Hcur.
    eexists (mkMembership _ _ _ _ _ _), (mkMembership _ _ _ _ _ _).
    split; [simpl; rewrite <- app_assoc; reflexivity |].
    unfold DATE_ADD. simpl. repeat split.
  - unfold subscribed.
    rewrite SELECT_current_active_first by (try assumption; unfold DATE_ADD; lia).
    eexists (mkMembership _ _ _ _ _ _), (mkMembership _ _ _ _ _ _).
    split; [simpl; rewrite <- app_assoc; reflexivity |].
    unfold DATE_ADD. simpl. repeat split.
Qed.

Lemma post_subscribe_twice_witness :
  exists new1 new2,
    memberships
      (db (snd (post_subscribe env_up (clock 9 9) 7 (Some 2)
                  (snd (post_subscribe env_up (clock 9 9) 7 (Some 1)
                          (boot subscribe_db))))))
    = memberships subscribe_db ++ [new1; new2] /\
    m_start_date new1 = 17 /\ m_start_date new2 = 17.
Proof.
  destruct (post_subscribe_twice env_up (clock 9 9) 7 1 2 (boot subscribe_db)
              (mkPlan 1 "Monthly" 30) (mkPlan 2 "Weekly" 7))
    as [new1 [new2 [Hms [_ [_ Hcur]]]]].
  - intros n. reflexivity.
  - reflexivity.
  - reflexivity.
  - simpl. lia.
  - exists new1, new2. split; [exact Hms |].
    vm_compute in Hcur. destruct Hcur as [_ [Hs1 [_ Hs2]]]. split; assumption.
Defined.

(** ** Logging health metrics: every answer of the handler *)

Lemma health_key_eq (a b : HealthMetric) :
  same_health_key a b = true <-> health_key a = health_key b.
Proof.
  rewrite same_health_key_spec. unfold health_key. split.
  - intros [-> ->]. reflexivity.
  - intros Heq. injection Heq as -> ->. split; reflexivity.
Qed.

Lemma ON_DUPLICATE_KEY_UPDATE_others (row : HealthMetric) (d : DB) :
  other_health_rows (h_user_id row) (h_entry_date row) (ON_DUPLICATE_KEY_UPDATE row d)
  = other_health_rows (h_user_id row) (h_entry_date row) d.
Proof.
  unfold other_health_rows, ON_DUPLICATE_KEY_UPDATE. simpl.
  fold (same_health_key row).
  change (fun h => negb ((h_user_id row =? h_user_id h) && (h_entry_date row =? h_entry_date h)))
    with (fun h => negb (same_health_key row h)).
  destruct (existsb (same_health_key row) (health_metrics d)).
  - induction (health_metrics d) as [| h hs IH]; simpl; [reflexivity |].
    destruct (same_health_key row h) eqn:Hk; simpl.
    + assert (Hrow : same_health_key row row = true)
        by (apply same_health_key_spec; split; reflexivity).
      rewrite Hrow. simpl. exact IH.
    + rewrite Hk. simpl. now rewrite IH.
  - rewrite filter_app. simpl.
    assert (Hrow : same_health_key row row = true)
      by (apply same_health_key_spec; split; reflexivity).
    rewrite Hrow. simpl. apply app_nil_r.
Qed.

Lemma NoDup_snoc {A} (l : list A) (x : A) :
  NoDup l -> ~ In x l -> NoDup (l ++ [x]).
Proof.
  induction l as [| a l IH]; simpl; intros Hnd Hx.
  - constructor; [intros [] | constructor].
  - inversion Hnd as [| a' l' Ha Hl]; subst. constructor.
    + rewrite in_app_iff. intros [Hin | [-> | []]]; [contradiction |].
      apply Hx. now left.
    + apply IH; [exact Hl |]. intros Hin. apply Hx. now right.
Qed.

Lemma ON_DUPLICATE_KEY_UPDATE_unique (row : HealthMetric) (d : DB) :
  uq_user_entry d -> uq_user_entry (ON_DUPLICATE_KEY_UPDATE row d).
Proof.
  unfold uq_user_entry, ON_DUPLICATE_KEY_UPDATE. simpl. intros Hnd.
  destruct (existsb (same_health_key row) (health_metrics d)) eqn:Hex.
  - rewrite map_map.
    replace (map (fun h => health_key (if same_health_key row h then row else h))
                 (health_metrics d))
      with (map health_key (health_metrics d)); [exact Hnd |].
    apply map_ext. intros h. destruct (same_health_key row h) eqn:Hk; [| reflexivity].
    symmetry. now apply health_key_eq.
  - rewrite map_app. simpl. apply NoDup_snoc; [exact Hnd |].
    intros Hin. apply in_map_iff in Hin as [h [Hk Hin]].
    assert (Hex' : existsb (same_health_key row) (health_metrics d) = true).
    { apply existsb_exists. exists h. split; [exact Hin |]. now apply health_key_eq. }
    congruence.
Qed.

(** X9. [POST /health] throws in one case only: when [req.body] is
    undefined, the destructuring ahead of the [try] throws a TypeError and
    the store is not called. On a body it never throws and answers in one
    of two ways, whatever the store does and whatever the form holds.
    Either way no table but the health table changes, the rows of other
    users and of other dates stay as they are and in their order, and a
    table with at most one row per user and date stays so. A redirect to
    [/health]: a row of the user and the entry date (the form's, or today)
    is stored. 500 [Server error]: nothing was written, and either the
    store rejected a call or the server refused a value of the row. *)
Theorem post_health_answers `{JsRuntime} `{SqlServer} (env : Env) (now : Instant)
    (userId : Z) (req_body : option HealthForm) (w : World) :
  match req_body with
  | None => post_health env now userId req_body w = (Throw TypeError, w)
  | Some form =>
      let date := match f_entry_date form with Some d => d | None => CURDATE now end in
      exists r w',
        post_health env now userId req_body w = (Normal r, w') /\
        only_health_differs (db w) (db w') /\
        other_health_rows userId date (db w') = other_health_rows userId date (db w) /\
        (uq_user_entry (db w) -> uq_user_entry (db w')) /\
        match r with
        | res_redirect location =>
            location = "/health" /\
            exists row,
              In row (health_metrics (db w')) /\
              h_user_id row = userId /\ h_entry_date row = date /\
              forall other, In other (health_metrics (db w')) ->
                            h_user_id other = userId -> h_entry_date other = date ->
                            other = row
        | res_status_send code body =>
            code = 500 /\ body = "Server error" /\ db w' = db w /\
            ((exists n, store_rejects env n = true) \/
             exists height bmi,
               height_used userId form (db w) height /\
               bmi_passed (number_or_null (f_weight_kg form)) height bmi /\
               health_row (health_params now userId form height bmi) = None)
        end
  end.
Proof.
  destruct req_body as [form |]; [| reflexivity].
  intros date.
  destruct (post_health_run env now userId form w) as [r [w' [Hrun Hcases]]].
  exists r, w'. split; [exact Hrun |].
  destruct Hcases as [[-> [Hdb Hn]] | [height [Hused Hrow]]].
  - rewrite Hdb. repeat split; auto.
  - destruct (health_row _) as [row |] eqn:Hkept.
    + destruct Hrow as [-> Hdb].
      destruct (health_row_columns _ _ Hkept) as [Hu [Hd _]].
      simpl in Hu, Hd. fold date in Hd. rewrite Hdb.
      split; [repeat split |].
      split; [rewrite <- Hu, <- Hd; apply ON_DUPLICATE_KEY_UPDATE_others |].
      split; [apply ON_DUPLICATE_KEY_UPDATE_unique |]. split; [reflexivity |].
      exists row. destruct (ON_DUPLICATE_KEY_UPDATE_spec row (db w)) as [Hin Honly].
      split; [exact Hin |]. split; [exact Hu |]. split; [exact Hd |].
      intros other Ho Hou Hod. apply Honly; congruence.
    + destruct Hrow as [-> Hdb]. rewrite Hdb.
      split; [repeat split |]. split; [reflexivity |]. split; [auto |].
      split; [reflexivity |]. split; [reflexivity |]. split; [reflexivity |].
      right. exists height, (calcBMI height (number_or_null (f_weight_kg form))).
      split; [exact Hused |]. split; [apply calcBMI_passed | exact Hkept].
Qed.

(** ** No mail without a stored notification *)

Lemma mails_follow_refl env w : mails_follow_notifications env w w.
Proof.
  split; [reflexivity |]. exists [], []. rewrite !app_nil_r. repeat split; auto.
Qed.

Lemma mail_of_notification_more us added added' added'' m :
  mail_of_notification us added m ->
  mail_of_notification us (added' ++ added ++ added'') m.
Proof.
  intros [n [u [Hn H]]]. exists n, u. split; [| exact H].
  rewrite !in_app_iff. auto.
Qed.

Lemma mails_follow_trans env a b c :
  mails_follow_notifications env a b -> mails_follow_notifications env b c ->
  mails_follow_notifications env a c.
Proof.
  intros [Hu1 [added1 [sent1 [Hn1 [Ho1 [Hl1 [Hoff1 Hm1]]]]]]]
         [Hu2 [added2 [sent2 [Hn2 [Ho2 [Hl2 [Hoff2 Hm2]]]]]]].
  split; [congruence |]. exists (added1 ++ added2), (sent1 ++ sent2).
  split; [rewrite Hn2, Hn1; symmetry; apply app_assoc |].
  split; [rewrite Ho2, Ho1; symmetry; apply app_assoc |].
  split; [rewrite !length_app; lia |].
  split; [intros Hoff; rewrite Hoff1, Hoff2 by exact Hoff; reflexivity |].
  apply Forall_app. split.
  - eapply Forall_impl; [| exact Hm1]. intros m Hm.
    apply (mail_of_notification_more _ added1 [] added2) in Hm. exact Hm.
  - eapply Forall_impl; [| exact Hm2]. intros m Hm. rewrite <- Hu1.
    apply (mail_of_notification_more _ added2 added1 []) in Hm.
    now rewrite app_nil_r in Hm.
Qed.

(** A computation that leaves users, notifications and the outbox alone. *)
Lemma mails_follow_quiet env (w w' : World) :
  users (db w') = users (db w) -> notifications (db w') = notifications (db w) ->
  outbox w' = outbox w -> mails_follow_notifications env w w'.
Proof.
  intros Hu Hn Ho. split; [exact Hu |]. exists [], [].
  rewrite !app_nil_r. repeat split; auto.
Qed.

Lemma mails_follow_pool_query {A} env env' (stmt : DB -> A) :
  preserves (mails_follow_notifications env) (pool_query env' stmt).
Proof.
  intros w. unfold pool_query. destruct (store_rejects env' (store_calls w));
    apply mails_follow_quiet; reflexivity.
Qed.

Lemma mails_follow_console_log env line :
  preserves (mails_follow_notifications env) (console_log line).
Proof. intros w. apply mails_follow_quiet; reflexivity. Qed.

(** What [mail_the_notification] does to the outbox. *)
Lemma mail_the_notification_outbox env userId type message (w : World) :
  let w' := snd (mail_the_notification env userId type message w) in
  db w' = db w /\
  (outbox w' = outbox w \/
   exists email name,
     SELECT_email_name userId (db w) = Some (email, name) /\
     transporter env = true /\
     outbox w' = outbox w ++ [mkMail email (notification_subject type)
                                     (notification_html env name message)]).
Proof.
  split; [apply keeps_db_mail_the_notification |].
  unfold mail_the_notification, try_catch, bind, pool_query, console_log.
  destruct (store_rejects env (store_calls w)); simpl; [now left |].
  destruct (SELECT_email_name userId (db w)) as [[email name] |] eqn:Hsel;
    [| now left].
  destruct (truthy_string email); [| now left].
  unfold sendEmail.
  destruct (transporter env) eqn:Hon; simpl; [| now left].
  destruct (truthy_string email); simpl; [| now left].
  unfold try_catch, bind, transporter_sendMail, console_log. simpl.
  destruct (sendMail_rejects env (sendMail_calls w)); simpl; [now left |].
  right. exists email, name. repeat split.
Qed.

Lemma mails_follow_addNotification env now userId type message :
  preserves (mails_follow_notifications env) (addNotification env now userId type message).
Proof.
  intros w. unfold addNotification, bind, pool_update.
  destruct (store_rejects env (store_calls w)); simpl;
    [apply mails_follow_quiet; reflexivity |].
  match goal with
  | |- context [mail_the_notification env userId type message ?w1] =>
      destruct (mail_the_notification_outbox env userId type message w1) as [Hdb Hout];
      destruct (mail_the_notification env userId type message w1) as [r w2]
  end.
  simpl in *. split; [now rewrite Hdb |].
  eexists [_]. destruct Hout as [Hout | [email [name [Hsel [Hon Hout]]]]].
  - exists []. rewrite Hdb, Hout, app_nil_r. simpl. repeat split; auto.
  - eexists [_]. rewrite Hdb, Hout. simpl. split; [reflexivity |].
    split; [reflexivity |]. split; [lia |]. split; [congruence |].
    constructor; [| constructor].
    unfold SELECT_email_name in Hsel. simpl in Hsel.
    destruct (find (fun u => u_id u =? userId) (users (db w))) as [u |] eqn:Hfind;
      [| discriminate].
    apply find_some in Hfind as [Hin Hid]. apply Z.eqb_eq in Hid.
    injection Hsel as <- <-.
    eexists _, u. split; [now left |]. simpl. repeat split; assumption.
Qed.

Lemma mails_follow_pool_update_status env env' s cond :
  preserves (mails_follow_notifications env)
            (pool_update env' (UPDATE_memberships_SET_status s cond)).
Proof.
  intros w. unfold pool_update. destruct (store_rejects env' (store_calls w));
    apply mails_follow_quiet; reflexivity.
Qed.

Lemma mails_follow_activateExpireTasks env now :
  preserves (mails_follow_notifications env) (activateExpireTasks env now).
Proof.
  pose proof (mails_follow_refl env) as Hrefl.
  pose proof (mails_follow_trans env) as Htrans.
  unfold activateExpireTasks.
  apply preserves_bind; [assumption | |]; intros;
    apply mails_follow_pool_update_status.
Qed.

Lemma mails_follow_dailyNotificationTasks `{JsRuntime} env now :
  preserves (mails_follow_notifications env) (dailyNotificationTasks env now).
Proof.
  pose proof (mails_follow_refl env) as Hrefl.
  pose proof (mails_follow_trans env) as Htrans.
  unfold dailyNotificationTasks.
  apply preserves_bind; [assumption | intros w; apply mails_follow_quiet; reflexivity |].
  intros _. apply preserves_bind; [assumption | apply mails_follow_pool_query |].
  intros expiring. apply preserves_bind; [assumption | |].
  { apply preserves_for_of; [assumption | assumption |]. intros row.
    unfold notify_renewal_once.
    apply preserves_bind; [assumption | apply mails_follow_pool_query |].
    intros [id |]; [now apply preserves_ret | apply mails_follow_addNotification]. }
  intros _. apply preserves_bind; [assumption | apply mails_follow_pool_query |].
  intros members. apply preserves_bind; [assumption | |].
  { apply preserves_for_of; [assumption | assumption |]. intros u.
    unfold remind_low_attendance, notify_attendance_once.
    apply preserves_bind; [assumption | apply mails_follow_pool_query |].
    intros count. destruct (count <? 2); [| now apply preserves_ret].
    apply preserves_bind; [assumption | apply mails_follow_pool_query |].
    intros [id |]; [now apply preserves_ret | apply mails_follow_addNotification]. }
  intros _. apply preserves_bind; [assumption | apply mails_follow_console_log |].
  intros _ w. apply mails_follow_quiet; reflexivity.
Qed.

Lemma mails_follow_runHourlyTasks `{JsRuntime} env now :
  preserves (mails_follow_notifications env) (runHourlyTasks env now).
Proof.
  pose proof (mails_follow_refl env) as Hrefl.
  pose proof (mails_follow_trans env) as Htrans.
  unfold runHourlyTasks.
  apply preserves_try_catch; [assumption | | intros e; apply mails_follow_console_log].
  apply preserves_bind; [assumption | apply mails_follow_activateExpireTasks |].
  intros _ w. destruct (shouldRunDaily env now (lastDailyRunKey w)); [| apply Hrefl].
  apply (preserves_bind _ Htrans); [apply mails_follow_dailyNotificationTasks |].
  intros _ w1. apply mails_follow_quiet; reflexivity.
Qed.

Lemma mails_follow_get_admin_run_daily `{JsRuntime} env now :
  preserves (mails_follow_notifications env) (get_admin_run_daily env now).
Proof.
  pose proof (mails_follow_refl env) as Hrefl.
  pose proof (mails_follow_trans env) as Htrans.
  unfold get_admin_run_daily.
  apply preserves_bind; [assumption | apply mails_follow_activateExpireTasks |].
  intros _. apply preserves_bind; [assumption | apply mails_follow_dailyNotificationTasks |].
  intros _. apply preserves_bind; [assumption | |].
  { intros w. apply mails_follow_quiet; reflexivity. }
  intros _. now apply preserves_ret.
Qed.

(** X10. Over any sequence of hourly ticks and manual runs, whatever the
    store and the transport do: the users are left alone; every mail the
    transport accepted is the mail of a notification stored during those
    runs, addressed to that notification's user and carrying the subject
    of its type; there are never more mails than stored notifications;
    and without a configured transport there is none. *)
Theorem scheduler_mails_follow_notifications `{JsRuntime} (env : Env)
    (events : list SchedulerEvent) (w : World) :
  mails_follow_notifications env w (run_events env events w).
Proof.
  revert w. induction events as [| e events IH]; intros w; simpl.
  - apply mails_follow_refl.
  - eapply mails_follow_trans; [| apply IH].
    destruct e as [now | now]; simpl.
    + apply mails_follow_runHourlyTasks.
    + apply mails_follow_get_admin_run_daily.
Qed.

(** ** Reading notifications *)

Lemma unread_of_spec (userId : Z) (n : Notification) :
  unread_of userId n = true <-> n_user_id n = userId /\ n_is_read n = false.
Proof.
  unfold unread_of. rewrite andb_true_iff, Z.eqb_eq, negb_true_iff. tauto.
Qed.

Lemma unread_after_mark (userId other : Z) (ns : list Notification) :
  filter (unread_of other)
         (map (fun n => if unread_of userId n then set_is_read n else n) ns)
  = if other =? userId then [] else filter (unread_of other) ns.
Proof.
  induction ns as [| n ns IH]; simpl; [now destruct (other =? userId) |].
  rewrite IH. clear IH.
  destruct (unread_of userId n) eqn:Hu.
  - apply unread_of_spec in Hu as [Hid Hr].
    unfold unread_of at 1. simpl. rewrite andb_false_r.
    destruct (Z.eqb_spec other userId) as [-> | Hne]; [reflexivity |].
    unfold unread_of. rewrite Hid.
    destruct (Z.eqb_spec userId other); [congruence | reflexivity].
  - destruct (Z.eqb_spec other userId) as [-> | Hne]; [now rewrite Hu | reflexivity].
Qed.

Lemma mark_all_read_rows (userId : Z) (ns : list Notification) :
  Forall2 (marked_read userId) ns
          (map (fun n => if unread_of userId n then set_is_read n else n) ns).
Proof.
  induction ns as [| n ns IH]; simpl; constructor; [| exact IH].
  destruct (unread_of userId n) eqn:Hu.
  - apply unread_of_spec in Hu as [Hid Hr]. left. auto.
  - right. split; [| reflexivity].
    destruct (Z.eq_dec (n_user_id n) userId) as [Hid | Hid]; [| now left].
    right. destruct (n_is_read n) eqn:Hr; [reflexivity |].
    assert (unread_of userId n = true) by (apply unread_of_spec; auto). congruence.
Qed.

(** X11. [POST /notifications/mark-all-read] never throws. When it
    redirects, the user's unread count is 0 (and the badge middleware of
    the next request reports 0), every other user's count is what it
    was, and the table holds the same rows in the same order, the unread
    rows of the user now marked read and nothing else changed. When it
    answers 500 nothing was written. *)
Theorem post_notifications_mark_all_read_answers (env : Env) (userId : Z) (w : World) :
  exists r w',
    post_notifications_mark_all_read env userId w = (Normal r, w') /\
    only_notifications_differ (db w) (db w') /\
    match r with
    | res_redirect location =>
        location = "/notifications" /\
        SELECT_COUNT_unread userId (db w') = 0 /\
        fst (unreadCount_middleware env (Some userId) w') = Normal 0 /\
        (forall other, other <> userId ->
           SELECT_COUNT_unread other (db w') = SELECT_COUNT_unread other (db w)) /\
        Forall2 (marked_read userId) (notifications (db w)) (notifications (db w'))
    | res_status_send code body =>
        code = 500 /\ body = "Server error" /\ db w' = db w
    end.
Proof.
  unfold post_notifications_mark_all_read, try_catch, bind, pool_update, ret, console_log.
  destruct (store_rejects env (store_calls w)); simpl.
  - eexists _, _. split; [reflexivity |]. simpl. repeat split.
  - eexists _, _. split; [reflexivity |]. simpl. split; [repeat split |].
    split; [reflexivity |].
    assert (Hzero : SELECT_COUNT_unread userId
                      (UPDATE_notifications_SET_is_read userId (db w)) = 0).
    { unfold SELECT_COUNT_unread, UPDATE_notifications_SET_is_read. simpl.
      rewrite unread_after_mark, Z.eqb_refl. reflexivity. }
    split; [exact Hzero |]. split.
    + unfold unreadCount_middleware, try_catch, bind, pool_query, ret. simpl.
      destruct (store_rejects env (S (store_calls w))); simpl; [reflexivity |].
      rewrite Hzero. reflexivity.
    + split.
      * intros other Hne. unfold SELECT_COUNT_unread, UPDATE_notifications_SET_is_read.
        simpl. rewrite unread_after_mark.
        destruct (Z.eqb_spec other userId); [contradiction | reflexivity].
      * apply mark_all_read_rows.
Qed.

(** The scheduler appends unread rows and leaves the others alone. *)
Lemma scheduler_footprint_unread now (w w' : World) :
  scheduler_footprint now w w' ->
  exists added,
    notifications (db w') = notifications (db w) ++ added /\
    Forall (fun n => n_is_read n = false) added.
Proof.
  intros [_ [_ [_ [_ [_ [added [Hn Hall]]]]]]]. exists added. split; [exact Hn |].
  eapply Forall_impl; [| exact Hall]. intros n [_ [Hr _]]. exact Hr.
Qed.

Lemma footprint_get_admin_run_daily `{JsRuntime} env now :
  preserves (scheduler_footprint now) (get_admin_run_daily env now).
Proof.
  pose proof (scheduler_footprint_refl now) as Hrefl.
  pose proof (scheduler_footprint_trans now) as Htrans.
  unfold get_admin_run_daily.
  apply preserves_bind; [assumption | apply footprint_activateExpireTasks |].
  intros _. apply preserves_bind; [assumption | apply footprint_dailyNotificationTasks |].
  intros _. apply preserves_bind; [assumption | |].
  { intros w. apply scheduler_footprint_same_db. reflexivity. }
  intros _. now apply preserves_ret.
Qed.

Lemma unread_of_appended (userId : Z) (added : list Notification) :
  Forall (fun n => n_is_read n = false) added ->
  filter (unread_of userId) added = notifications_of userId added.
Proof.
  intros Hall. unfold notifications_of. apply filter_ext_in. intros n Hin.
  rewrite Forall_forall in Hall. unfold unread_of. rewrite (Hall n Hin).
  apply andb_true_r.
Qed.

(** X12. Over any sequence of hourly ticks and manual runs, whatever
    fails, the scheduler marks nothing read and removes nothing: the
    notification table grows at its end, and every user's unread count
    grows by exactly the number of notifications appended for that user,
    so it never falls. *)
Theorem scheduler_raises_unread_counts `{JsRuntime} (env : Env)
    (events : list SchedulerEvent) (w : World) :
  exists added,
    notifications (db (run_events env events w)) = notifications (db w) ++ added /\
    forall userId,
      SELECT_COUNT_unread userId (db (run_events env events w))
      = SELECT_COUNT_unread userId (db w)
        + Z.of_nat (List.length (notifications_of userId added)).
Proof.
  assert (Hall : exists added,
            notifications (db (run_events env events w)) = notifications (db w) ++ added /\
            Forall (fun n => n_is_read n = false) added).
  { revert w. induction events as [| e events IH]; intros w; simpl.
    - exists []. split; [now rewrite app_nil_r | constructor].
    - destruct (IH (run_event env e w)) as [added2 [Hn2 Hr2]].
      assert (Hstep : exists added,
                notifications (db (run_event env e w)) = notifications (db w) ++ added /\
                Forall (fun n => n_is_read n = false) added).
      { destruct e as [now | now]; simpl;
          apply (scheduler_footprint_unread now);
          [apply footprint_runHourlyTasks | apply footprint_get_admin_run_daily]. }
      destruct Hstep as [added1 [Hn1 Hr1]].
      exists (added1 ++ added2). split.
      + rewrite Hn2, Hn1. symmetry. apply app_assoc.
      + apply Forall_app. split; assumption. }
  destruct Hall as [added [Hn Hr]]. exists added. split; [exact Hn |].
  intros userId. unfold SELECT_COUNT_unread. rewrite Hn, filter_app, length_app.
  rewrite (unread_of_appended userId added Hr). lia.
Qed.

(** ** Deactivating and reactivating users *)

Lemma NoDup_map_inj {A B} (f : A -> B) (l : list A) (x y : A) :
  NoDup (map f l) -> In x l -> In y l -> f x = f y -> x = y.
Proof.
  induction l as [| a l IH]; simpl; [contradiction |].
  intros Hnd Hx Hy Hf. inversion Hnd as [| b bs Hnotin Hnd']; subst.
  destruct Hx as [-> | Hx], Hy as [-> | Hy]; auto.
  - exfalso. apply Hnotin. rewrite Hf. now apply in_map.
  - exfalso. apply Hnotin. rewrite <- Hf. now apply in_map.
Qed.

Lemma SELECT_user_some (id : Z) (d : DB) (target : User) :
  SELECT_user id d = Some target -> In target (users d) /\ u_id target = id.
Proof.
  unfold SELECT_user. intros Hfind. apply find_some in Hfind as [Hin Hid].
  split; [exact Hin | now apply Z.eqb_eq].
Qed.

(** With the primary key, [UPDATE users SET is_active=v WHERE id=?]
    rewrites the row the SELECT found and no other. *)
Lemma UPDATE_users_rows (v id : Z) (d : DB) (target : User) (R : User -> User -> Prop) :
  users_primary_key d ->
  SELECT_user id d = Some target ->
  (forall u, R u u) -> R target (set_is_active v target) ->
  Forall2 R (users d) (users (UPDATE_users_SET_is_active v id d)).
Proof.
  intros Hpk Hsel Hrefl Htarget. apply SELECT_user_some in Hsel as [Hin Hid].
  unfold UPDATE_users_SET_is_active. simpl.
  assert (Hall : forall u, In u (users d) -> u_id u = id -> u = target).
  { intros u Hu Huid. apply (NoDup_map_inj u_id (users d)); auto. congruence. }
  clear Hin. induction (users d) as [| u us IH]; simpl; constructor.
  - destruct (Z.eqb_spec (u_id u) id) as [Heq | Hne]; [| apply Hrefl].
    rewrite (Hall u (or_introl eq_refl) Heq). exact Htarget.
  - apply IH. intros u0 Hu0. apply Hall. now right.
Qed.

Lemma UPDATE_users_switched (v id : Z) (d : DB) :
  forall u, In u (users (UPDATE_users_SET_is_active v id d)) -> u_id u = id ->
            u_is_active u = v.
Proof.
  unfold UPDATE_users_SET_is_active. simpl. intros u Hin Hid.
  apply in_map_iff in Hin as [u0 [Heq Hin]].
  destruct (Z.eqb_spec (u_id u0) id) as [H0 | H0]; subst u; [reflexivity |].
  contradiction.
Qed.

(** X13. [POST /admin/users/:id/deactivate] never throws, whatever the
    store does and whatever the path parameter holds. With the primary
    key on users, it touches no table but users, adds, removes and moves
    no user row, and changes a row only by switching off a member that
    was on and is not the requester: no admin and never the requester's
    own row. It writes only when it answers [User deactivated], and then
    no row of that id is left on. *)
Theorem post_admin_users_deactivate_guards `{JsRuntime} (env : Env) (me : Z)
    (id_param : string) (w : World) :
  users_primary_key (db w) ->
  exists r w',
    post_admin_users_deactivate env me id_param w = (Normal r, w') /\
    only_users_differ (db w) (db w') /\
    Forall2 (deactivated_row me) (users (db w)) (users (db w')) /\
    (db w' = db w \/
     r = res_redirect "/admin/users?msg=User+deactivated" /\
     Number_isInteger (StringToNumber id_param) = true /\
     forall u, In u (users (db w')) ->
               u_id u = integer_value (StringToNumber id_param) -> u_is_active u = 0).
Proof.
  intros Hpk.
  assert (Hsame : forall (r : Response) (w0 : World), db w0 = db w ->
            exists r' w',
              (Normal r, w0) = (Normal r', w') /\
              only_users_differ (db w) (db w') /\
              Forall2 (deactivated_row me) (users (db w)) (users (db w')) /\
              (db w' = db w \/
               r' = res_redirect "/admin/users?msg=User+deactivated" /\
               Number_isInteger (StringToNumber id_param) = true /\
               forall u, In u (users (db w')) ->
                 u_id u = integer_value (StringToNumber id_param) -> u_is_active u = 0)).
  { intros r w0 Hdb. exists r, w0. split; [reflexivity |]. rewrite Hdb.
    split; [repeat split |]. split; [| now left].
    apply Forall2_refl. intros u. now left. }
  unfold post_admin_users_deactivate.
  destruct (Number_isInteger (StringToNumber id_param)) eqn:Hint; simpl;
    [| apply Hsame; reflexivity].
  destruct (Z.eqb_spec (integer_value (StringToNumber id_param)) me) as [Hme | Hme];
    [apply Hsame; reflexivity |].
  unfold try_catch, bind, pool_query, pool_update, ret, console_log.
  destruct (store_rejects env (store_calls w)); simpl; [apply Hsame; reflexivity |].
  destruct (SELECT_user (integer_value (StringToNumber id_param)) (db w))
    as [target |] eqn:Hsel; [| apply Hsame; reflexivity].
  destruct (Role_eqb (u_role target) member) eqn:Hrole; simpl;
    [| apply Hsame; reflexivity].
  destruct (Z.eqb_spec (u_is_active target) 0) as [Hoff | Hon];
    [apply Hsame; reflexivity |].
  simpl.
  destruct (store_rejects env (S (store_calls w))); simpl; [apply Hsame; reflexivity |].
  eexists _, _. split; [reflexivity |]. simpl. split; [repeat split |]. split.
  - apply (UPDATE_users_rows 0 _ (db w) target); auto.
    + intros u. now left.
    + right. apply Role_eqb_eq in Hrole.
      destruct (SELECT_user_some _ _ _ Hsel) as [_ Hid].
      repeat split; auto. congruence.
  - right. split; [reflexivity |]. split; [reflexivity |].
    apply UPDATE_users_switched.
Qed.

Lemma post_admin_users_deactivate_guards_witness :
  users_primary_key attendance_edge_db /\
  exists r w',
    post_admin_users_deactivate (H := sample_runtime) env_up 4 "2" (boot attendance_edge_db)
      = (Normal r, w') /\
    Forall2 (deactivated_row 4) (users attendance_edge_db) (users (db w')).
Proof.
  assert (Hpk : users_primary_key attendance_edge_db).
  { unfold users_primary_key. simpl. repeat constructor; simpl; intuition discriminate. }
  split; [exact Hpk |].
  destruct (post_admin_users_deactivate_guards (H := sample_runtime) env_up 4 "2"
              (boot attendance_edge_db) Hpk) as [r [w' [Hrun [_ [Hrows _]]]]].
  exists r, w'. split; assumption.
Defined.

(** ** A deactivated member receives no reminder *)

Lemma quiet_for_refl userId w : quiet_for userId w w.
Proof. split; reflexivity. Qed.

Lemma quiet_for_trans userId a b c :
  quiet_for userId a b -> quiet_for userId b c -> quiet_for userId a c.
Proof. intros [Hu1 Hn1] [Hu2 Hn2]. split; congruence. Qed.

Lemma quiet_for_same userId (w w' : World) :
  users (db w') = users (db w) -> notifications (db w') = notifications (db w) ->
  quiet_for userId w w'.
Proof. intros Hu Hn. split; [exact Hu | now rewrite Hn]. Qed.

Lemma keeps_quiet_of_preserves userId {A} (m : Async A) :
  preserves (quiet_for userId) m -> keeps_quiet userId m.
Proof. intros Hm w _. apply Hm. Qed.

(** Sequencing, where the first computation yields a value that [Q]
    relates to the store it leaves. *)
Lemma keeps_quiet_bind userId {A B} (m : Async A) (k : A -> Async B)
    (Q : A -> DB -> Prop) :
  keeps_quiet userId m ->
  (forall w a w', m w = (Normal a, w') -> Q a (db w')) ->
  (forall a w, Q a (db w) -> inactive userId (db w) ->
               quiet_for userId w (snd (k a w))) ->
  keeps_quiet userId (bind m k).
Proof.
  intros Hm HQ Hk w Hoff. unfold bind. specialize (Hm w Hoff).
  specialize (HQ w). destruct (m w) as [[a | e] w1]; simpl in *; [| exact Hm].
  eapply quiet_for_trans; [exact Hm |].
  apply Hk; [now apply (HQ a w1) |].
  destruct Hm as [Hu _]. unfold inactive. rewrite Hu. exact Hoff.
Qed.

Lemma quiet_for_pool_query userId {A} env (stmt : DB -> A) :
  preserves (quiet_for userId) (pool_query env stmt).
Proof.
  intros w. unfold pool_query. destruct (store_rejects env (store_calls w));
    apply quiet_for_same; reflexivity.
Qed.

Lemma pool_query_value {A} env (stmt : DB -> A) (w w' : World) (a : A) :
  pool_query env stmt w = (Normal a, w') -> a = stmt (db w').
Proof.
  unfold pool_query. destruct (store_rejects env (store_calls w)); [discriminate |].
  intros Heq. injection Heq as <- <-. reflexivity.
Qed.

Lemma quiet_for_addNotification userId env now other type message :
  other <> userId ->
  preserves (quiet_for userId) (addNotification env now other type message).
Proof.
  intros Hne w. unfold addNotification, bind, pool_update.
  destruct (store_rejects env (store_calls w)); simpl;
    [apply quiet_for_same; reflexivity |].
  match goal with
  | |- context [mail_the_notification env other type message ?w1] =>
      pose proof (keeps_db_mail_the_notification env other type message w1) as Hdb;
      destruct (mail_the_notification env other type message w1) as [r w2]
  end.
  unfold same_db in Hdb. simpl in *. split; rewrite Hdb; simpl; [reflexivity |].
  unfold notifications_of. rewrite filter_app. simpl.
  destruct (Z.eqb_spec other userId); [contradiction |]. apply app_nil_r.
Qed.

Lemma quiet_for_of userId {A} (xs : list A) (body : A -> Async unit) :
  (forall x, In x xs -> preserves (quiet_for userId) (body x)) ->
  preserves (quiet_for userId) (for_of xs body).
Proof.
  induction xs as [| x xs IH]; intros Hb; simpl.
  - intros w. apply quiet_for_refl.
  - apply (preserves_bind _ (quiet_for_trans userId)).
    + apply Hb. now left.
    + intros _. apply IH. intros y Hy. apply Hb. now right.
Qed.

Lemma quiet_for_notify_renewal_once `{JsRuntime} userId env now row :
  er_user_id row <> userId ->
  preserves (quiet_for userId) (notify_renewal_once env now row).
Proof.
  intros Hne. unfold notify_renewal_once.
  apply (preserves_bind _ (quiet_for_trans userId)); [apply quiet_for_pool_query |].
  intros [id |]; [intros w; apply quiet_for_refl |].
  now apply quiet_for_addNotification.
Qed.

Lemma quiet_for_remind_low_attendance userId env now other :
  other <> userId ->
  preserves (quiet_for userId) (remind_low_attendance env now other).
Proof.
  intros Hne. unfold remind_low_attendance, notify_attendance_once.
  apply (preserves_bind _ (quiet_for_trans userId)); [apply quiet_for_pool_query |].
  intros count. destruct (count <? 2); [| intros w; apply quiet_for_refl].
  apply (preserves_bind _ (quiet_for_trans userId)); [apply quiet_for_pool_query |].
  intros [id |]; [intros w; apply quiet_for_refl |].
  now apply quiet_for_addNotification.
Qed.

Lemma inactive_not_expiring userId now d row :
  inactive userId d -> In row (SELECT_expiring now d) -> er_user_id row <> userId.
Proof.
  intros Hoff Hin Heq.
  apply (findDueRenewalReminders_rows now d row) in Hin
    as [m [u [p [_ [Hu [_ [_ [_ [Hact [_ ->]]]]]]]]]].
  simpl in Heq. exact (Hoff u Hu Heq Hact).
Qed.

Lemma inactive_not_member userId d other :
  inactive userId d -> In other (SELECT_members d) -> other <> userId.
Proof.
  intros Hoff Hin Heq. apply SELECT_members_In in Hin as [u [Hu [Hid [_ Hact]]]].
  apply (Hoff u Hu); congruence.
Qed.

Lemma keeps_quiet_dailyNotificationTasks `{JsRuntime} userId env now :
  keeps_quiet userId (dailyNotificationTasks env now).
Proof.
  unfold dailyNotificationTasks.
  apply (keeps_quiet_bind userId _ _ (fun _ _ => True)).
  { intros w _. apply quiet_for_same; reflexivity. }
  { auto. }
  intros _ w _. revert w. fold (keeps_quiet userId
    (expiring <- pool_query env (SELECT_expiring now) ;;
     for_of expiring (notify_renewal_once env now) ;;
     members <- pool_query env SELECT_members ;;
     for_of members (remind_low_attendance env now) ;;
     console_log "Daily notifications complete" ;;
     (fun w => (Normal tt, count_daily_completion w)))).
  apply (keeps_quiet_bind userId _ _ (fun rows d => rows = SELECT_expiring now d)).
  { apply keeps_quiet_of_preserves, quiet_for_pool_query. }
  { intros w a w'. apply pool_query_value. }
  intros expiring w -> Hoff.
  assert (Hloop : preserves (quiet_for userId)
            (for_of (SELECT_expiring now (db w)) (notify_renewal_once env now))).
  { apply quiet_for_of. intros row Hrow. apply quiet_for_notify_renewal_once.
    now apply (inactive_not_expiring userId now (db w)). }
  unfold bind at 1. specialize (Hloop w).
  destruct (for_of (SELECT_expiring now (db w)) (notify_renewal_once env now) w)
    as [[[] | e] w1]; simpl in *; [| exact Hloop].
  eapply quiet_for_trans; [exact Hloop |].
  assert (Hoff1 : inactive userId (db w1)).
  { destruct Hloop as [Hu _]. unfold inactive. rewrite Hu. exact Hoff. }
  clear Hloop Hoff w. revert w1 Hoff1.
  fold (keeps_quiet userId
    (members <- pool_query env SELECT_members ;;
     for_of members (remind_low_attendance env now) ;;
     console_log "Daily notifications complete" ;;
     (fun w => (Normal tt, count_daily_completion w)))).
  apply (keeps_quiet_bind userId _ _ (fun members d => members = SELECT_members d)).
  { apply keeps_quiet_of_preserves, quiet_for_pool_query. }
  { intros w a w'. apply pool_query_value. }
  intros members w -> Hoff.
  assert (Hloop : preserves (quiet_for userId)
            (for_of (SELECT_members (db w)) (remind_low_attendance env now))).
  { apply quiet_for_of. intros u Hu. apply quiet_for_remind_low_attendance.
    now apply (inactive_not_member userId (db w)). }
  unfold bind at 1. specialize (Hloop w).
  destruct (for_of (SELECT_members (db w)) (remind_low_attendance env now) w)
    as [[[] | e] w1]; simpl in *; [| exact Hloop].
  eapply quiet_for_trans; [exact Hloop |].
  apply quiet_for_same; reflexivity.
Qed.

Lemma quiet_for_activateExpireTasks userId env now :
  preserves (quiet_for userId) (activateExpireTasks env now).
Proof.
  unfold activateExpireTasks.
  apply (preserves_bind _ (quiet_for_trans userId)); [| intros _];
    intros w; unfold pool_update; destruct (store_rejects env (store_calls w));
    apply quiet_for_same; reflexivity.
Qed.

Lemma keeps_quiet_run_event `{JsRuntime} userId env (e : SchedulerEvent) (w : World) :
  inactive userId (db w) -> quiet_for userId w (run_event env e w).
Proof.
  intros Hoff.
  assert (Hdaily : forall now w0, inactive userId (db w0) ->
            quiet_for userId w0
              (snd ((activateExpireTasks env now ;; dailyNotificationTasks env now) w0))).
  { intros now.
    apply (keeps_quiet_bind userId _ _ (fun _ _ => True)); auto.
    - apply keeps_quiet_of_preserves, quiet_for_activateExpireTasks.
    - intros _ w0 _. apply keeps_quiet_dailyNotificationTasks. }
  destruct e as [now | now]; simpl.
  - unfold runHourlyTasks, try_catch, bind.
    pose proof (quiet_for_activateExpireTasks userId env now w) as Hsweep.
    destruct (activateExpireTasks env now w) as [[[] | e] w1]; simpl in *;
      [| eapply quiet_for_trans; [exact Hsweep | apply quiet_for_same; reflexivity]].
    assert (Hoff1 : inactive userId (db w1)).
    { destruct Hsweep as [Hu _]. unfold inactive. rewrite Hu. exact Hoff. }
    destruct (shouldRunDaily env now (lastDailyRunKey w1)); [| exact Hsweep].
    pose proof (keeps_quiet_dailyNotificationTasks userId env now w1 Hoff1) as Hjob.
    destruct (dailyNotificationTasks env now w1) as [[[] | e] w2]; simpl in *;
      (eapply quiet_for_trans; [exact Hsweep |]);
      (eapply quiet_for_trans; [exact Hjob |]); apply quiet_for_same; reflexivity.
  - specialize (Hdaily now w Hoff). unfold get_admin_run_daily.
    unfold bind in *.
    destruct (activateExpireTasks env now w) as [[[] | e] w1]; simpl in *;
      [| exact Hdaily].
    destruct (dailyNotificationTasks env now w1) as [[[] | e] w2]; simpl in *;
      exact Hdaily.
Qed.

Lemma keeps_quiet_run_events `{JsRuntime} userId env (events : list SchedulerEvent)
    (w : World) :
  inactive userId (db w) -> quiet_for userId w (run_events env events w).
Proof.
  revert w. induction events as [| e events IH]; intros w Hoff; simpl.
  - apply quiet_for_refl.
  - pose proof (keeps_quiet_run_event userId env e w Hoff) as Hstep.
    eapply quiet_for_trans; [exact Hstep |]. apply IH.
    destruct Hstep as [Hu _]. unfold inactive. rewrite Hu. exact Hoff.
Qed.

(** The store a deactivation that answers [User deactivated] leaves. *)
Lemma post_admin_users_deactivate_done `{JsRuntime} env me id_param (w : World) :
  fst (post_admin_users_deactivate env me id_param w)
    = Normal (res_redirect "/admin/users?msg=User+deactivated") ->
  db (snd (post_admin_users_deactivate env me id_param w))
    = UPDATE_users_SET_is_active 0 (integer_value (StringToNumber id_param)) (db w).
Proof.
  unfold post_admin_users_deactivate.
  destruct (Number_isInteger (StringToNumber id_param)); simpl; [| discriminate].
  destruct (integer_value (StringToNumber id_param) =? me); [discriminate |].
  unfold try_catch, bind, pool_query, pool_update, ret, console_log.
  destruct (store_rejects env (store_calls w)); simpl; [discriminate |].
  destruct (SELECT_user (integer_value (StringToNumber id_param)) (db w)) as [target |];
    [| discriminate].
  destruct (Role_eqb (u_role target) member); simpl; [| discriminate].
  destruct (u_is_active target =? 0); [discriminate |]. simpl.
  destruct (store_rejects env (S (store_calls w))); simpl; [discriminate |].
  reflexivity.
Qed.

(** X14. Once [POST /admin/users/:id/deactivate] has answered [User
    deactivated], no sequence of hourly ticks and manual runs that
    follows writes that user a notification, whatever the store and the
    transport do: the daily job reminds only users that are switched on. *)
Theorem deactivated_user_gets_no_reminder `{JsRuntime} (env : Env) (me : Z)
    (id_param : string) (events : list SchedulerEvent) (w : World) :
  let userId := integer_value (StringToNumber id_param) in
  let w1 := snd (post_admin_users_deactivate env me id_param w) in
  fst (post_admin_users_deactivate env me id_param w)
    = Normal (res_redirect "/admin/users?msg=User+deactivated") ->
  notifications_of userId (notifications (db (run_events env events w1)))
  = notifications_of userId (notifications (db w1)).
Proof.
  intros userId w1 Hdone.
  apply (keeps_quiet_run_events userId env events w1).
  subst w1. rewrite (post_admin_users_deactivate_done env me id_param w Hdone).
  intros u Hin Hid. rewrite (UPDATE_users_switched 0 userId (db w) u Hin Hid).
  discriminate.
Qed.

Lemma deactivated_user_gets_no_reminder_witness :
  fst (post_admin_users_deactivate (H := sample_runtime) env_up 4 "1" (boot renewal_db))
    = Normal (res_redirect "/admin/users?msg=User+deactivated") /\
  notifications_of 1
    (notifications
       (db (run_events (H := sample_runtime) env_up
              [hourly_tick (clock 9 9); manual_run (clock 10 7)]
              (snd (post_admin_users_deactivate (H := sample_runtime) env_up 4 "1"
                      (boot renewal_db))))))
  = notifications_of 1
      (notifications
         (db (snd (post_admin_users_deactivate (H := sample_runtime) env_up 4 "1"
                     (boot renewal_db))))).
Proof.
  split; [vm_compute; reflexivity |].
  apply (deactivated_user_gets_no_reminder (H := sample_runtime) env_up 4 "1"
           [hourly_tick (clock 9 9); manual_run (clock 10 7)] (boot renewal_db)).
  vm_compute. reflexivity.
Defined.

(** ** Deactivating, then reactivating *)

Lemma SELECT_user_UPDATE (v id : Z) (d : DB) :
  SELECT_user id (UPDATE_users_SET_is_active v id d)
  = option_map (set_is_active v) (SELECT_user id d).
Proof.
  unfold SELECT_user, UPDATE_users_SET_is_active. simpl.
  induction (users d) as [| u us IH]; simpl; [reflexivity |].
  destruct (Z.eqb_spec (u_id u) id) as [Heq | Hne]; simpl.
  - destruct (Z.eqb_spec (u_id u) id); [reflexivity | contradiction].
  - destruct (Z.eqb_spec (u_id u) id); [contradiction | exact IH].
Qed.

Lemma UPDATE_users_back (id : Z) (d : DB) (target : User) :
  users_primary_key d ->
  SELECT_user id d = Some target ->
  UPDATE_users_SET_is_active (u_is_active target) id (UPDATE_users_SET_is_active 0 id d) = d.
Proof.
  intros Hpk Hsel. apply SELECT_user_some in Hsel as [Hin Hid].
  unfold UPDATE_users_SET_is_active, with_users. destruct d as [us ps ms ats ns hs].
  simpl in *. f_equal. rewrite map_map.
  rewrite <- (map_id us) at 2. apply map_ext_in. intros u Hu.
  destruct (Z.eqb_spec (u_id u) id) as [Heq | Hne]; simpl.
  - rewrite Heq, Z.eqb_refl.
    assert (u = target) by (apply (NoDup_map_inj u_id us); auto; congruence).
    subst u. destruct target; reflexivity.
  - destruct (Z.eqb_spec (u_id u) id); [contradiction | reflexivity].
Qed.

(** X15. With a store that answers and the primary key on users:
    deactivating a member that is switched on (and is not the
    requester), then reactivating the same id, answers [User deactivated]
    and [User reactivated] and leaves the store exactly as it was. *)
Theorem deactivate_then_reactivate `{JsRuntime} (env : Env) (me : Z)
    (id_param : string) (w : World) (target : User) :
  store_available env ->
  users_primary_key (db w) ->
  Number_isInteger (StringToNumber id_param) = true ->
  SELECT_user (integer_value (StringToNumber id_param)) (db w) = Some target ->
  u_role target = member -> u_is_active target = 1 -> u_id target <> me ->
  let w1 := snd (post_admin_users_deactivate env me id_param w) in
  let w2 := snd (post_admin_users_reactivate env id_param w1) in
  fst (post_admin_users_deactivate env me id_param w)
    = Normal (res_redirect "/admin/users?msg=User+deactivated") /\
  fst (post_admin_users_reactivate env id_param w1)
    = Normal (res_redirect "/admin/users?msg=User+reactivated") /\
  db w2 = db w.
Proof.
  intros Hup Hpk Hint Hsel Hrole Hon Hme w1 w2.
  destruct (SELECT_user_some _ _ _ Hsel) as [_ Hid].
  assert (Hrun1 : post_admin_users_deactivate env me id_param w
                  = (Normal (res_redirect "/admin/users?msg=User+deactivated"),
                     with_db (UPDATE_users_SET_is_active 0
                                (integer_value (StringToNumber id_param)) (db w))
                             (count_store_call (count_store_call w)))).
  { unfold post_admin_users_deactivate. rewrite Hint. simpl.
    destruct (Z.eqb_spec (integer_value (StringToNumber id_param)) me); [congruence |].
    unfold try_catch, bind, pool_query, pool_update, ret.
    rewrite Hup. simpl. rewrite Hsel, Hrole, Hon. simpl. rewrite Hup. reflexivity. }
  subst w2 w1. rewrite Hrun1. simpl. split; [reflexivity |].
  unfold post_admin_users_reactivate. rewrite Hint. simpl.
  unfold try_catch, bind, pool_query, pool_update, ret.
  rewrite Hup. simpl. rewrite SELECT_user_UPDATE, Hsel. simpl. rewrite Hrole. simpl.
  rewrite Hup. simpl. split; [reflexivity |].
  rewrite <- Hon. now apply UPDATE_users_back.
Qed.

Lemma deactivate_then_reactivate_witness :
  db (snd (post_admin_users_reactivate (H := sample_runtime) env_up "2"
             (snd (post_admin_users_deactivate (H := sample_runtime) env_up 4 "2"
                     (boot attendance_edge_db)))))
  = attendance_edge_db.
Proof.
  apply (deactivate_then_reactivate (H := sample_runtime) env_up 4 "2"
           (boot attendance_edge_db) (mkUser 2 "Bob" "bob@gym.local" member 1)).
  - intros n. reflexivity.
  - unfold users_primary_key. simpl. repeat constructor; simpl; intuition discriminate.
  - vm_compute. reflexivity.
  - vm_compute. reflexivity.
  - reflexivity.
  - reflexivity.
  - discriminate.
Defined.

(** X16. Once a deactivation has answered [User deactivated], the
    active-check middleware of that user's next request destroys the
    session and redirects to the login page, provided the store answers
    the check; when the store rejects the check the middleware lets the
    request through. *)
Theorem deactivation_ends_the_session `{JsRuntime} (env : Env) (me : Z)
    (id_param : string) (w : World) :
  let userId := integer_value (StringToNumber id_param) in
  let w1 := snd (post_admin_users_deactivate env me id_param w) in
  fst (post_admin_users_deactivate env me id_param w)
    = Normal (res_redirect "/admin/users?msg=User+deactivated") ->
  fst (active_check env (Some userId) w1)
  = if store_rejects env (store_calls w1)
    then Normal next
    else Normal (session_destroy_redirect "/login?error=Your+account+is+deactivated").
Proof.
  intros userId w1 Hdone.
  pose proof (post_admin_users_deactivate_done env me id_param w Hdone) as Hdb.
  fold w1 in Hdb. fold userId in Hdb.
  unfold active_check, try_catch, bind, pool_query, ret, console_log.
  destruct (store_rejects env (store_calls w1)); simpl; [reflexivity |].
  rewrite Hdb, SELECT_user_UPDATE.
  destruct (SELECT_user userId (db w)) as [u |]; reflexivity.
Qed.

Lemma deactivation_ends_the_session_witness :
  fst (active_check env_up (Some 2)
         (snd (post_admin_users_deactivate (H := sample_runtime) env_up 4 "2"
                 (boot attendance_edge_db))))
  = Normal (session_destroy_redirect "/login?error=Your+account+is+deactivated").
Proof.
  apply (deactivation_ends_the_session (H := sample_runtime) env_up 4 "2"
           (boot attendance_edge_db)).
  vm_compute. reflexivity.
Defined.

(** ** Checking in and out *)

Lemma combine_seq_In {A} (s : nat) (rows : list A) (i : nat) (r : A) :
  In (i, r) (combine (seq s (List.length rows)) rows) ->
  (s <= i)%nat /\ nth_error rows (i - s) = Some r.
Proof.
  revert s. induction rows as [| a rows IH]; simpl; intros s Hin; [contradiction |].
  destruct Hin as [Heq | Hin].
  - injection Heq as <- <-. split; [lia |]. now rewrite Nat.sub_diag.
  - apply IH in Hin as [Hle Hnth]. split; [lia |].
    replace (i - s)%nat with (S (i - S s)) by lia. exact Hnth.
Qed.

Lemma combine_seq_unique {A} (s : nat) (rows : list A) (i : nat) (r r' : A) :
  In (i, r) (combine (seq s (List.length rows)) rows) ->
  In (i, r') (combine (seq s (List.length rows)) rows) -> r = r'.
Proof.
  intros H1 H2. apply combine_seq_In in H1 as [_ H1]. apply combine_seq_In in H2 as [_ H2].
  congruence.
Qed.

Lemma filter_combine_seq {A} (P : A -> bool) (s : nat) (rows : list A) :
  map snd (filter (fun r => P (snd r)) (combine (seq s (List.length rows)) rows))
  = filter P rows.
Proof.
  revert s. induction rows as [| a rows IH]; simpl; intros s; [reflexivity |].
  destruct (P a); simpl; now rewrite IH.
Qed.

(** The open entry the handlers look up, when there is none and when
    there is one. *)
Lemma SELECT_open_entry_none (userId : Z) (d : DB) :
  SELECT_open_entry userId d = None <-> open_entries userId (attendance d) = [].
Proof.
  unfold SELECT_open_entry, open_entries, attendance_by_id.
  rewrite <- (filter_combine_seq (fun a => (a_user_id a =? userId) && is_open a) 0).
  match goal with
  | |- context [ORDER_BY_DESC_LIMIT_1 ?k ?l] =>
      pose proof (ORDER_BY_DESC_LIMIT_1_spec k l) as Hspec;
      destruct (ORDER_BY_DESC_LIMIT_1 k l) as [b |]
  end.
  - destruct Hspec as [Hin _]. split; [discriminate |].
    intros Hnil. apply (in_map snd) in Hin. rewrite Hnil in Hin. contradiction.
  - rewrite Hspec. split; reflexivity.
Qed.

Lemma SELECT_open_entry_some (userId : Z) (d : DB) (id : nat) (a : Attendance) :
  SELECT_open_entry userId d = Some (id, a) ->
  In (id, a) (attendance_by_id d) /\ a_user_id a = userId /\ a_check_out a = None.
Proof.
  unfold SELECT_open_entry. intros Hsel.
  match type of Hsel with
  | ORDER_BY_DESC_LIMIT_1 ?k ?l = _ => pose proof (ORDER_BY_DESC_LIMIT_1_spec k l) as Hspec
  end.
  rewrite Hsel in Hspec. destruct Hspec as [Hin _].
  apply filter_In in Hin as [Hin Hc]. simpl in Hc.
  apply andb_true_iff in Hc as [Hu Ho]. apply Z.eqb_eq in Hu.
  split; [exact Hin |]. split; [exact Hu |].
  unfold is_open in Ho. destruct (a_check_out a); [discriminate | reflexivity].
Qed.

Lemma UPDATE_attendance_rows (t : Z) (id s : nat) (rows : list Attendance) :
  (forall r, In (id, r) (combine (seq s (List.length rows)) rows) -> a_check_out r = None) ->
  Forall2 visit_kept rows
    (map (fun r => if Nat.eqb (fst r) id then set_check_out t (snd r) else snd r)
         (combine (seq s (List.length rows)) rows)).
Proof.
  revert s. induction rows as [| a rows IH]; simpl; intros s Hopen; constructor.
  - destruct (Nat.eqb_spec s id) as [-> | Hne]; [| now left].
    right. split; [apply Hopen; now left | now exists t].
  - apply IH. intros r Hin. apply Hopen. now right.
Qed.

Lemma visit_kept_refl a : visit_kept a a.
Proof. now left. Qed.

Lemma visit_kept_trans a b c : visit_kept a b -> visit_kept b c -> visit_kept a c.
Proof.
  intros [-> | [Ha [t ->]]] [-> | [Hb [t' ->]]].
  - now left.
  - right. split; [exact Hb | now exists t'].
  - right. split; [exact Ha | now exists t].
  - simpl in Hb. discriminate.
Qed.

Lemma visit_kept_open userId (rows rows' : list Attendance) :
  Forall2 visit_kept rows rows' ->
  (List.length (open_entries userId rows') <= List.length (open_entries userId rows))%nat.
Proof.
  induction 1 as [| a a' rows rows' Hk Hrest IH]; simpl; [lia |].
  destruct Hk as [-> | [Ha [t ->]]].
  - destruct ((a_user_id a =? userId) && is_open a); simpl; lia.
  - unfold is_open at 1. simpl. rewrite andb_false_r.
    destruct ((a_user_id a =? userId) && is_open a); simpl; lia.
Qed.

Lemma attendance_footprint_refl d : attendance_footprint d d.
Proof.
  repeat split. exists (attendance d), []. split; [now rewrite app_nil_r |].
  apply Forall2_refl. apply visit_kept_refl.
Qed.

Lemma attendance_footprint_trans a b c :
  attendance_footprint a b -> attendance_footprint b c -> attendance_footprint a c.
Proof.
  intros [Hu1 [Hp1 [Hm1 [Hn1 [Hh1 [kept1 [added1 [Ha1 Hk1]]]]]]]]
         [Hu2 [Hp2 [Hm2 [Hn2 [Hh2 [kept2 [added2 [Ha2 Hk2]]]]]]]].
  repeat split; try congruence.
  rewrite Ha1 in Hk2. apply Forall2_app_inv_l in Hk2 as [k2a [k2b [Hka [Hkb ->]]]].
  exists k2a, (k2b ++ added2). split; [rewrite Ha2; symmetry; apply app_assoc |].
  apply (Forall2_trans visit_kept (attendance a) kept1 k2a); auto.
  intros x y z. apply visit_kept_trans.
Qed.

Lemma open_entries_app userId (rows rows' : list Attendance) :
  open_entries userId (rows ++ rows') = open_entries userId rows ++ open_entries userId rows'.
Proof. apply filter_app. Qed.

Lemma INSERT_attendance_step (now : Instant) (userId : Z) (d : DB) :
  SELECT_open_entry userId d = None ->
  one_open_entry d ->
  attendance_footprint d (INSERT_attendance now userId d) /\
  one_open_entry (INSERT_attendance now userId d).
Proof.
  intros Hnone Hone. split.
  - repeat split. exists (attendance d), [mkAttendance userId (NOW now) None].
    split; [reflexivity |]. apply Forall2_refl, visit_kept_refl.
  - intros u. unfold INSERT_attendance. simpl. rewrite open_entries_app, length_app.
    unfold open_entries at 2. simpl.
    destruct (Z.eqb_spec userId u) as [<- | Hne]; simpl.
    + apply SELECT_open_entry_none in Hnone. rewrite Hnone. simpl. lia.
    + specialize (Hone u). lia.
Qed.

Lemma UPDATE_attendance_step (now : Instant) (userId : Z) (d : DB) (id : nat)
    (a : Attendance) :
  SELECT_open_entry userId d = Some (id, a) ->
  one_open_entry d ->
  attendance_footprint d (UPDATE_attendance_SET_check_out now id d) /\
  one_open_entry (UPDATE_attendance_SET_check_out now id d).
Proof.
  intros Hsel Hone. apply SELECT_open_entry_some in Hsel as [Hin [_ Hopen]].
  assert (Hrows : Forall2 visit_kept (attendance d)
                    (attendance (UPDATE_attendance_SET_check_out now id d))).
  { unfold UPDATE_attendance_SET_check_out, attendance_by_id. simpl.
    apply UPDATE_attendance_rows. intros r Hr.
    now rewrite (combine_seq_unique 0 (attendance d) id r a Hr Hin). }
  split.
  - repeat split. eexists _, []. split; [now rewrite app_nil_r | exact Hrows].
  - intros u. specialize (Hone u).
    pose proof (visit_kept_open u _ _ Hrows). lia.
Qed.

Lemma run_request_step (env : Env) (req : AttendanceRequest) (w : World) :
  one_open_entry (db w) ->
  attendance_footprint (db w) (db (run_request env req w)) /\
  one_open_entry (db (run_request env req w)).
Proof.
  intros Hone.
  assert (Hsame : forall w0 : World, db w0 = db w ->
            attendance_footprint (db w) (db w0) /\ one_open_entry (db w0)).
  { intros w0 ->. split; [apply attendance_footprint_refl | exact Hone]. }
  destruct req as [userId now | userId now]; simpl.
  - unfold post_attendance_checkin, try_catch, bind, pool_query, pool_update, ret,
      console_log.
    destruct (store_rejects env (store_calls w)); simpl; [now apply Hsame |].
    destruct (SELECT_open_entry userId (db w)) as [entry |] eqn:Hsel;
      [now apply Hsame |]. simpl.
    destruct (store_rejects env (S (store_calls w))); simpl; [now apply Hsame |].
    now apply INSERT_attendance_step.
  - unfold post_attendance_checkout, try_catch, bind, pool_query, pool_update, ret,
      console_log.
    destruct (store_rejects env (store_calls w)); simpl; [now apply Hsame |].
    destruct (SELECT_open_entry userId (db w)) as [[id a] |] eqn:Hsel;
      [| now apply Hsame]. simpl.
    destruct (store_rejects env (S (store_calls w))); simpl; [now apply Hsame |].
    now apply (UPDATE_attendance_step now userId (db w) id a).
Qed.

(** X17. Check-in and check-out requests handled one after another, by
    any users in any order and whatever the store does, keep the
    attendance table so that no user has two entries that are not
    checked out. They touch no other table and leave every row from
    before in its place, unchanged or, when it was open, checked out; a
    completed visit is never altered and no row is removed. *)
Theorem attendance_requests_keep_one_open_entry (env : Env)
    (reqs : list AttendanceRequest) (w : World) :
  one_open_entry (db w) ->
  one_open_entry (db (run_requests env reqs w)) /\
  attendance_footprint (db w) (db (run_requests env reqs w)).
Proof.
  revert w. induction reqs as [| req reqs IH]; intros w Hone; simpl.
  - split; [exact Hone | apply attendance_footprint_refl].
  - destruct (run_request_step env req w Hone) as [Hfoot Hone1].
    destruct (IH _ Hone1) as [Hone2 Hfoot2]. split; [exact Hone2 |].
    eapply attendance_footprint_trans; eassumption.
Qed.

Lemma attendance_requests_keep_one_open_entry_witness :
  one_open_entry attendance_edge_db /\
  one_open_entry
    (db (run_requests env_third_call_fails
           [checkin 1 (clock 6 8); checkout 1 (clock 6 9); checkin 2 (clock 6 9);
            checkin 1 (clock 6 17); checkin 1 (clock 6 18); checkout 2 (clock 6 19)]
           (boot attendance_edge_db))).
Proof.
  assert (Hone : one_open_entry attendance_edge_db).
  { intros userId. unfold open_entries. cbn -[Z.eqb].
    destruct (Z.eqb_spec 1 userId); destruct (Z.eqb_spec 2 userId); simpl; lia. }
  split; [exact Hone |].
  apply (attendance_requests_keep_one_open_entry env_third_call_fails _
           (boot attendance_edge_db) Hone).
Defined.

(** ** A visit, from check-in to check-out *)

Lemma combine_seq_snoc {A} (s : nat) (rows : list A) (a : A) :
  combine (seq s (List.length (rows ++ [a]))) (rows ++ [a])
  = combine (seq s (List.length rows)) rows ++ [((s + List.length rows)%nat, a)].
Proof.
  revert s. induction rows as [| r rows IH]; simpl; intros s.
  - now rewrite Nat.add_0_r.
  - rewrite IH. now rewrite Nat.add_succ_r.
Qed.

Lemma map_combine_seq_below {A} (f : A -> A) (id s : nat) (rows : list A) :
  (s + List.length rows <= id)%nat ->
  map (fun r => if Nat.eqb (fst r) id then f (snd r) else snd r)
      (combine (seq s (List.length rows)) rows)
  = rows.
Proof.
  revert s. induction rows as [| r rows IH]; simpl; intros s Hle; [reflexivity |].
  destruct (Nat.eqb_spec s id); [lia |]. rewrite IH by lia. reflexivity.
Qed.

Lemma SELECT_open_entry_after_checkin (now : Instant) (userId : Z) (d : DB) :
  SELECT_open_entry userId d = None ->
  SELECT_open_entry userId (INSERT_attendance now userId d)
  = Some (List.length (attendance d), mkAttendance userId (NOW now) None).
Proof.
  intros Hnone. unfold SELECT_open_entry in *.
  match type of Hnone with
  | ORDER_BY_DESC_LIMIT_1 ?k ?l = _ => pose proof (ORDER_BY_DESC_LIMIT_1_spec k l) as Hspec
  end.
  rewrite Hnone in Hspec.
  unfold attendance_by_id in *. unfold INSERT_attendance. simpl.
  rewrite combine_seq_snoc, filter_app, Hspec. simpl.
  rewrite Z.eqb_refl. reflexivity.
Qed.

Lemma UPDATE_attendance_last (t : Z) (now' : Instant) (userId : Z) (d : DB) :
  UPDATE_attendance_SET_check_out now' (List.length (attendance d))
    (with_attendance (attendance d ++ [mkAttendance userId t None]) d)
  = with_attendance (attendance d ++ [mkAttendance userId t (Some (NOW now'))]) d.
Proof.
  unfold UPDATE_attendance_SET_check_out, attendance_by_id, with_attendance. simpl.
  f_equal. rewrite combine_seq_snoc, map_app.
  rewrite map_combine_seq_below by (simpl; lia). simpl.
  rewrite Nat.eqb_refl. reflexivity.
Qed.

Lemma post_attendance_checkin_run env now userId (w : World) :
  store_available env ->
  post_attendance_checkin env now userId w
  = (Normal (res_redirect "/attendance"),
     match SELECT_open_entry userId (db w) with
     | Some _ => count_store_call w
     | None => with_db (INSERT_attendance now userId (db w))
                       (count_store_call (count_store_call w))
     end).
Proof.
  intros Hup.
  unfold post_attendance_checkin, try_catch, bind, pool_query, pool_update, ret.
  rewrite Hup. simpl. destruct (SELECT_open_entry userId (db w)); [reflexivity |].
  simpl. rewrite Hup. reflexivity.
Qed.

Lemma post_attendance_checkout_run env now userId (w : World) :
  store_available env ->
  post_attendance_checkout env now userId w
  = (Normal (res_redirect "/attendance"),
     match SELECT_open_entry userId (db w) with
     | Some entry => with_db (UPDATE_attendance_SET_check_out now (fst entry) (db w))
                             (count_store_call (count_store_call w))
     | None => count_store_call w
     end).
Proof.
  intros Hup.
  unfold post_attendance_checkout, try_catch, bind, pool_query, pool_update, ret.
  rewrite Hup. simpl. destruct (SELECT_open_entry userId (db w)); [| reflexivity].
  simpl. rewrite Hup. reflexivity.
Qed.

Lemma visit_db env t1 t2 userId (w : World) :
  store_available env ->
  SELECT_open_entry userId (db w) = None ->
  db (snd (post_attendance_checkout env t2 userId
             (snd (post_attendance_checkin env t1 userId w))))
  = with_attendance
      (attendance (db w) ++ [mkAttendance userId (NOW t1) (Some (NOW t2))]) (db w).
Proof.
  intros Hup Hnone.
  rewrite (post_attendance_checkin_run env t1 userId w Hup), Hnone. simpl.
  rewrite (post_attendance_checkout_run env t2 userId _ Hup). simpl.
  rewrite (SELECT_open_entry_after_checkin t1 userId (db w) Hnone). simpl.
  apply UPDATE_attendance_last.
Qed.

Lemma SELECT_open_entry_closed userId (d : DB) (a : Attendance) :
  SELECT_open_entry userId d = None -> is_open a = false ->
  SELECT_open_entry userId (with_attendance (attendance d ++ [a]) d) = None.
Proof.
  intros Hnone Hclosed. rewrite SELECT_open_entry_none in *. simpl.
  rewrite open_entries_app, Hnone. unfold open_entries. simpl.
  rewrite Hclosed, andb_false_r. reflexivity.
Qed.

(** X18. With a store that answers, for a user with no open entry: a
    check-in followed by a check-out appends exactly one row, the visit
    with its two times, and leaves the user with no open entry again and
    every other table and row as it was. A second check-in before the
    check-out stores nothing. *)
Theorem checkin_then_checkout (env : Env) (t1 t2 t' : Instant) (userId : Z)
    (w : World) :
  store_available env ->
  SELECT_open_entry userId (db w) = None ->
  let w1 := snd (post_attendance_checkin env t1 userId w) in
  let w2 := snd (post_attendance_checkout env t2 userId w1) in
  db w2 = with_attendance
            (attendance (db w) ++ [mkAttendance userId (NOW t1) (Some (NOW t2))]) (db w) /\
  SELECT_open_entry userId (db w2) = None /\
  db (snd (post_attendance_checkin env t' userId w1)) = db w1.
Proof.
  intros Hup Hnone w1 w2. subst w2 w1. split; [now apply visit_db |]. split.
  - rewrite (visit_db env t1 t2 userId w Hup Hnone).
    now apply SELECT_open_entry_closed.
  - rewrite (post_attendance_checkin_run env t1 userId w Hup), Hnone. simpl.
    rewrite (post_attendance_checkin_run env t' userId _ Hup). simpl.
    rewrite (SELECT_open_entry_after_checkin t1 userId (db w) Hnone). reflexivity.
Qed.

Lemma checkin_then_checkout_witness :
  db (snd (post_attendance_checkout env_up (clock 6 10) 3
             (snd (post_attendance_checkin env_up (clock 6 9) 3
                     (boot attendance_edge_db)))))
  = with_attendance
      (attendance attendance_edge_db
         ++ [mkAttendance 3 (NOW (clock 6 9)) (Some (NOW (clock 6 10)))])
      attendance_edge_db.
Proof.
  apply (checkin_then_checkout env_up (clock 6 9) (clock 6 10) (clock 6 9) 3
           (boot attendance_edge_db)).
  - intros n. reflexivity.
  - reflexivity.
Defined.

Lemma SELECT_COUNT_attendance_visit now userId t (co : option Z) (d : DB) :
  CURDATE now - 7 <= DATE t ->
  SELECT_COUNT_attendance now userId
    (with_attendance (attendance d ++ [mkAttendance userId t co]) d)
  = SELECT_COUNT_attendance now userId d + 1.
Proof.
  intros Hin. unfold SELECT_COUNT_attendance. simpl.
  rewrite filter_app, length_app. simpl. rewrite Z.eqb_refl.
  assert (Hb : (CURDATE now - 7 <=? DATE t) = true) by now apply Z.leb_le.
  rewrite Hb. simpl. lia.
Qed.

(** X19. With a store that answers, two visits of a user (check-in,
    check-out, check-in) whose check-ins fall on day today-7 or later
    raise the attendance count of the daily job by two, so that user is
    not among the members the daily job reminds of low attendance. *)
Theorem two_visits_silence_the_reminder (env : Env) (t1 t2 t3 now : Instant)
    (userId : Z) (w : World) :
  store_available env ->
  SELECT_open_entry userId (db w) = None ->
  CURDATE now - 7 <= DATE (NOW t1) ->
  CURDATE now - 7 <= DATE (NOW t3) ->
  let w' := run_requests env [checkin userId t1; checkout userId t2; checkin userId t3] w in
  SELECT_COUNT_attendance now userId (db w')
    = SELECT_COUNT_attendance now userId (db w) + 2 /\
  (In userId (findDueAttendanceReminders now (db w')) -> False).
Proof.
  intros Hup Hnone H1 H3 w'.
  assert (Hcount : SELECT_COUNT_attendance now userId (db w')
                   = SELECT_COUNT_attendance now userId (db w) + 2).
  { subst w'. cbn [run_requests run_request].
    rewrite (post_attendance_checkin_run env t3 userId _ Hup).
    rewrite (visit_db env t1 t2 userId w Hup Hnone).
    rewrite SELECT_open_entry_closed by (try assumption; reflexivity).
    unfold INSERT_attendance.
    cbn [snd db with_db count_store_call].
    set (d1 := with_attendance _ (db w)).
    rewrite (SELECT_COUNT_attendance_visit now userId (NOW t3) None d1 H3).
    subst d1. rewrite (SELECT_COUNT_attendance_visit now userId (NOW t1) _ (db w) H1).
    lia. }
  split; [exact Hcount |].
  unfold findDueAttendanceReminders. intros Hin. apply filter_In in Hin as [_ Hlt].
  apply Z.ltb_lt in Hlt. rewrite Hcount in Hlt.
  unfold SELECT_COUNT_attendance in Hlt. lia.
Qed.

Lemma two_visits_silence_the_reminder_witness :
  SELECT_COUNT_attendance (clock 9 9) 2
    (db (run_requests env_up
           [checkin 2 (clock 6 9); checkout 2 (clock 6 10); checkin 2 (clock 8 9)]
           (boot renewal_db)))
  = SELECT_COUNT_attendance (clock 9 9) 2 renewal_db + 2.
Proof.
  apply (two_visits_silence_the_reminder env_up (clock 6 9) (clock 6 10) (clock 8 9)
           (clock 9 9) 2 (boot renewal_db)).
  - intros n. reflexivity.
  - reflexivity.
  - vm_compute. discriminate.
  - vm_compute. discriminate.
Defined.

(** ** The key of a day *)

Lemma String_of_Z_inj (a b : Z) : String_of_Z a = String_of_Z b -> a = b.
Proof.
  assert (Hnil : forall z, Z.to_int z <> Decimal.Pos Decimal.Nil /\
                           Z.to_int z <> Decimal.Neg Decimal.Nil).
  { intros z. split; intros Heq;
      pose proof (DecimalZ.of_to z) as Hz; rewrite Heq in Hz; simpl in Hz;
      subst z; discriminate. }
  unfold String_of_Z. intros Heq. apply DecimalZ.to_int_inj.
  destruct (Hnil a) as [Ha1 Ha2]. destruct (Hnil b) as [Hb1 Hb2].
  pose proof (NilZero.isi _ Ha1 Ha2) as Ia. pose proof (NilZero.isi _ Hb1 Hb2) as Ib.
  rewrite Heq in Ia. congruence.
Qed.

Lemma string_length_append (a b : string) :
  String.length (String.append a b) = (String.length a + String.length b)%nat.
Proof. induction a as [| x a IH]; simpl; [reflexivity | now rewrite IH]. Qed.

Lemma append_inj_suffix (a b c d : string) :
  String.length c = String.length d ->
  String.append a c = String.append b d -> a = b /\ c = d.
Proof.
  intros Hlen. revert b. induction a as [| x a IH]; intros b Heq.
  - destruct b as [| y b]; [now split |]. simpl in Heq.
    apply (f_equal String.length) in Heq. simpl in Heq.
    rewrite string_length_append in Heq. lia.
  - destruct b as [| y b]; simpl in Heq.
    + apply (f_equal String.length) in Heq. simpl in Heq.
      rewrite string_length_append in Heq. lia.
    + injection Heq as -> Heq. destruct (IH b Heq) as [-> ->]. now split.
Qed.

Lemma two_digits_checked :
  forallb (fun i =>
    Nat.eqb (String.length (two_digits i)) 2
    && forallb (fun j => implb (String.eqb (two_digits i) (two_digits j)) (Nat.eqb i j))
               (seq 1 31))
    (seq 1 31) = true.
Proof. vm_compute. reflexivity. Qed.

Lemma two_digits_spec (n m : Z) :
  1 <= n <= 31 -> 1 <= m <= 31 ->
  String.length (padStart 2 "0" (String_of_Z n)) = 2%nat /\
  (padStart 2 "0" (String_of_Z n) = padStart 2 "0" (String_of_Z m) -> n = m).
Proof.
  intros Hn Hm. pose proof two_digits_checked as Hall.
  rewrite forallb_forall in Hall.
  assert (Hin : forall z, 1 <= z <= 31 -> In (Z.to_nat z) (seq 1 31))
    by (intros z Hz; apply in_seq; lia).
  specialize (Hall (Z.to_nat n) (Hin n Hn)).
  apply andb_true_iff in Hall as [Hlen Hinj].
  unfold two_digits in *. rewrite Z2Nat.id in * by lia.
  apply Nat.eqb_eq in Hlen. split; [exact Hlen |].
  intros Heq. rewrite forallb_forall in Hinj. specialize (Hinj (Z.to_nat m) (Hin m Hm)).
  rewrite Z2Nat.id in Hinj by lia. rewrite Heq, String.eqb_refl in Hinj. simpl in Hinj.
  apply Nat.eqb_eq in Hinj. lia.
Qed.

Lemma todayKey_inj (a b : Instant) :
  calendar_fields a -> calendar_fields b -> todayKey a = todayKey b -> same_day a b.
Proof.
  intros [Hma Hda] [Hmb Hdb] Heq. unfold todayKey in Heq. simpl in Heq.
  destruct (two_digits_spec (getMonth a + 1) (getMonth b + 1)) as [Hlm Him]; [lia | lia |].
  destruct (two_digits_spec (getMonth b + 1) (getMonth a + 1)) as [Hlm' _]; [lia | lia |].
  destruct (two_digits_spec (getDate a) (getDate b) Hda Hdb) as [Hld Hid].
  destruct (two_digits_spec (getDate b) (getDate a) Hdb Hda) as [Hld' _].
  apply append_inj_suffix in Heq as [Hy Hrest].
  2: { simpl. rewrite ?string_length_append. simpl. lia. }
  injection Hrest as Hrest.
  apply append_inj_suffix in Hrest as [Hm Hrest].
  2: { simpl. lia. }
  injection Hrest as Hrest.
  apply String_of_Z_inj in Hy. apply Him in Hm. apply Hid in Hrest.
  repeat split; lia.
Qed.

(** X20. For instants whose month and day are in the ranges the clock
    returns, two instants have the same key exactly when they fall on
    the same calendar day. Hence a key recorded on one day closes the
    gate on that day only: on any other day the gate admits the daily
    job as soon as the hour is reached. *)
Theorem todayKey_tells_days_apart (a b : Instant) :
  calendar_fields a -> calendar_fields b ->
  (todayKey a = todayKey b <-> same_day a b) /\
  (forall env,
     shouldRunDaily env b (Some (todayKey a)) = true <->
     DAILY_RUN_HOUR env <= getHours b /\ (same_day a b -> False)).
Proof.
  intros Ha Hb.
  assert (Hkey : todayKey a = todayKey b <-> same_day a b).
  { split; [now apply todayKey_inj | apply todayKey_same_day]. }
  split; [exact Hkey |].
  intros env. rewrite shouldRunDaily_spec. split.
  - intros [Hh Hne]. split; [exact Hh |]. intros Hsame. apply Hne.
    f_equal. now apply Hkey.
  - intros [Hh Hne]. split; [exact Hh |]. intros Heq. apply Hne.
    injection Heq as Heq. now apply Hkey.
Qed.

Lemma todayKey_tells_days_apart_witness :
  shouldRunDaily env_up (clock 10 9) (Some (todayKey (clock 9 9))) = true <->
  DAILY_RUN_HOUR env_up <= getHours (clock 10 9) /\
  (same_day (clock 9 9) (clock 10 9) -> False).
Proof.
  apply (todayKey_tells_days_apart (clock 9 9) (clock 10 9)).
  - unfold calendar_fields. simpl. lia.
  - unfold calendar_fields. simpl. lia.
Defined.

(** ** The attendance export reads back *)

Lemma string_append_assoc (a b c : string) :
  String.append (String.append a b) c = String.append a (String.append b c).
Proof. induction a as [| x a IH]; simpl; [reflexivity | now rewrite IH]. Qed.

Lemma read_quoted_replace (s after : string) :
  no_leading_quote after ->
  read_quoted (String.append (replace_dquotes s) (String dquote after)) = Some (s, after).
Proof.
  intros Hafter. induction s as [| c s IH].
  - simpl. destruct after as [| c' after']; [reflexivity |].
    simpl in Hafter. rewrite Hafter. reflexivity.
  - simpl. destruct (Ascii.eqb_spec c dquote) as [-> | Hne].
    + cbn [String.append read_quoted]. rewrite Ascii.eqb_refl.
      change (String.append (replace_dquotes s) (String dquote after))
        with (String.append (replace_dquotes s) (String dquote after)).
      rewrite IH. reflexivity.
    + cbn [String.append read_quoted].
      destruct (Ascii.eqb_spec c dquote); [contradiction |]. rewrite IH. reflexivity.
Qed.

Lemma q_append (s : option string) (tail : string) :
  String.append (q s) tail
  = String dquote
      (String.append
         (replace_dquotes (match s with Some x => x | None => EmptyString end))
         (String dquote tail)).
Proof. unfold q. simpl. now rewrite string_append_assoc. Qed.

Lemma read_record_last (rest field after : string) :
  read_quoted rest = Some (field, after) ->
  read_record 1 (String dquote rest) = Some ([field], after).
Proof.
  intros Hq. cbn [read_record]. rewrite Ascii.eqb_refl, Hq. reflexivity.
Qed.

Lemma read_record_next (n : nat) (rest field after : string) :
  read_quoted rest = Some (field, String ","%char after) ->
  read_record (S (S n)) (String dquote rest)
  = match read_record (S n) after with
    | Some (fields, final) => Some (field :: fields, final)
    | None => None
    end.
Proof.
  intros Hq. change (read_record (S (S n)) (String dquote rest))
    with (if Ascii.eqb dquote dquote
          then match read_quoted rest with
               | Some (field, after) =>
                   match after with
                   | String c' after' =>
                       if Ascii.eqb c' ","%char
                       then match read_record (S n) after' with
                            | Some (fields, final) => Some (field :: fields, final)
                            | None => None
                            end
                       else None
                   | EmptyString => None
                   end
               | None => None
               end
          else None).
  rewrite Ascii.eqb_refl, Hq, Ascii.eqb_refl. reflexivity.
Qed.

Lemma read_record_fields (f : option string) (fs : list (option string)) (tail : string) :
  no_leading_quote tail ->
  read_record (S (List.length fs))
    (String.append (String.concat "," (map q (f :: fs))) tail)
  = Some (map field_text (f :: fs), tail).
Proof.
  intros Htail. revert f. induction fs as [| g fs IH]; intros f.
  - cbn [map String.concat List.length]. rewrite q_append.
    apply read_record_last. now apply read_quoted_replace.
  - cbn [map String.concat List.length]. cbn [map] in IH.
    rewrite string_append_assoc, q_append.
    rewrite (read_record_next (List.length fs) _ (field_text f)
               (String.append (String.concat "," (q g :: map q fs)) tail)).
    + rewrite (IH g). reflexivity.
    + rewrite string_append_assoc. cbn [String.append].
      now apply read_quoted_replace.
Qed.

Lemma export_line_reads `{JsRuntime} (r : ExportRow) (tail : string) :
  no_leading_quote tail ->
  read_record 4 (String.append (export_line r) tail) = Some (export_fields r, tail).
Proof.
  intros Htail. unfold export_line.
  pose proof (read_record_fields (Some (x_member r))
                [Some (DateToString (x_check_in r));
                 option_map DateToString (x_check_out r); Some (x_method r)]
                tail Htail) as Hread.
  cbn [map List.length] in Hread. rewrite Hread.
  unfold export_fields, field_text. destruct (x_check_out r); reflexivity.
Qed.

(** The lines of the export, each with its line end. *)
Lemma export_lines `{JsRuntime} (r : ExportRow) (rows : list ExportRow) (tail : string) :
  String.append (String.concat CRLF (map export_line (r :: rows))) (String.append CRLF tail)
  = String.append (export_line r)
      (String.append CRLF
         (match rows with
          | [] => tail
          | r' :: rows' =>
              String.append (String.concat CRLF (map export_line (r' :: rows')))
                            (String.append CRLF tail)
          end)).
Proof.
  destruct rows as [| r' rows']; [reflexivity |].
  cbn [map String.concat]. now rewrite !string_append_assoc.
Qed.

Lemma read_rows_next (n : nat) (s rest : string) (fields : list string) :
  read_record 4 s = Some (fields, String.append CRLF rest) ->
  read_rows (S n) s
  = match read_rows n rest with
    | Some rows => Some (fields :: rows)
    | None => None
    end.
Proof.
  intros Hread. cbn [read_rows]. rewrite Hread. unfold CRLF. cbn [String.append].
  rewrite !Ascii.eqb_refl. reflexivity.
Qed.

Lemma export_rows_read `{JsRuntime} (r : ExportRow) (rows : list ExportRow) :
  read_rows (S (List.length rows))
    (String.append (String.concat CRLF (map export_line (r :: rows))) CRLF)
  = Some (map export_fields (r :: rows)).
Proof.
  revert r. induction rows as [| r' rows IH]; intros r.
  - cbn [map String.concat List.length].
    rewrite (read_rows_next 0 _ EmptyString (export_fields r)); [reflexivity |].
    now apply export_line_reads.
  - replace CRLF with (String.append CRLF EmptyString) at 2 by reflexivity.
    rewrite export_lines. cbn [List.length].
    erewrite (read_rows_next (S (List.length rows)) _ _ (export_fields r));
      [| apply export_line_reads; reflexivity].
    change (String.append CRLF EmptyString) with CRLF.
    rewrite (IH r'). reflexivity.
Qed.

(** X21. The body of the attendance export is the header line followed
    by one line per row, each ended by a carriage return and a line
    feed. Reading the lines back as comma-separated quoted fields, two
    quotes in a row standing for one, returns the four fields of every
    row exactly as printed, whatever characters they hold: commas,
    quotes and line breaks in a name do not break the file. A check-out
    that is null reads back as the empty string. With no row at all the
    body is the header followed by one empty line. *)
Theorem attendance_csv_reads_back `{JsRuntime} (rows : list ExportRow) :
  exists lines,
    attendance_csv rows
      = String.append (String.append "Member,Check In,Check Out,Method" CRLF) lines /\
    match rows with
    | [] => lines = CRLF
    | _ :: _ => read_rows (List.length rows) lines = Some (map export_fields rows)
    end.
Proof.
  unfold attendance_csv. eexists. split; [reflexivity |].
  destruct rows as [| r rows]; [reflexivity |]. apply export_rows_read.
Qed.

(** ** The script tag added to rendered pages *)

Lemma prefix_append (n a b : string) :
  String.prefix n a = true -> String.prefix n (String.append a b) = true.
Proof.
  revert a. induction n as [| c n IH]; intros a Hp;
    [destruct (String.append a b); reflexivity |].
  destruct a as [| x a]; simpl in *; [discriminate |].
  destruct (Ascii.ascii_dec c x); [now apply IH | discriminate].
Qed.

Lemma includes_append_l (a b n : string) :
  includes a n = true -> includes (String.append a b) n = true.
Proof.
  induction a as [| x a IH]; cbn [includes String.append]; intros Hin.
  - rewrite orb_false_r in Hin. destruct n; [| discriminate].
    destruct b; reflexivity.
  - apply orb_true_iff in Hin as [Hp | Hin].
    + pose proof (prefix_append n (String x a) b Hp) as Hp'.
      cbn [String.append] in Hp'. rewrite Hp'. reflexivity.
    + rewrite (IH Hin). apply orb_true_r.
Qed.

Lemma includes_append_r (a b n : string) :
  includes b n = true -> includes (String.append a b) n = true.
Proof.
  intros Hin. induction a as [| x a IH]; simpl; [exact Hin |].
  rewrite IH. apply orb_true_r.
Qed.

Lemma includes_replace_first (pattern replacement hay n : string) :
  includes hay pattern = true -> includes replacement n = true ->
  includes (replace_first pattern replacement hay) n = true.
Proof.
  intros Hpat Hrep. induction hay as [| c hay IH].
  - cbn [includes] in Hpat. rewrite orb_false_r in Hpat.
    cbn [replace_first]. rewrite Hpat. now apply includes_append_l.
  - cbn [replace_first]. cbn [includes] in Hpat.
    destruct (String.prefix pattern (String c hay)).
    + now apply includes_append_l.
    + simpl in Hpat. cbn [includes]. rewrite (IH Hpat). apply orb_true_r.
Qed.

(** X22. The wrapper of [res.render] leaves a page that references
    [/public/js/main.js] exactly as it is; any other page comes out
    referencing it; and passing a page through the wrapper twice gives
    what passing it once gives. *)
Theorem inject_main_js_once (html : string) :
  includes (inject_main_js html) "/public/js/main.js" = true /\
  inject_main_js (inject_main_js html) = inject_main_js html /\
  (includes html "/public/js/main.js" = true -> inject_main_js html = html).
Proof.
  assert (Hinc : includes (inject_main_js html) "/public/js/main.js" = true).
  { unfold inject_main_js.
    destruct (includes html "/public/js/main.js") eqn:Hhas; simpl; [exact Hhas |].
    destruct (includes html "</body>") eqn:Hbody.
    - apply includes_replace_first; [exact Hbody |]. vm_compute. reflexivity.
    - apply includes_append_r. vm_compute. reflexivity. }
  split; [exact Hinc |]. split.
  - unfold inject_main_js at 1. now rewrite Hinc.
  - intros Hhas. unfold inject_main_js. now rewrite Hhas.
Qed.

(** ** From one membership to the next *)

Lemma sweep_INSERT_membership now' userId planId start_ end_ st (d : DB) :
  memberships (sweep now' (INSERT_membership userId planId start_ end_ st d))
  = memberships (sweep now' d)
    ++ [let new := mkMembership (next_id (map m_id (memberships d)))
                                userId planId start_ end_ st in
        set_status (status_after_sweep (CURDATE now') new) new].
Proof.
  rewrite !sweep_memberships. unfold INSERT_membership. simpl.
  now rewrite map_app.
Qed.

(** X23. A subscription taken while a membership is current is handed
    over by the sweep. With a store that answers, a plan that lasts at
    least a day and a current active membership [cur]: the new
    membership is pending and starts the day after [cur] ends; a sweep on
    any day up to the end of [cur] leaves it pending; the sweep of the
    day after [cur] ends makes it active and [cur] expired, the other
    memberships being swept as without the subscription. *)
Theorem subscription_hands_over (env : Env) (now now' : Instant) (userId plan_id : Z)
    (w : World) (plan : Plan) (cur : Membership) :
  store_available env ->
  SELECT_plan plan_id (db w) = Some plan ->
  0 < p_duration_days plan ->
  SELECT_current_active now userId (db w) = Some cur ->
  let w1 := snd (post_subscribe env now userId (Some plan_id) w) in
  let w2 := snd (activateExpireTasks env now' w1) in
  exists new,
    memberships (db w1) = memberships (db w) ++ [new] /\
    m_status new = pending /\ m_start_date new = m_end_date cur + 1 /\
    memberships (db w2)
      = memberships (sweep now' (db w))
        ++ [set_status (status_after_sweep (CURDATE now') new) new] /\
    (CURDATE now' <= m_end_date cur ->
     status_after_sweep (CURDATE now') new = pending) /\
    (CURDATE now' = m_end_date cur + 1 ->
     status_after_sweep (CURDATE now') new = active /\
     In (set_status expired cur) (memberships (db w2))).
Proof.
  intros Hup Hplan Hdur Hcur w1 w2.
  destruct (post_subscribe_run env now userId plan_id w plan Hup Hplan) as [_ Hdb1].
  fold w1 in Hdb1. unfold subscribed in Hdb1. rewrite Hcur in Hdb1.
  assert (Hdb2 : db w2 = sweep now' (db w1)).
  { subst w2. rewrite (activateExpireTasks_run env now' w1) by apply Hup. reflexivity. }
  eexists (mkMembership _ _ _ _ _ _).
  split; [rewrite Hdb1; reflexivity |].
  split; [reflexivity |]. split; [reflexivity |].
  split; [rewrite Hdb2, Hdb1; apply sweep_INSERT_membership |].
  unfold status_after_sweep, DATE_ADD. simpl. split.
  - intros Hle. destruct (Z.leb_spec (m_end_date cur + 1) (CURDATE now')); [lia |].
    reflexivity.
  - intros Hday. split.
    + destruct (Z.leb_spec (m_end_date cur + 1) (CURDATE now')); [| lia].
      destruct (Z.ltb_spec (m_end_date cur + 1 + (p_duration_days plan - 1))
                           (CURDATE now')); [lia | reflexivity].
    + rewrite Hdb2, Hdb1, sweep_INSERT_membership. apply in_or_app. left.
      rewrite sweep_memberships.
      pose proof (SELECT_current_active_spec now userId (db w)) as Hspec.
      rewrite Hcur in Hspec. destruct Hspec as [[Hin [_ [Hst _]]] _].
      apply in_map_iff. exists cur. split; [| exact Hin].
      f_equal. unfold status_after_sweep. rewrite Hst.
      destruct (Z.ltb_spec (m_end_date cur) (CURDATE now')); [reflexivity | lia].
Qed.

Lemma subscription_hands_over_witness :
  exists new,
    memberships
      (db (snd (post_subscribe env_up (clock 9 9) 7 (Some 2) (boot subscribe_db))))
      = memberships subscribe_db ++ [new] /\
    m_status new = pending /\ m_start_date new = 17 /\
    status_after_sweep (CURDATE (clock 17 0)) new = active.
Proof.
  destruct (subscription_hands_over env_up (clock 9 9) (clock 17 0) 7 2
              (boot subscribe_db) (mkPlan 2 "Weekly" 7)
              (mkMembership 2 7 2 10 16 active))
    as [new [Hms [Hst [Hstart [_ [_ Hover]]]]]].
  - intros n. reflexivity.
  - reflexivity.
  - simpl. lia.
  - reflexivity.
  - exists new. split; [exact Hms |]. split; [exact Hst |]. split; [exact Hstart |].
    apply Hover. reflexivity.
Defined.
